(** * graffity-app-view: the bitmap renderer and the chain registry

    A shallow embedding of [decodeBMPToBitfield] (erc721.go), of the
    chain registry of the multi-chain server ([NewServer],
    [getServiceForChainID], [Close]) and of [ParseChainID], followed by
    the properties that the design document states about them; then of
    [LoadConfig], [FormatMetadataAsText], [handleToken] and the first
    step of [fetchMetadataFromURI], with further properties of all of
    this code.

    Conventions.
    - Go's [int] is the 64-bit signed integer of the amd64 target; it is a
      [Z] and every [+], [*] and unary [-] that the source performs on it
      goes through [wrap64].  Go's [/] and [%] truncate toward zero, so
      they are [Z.quot] and [Z.rem].
    - A [[]byte] is a [list byte]; an index expression that is out of
      range is a run-time panic, here the outcome [Panic].
    - A [strings.Builder] is the list of the strings written to it, in
      order; [sb.String()] is their concatenation.
    - Ranging over a Go map visits the entries in an unspecified order:
      the functions that range take the order as an argument and the
      theorems hold for every permutation of the map's entries. *)

From Stdlib Require Import ZArith List Strings.String Strings.Ascii Strings.Byte.
From Stdlib Require Import Numbers.DecimalString Numbers.DecimalPos Lia.
From stdpp Require Import base numbers option list strings gmap.

Open Scope Z_scope.

(** ** Machine integers *)

Module GoInt.

Definition wrap64 (z : Z) : Z := (z + 2 ^ 63) mod 2 ^ 64 - 2 ^ 63.

Definition add (a b : Z) : Z := wrap64 (a + b).
Definition mul (a b : Z) : Z := wrap64 (a * b).
Definition neg (a : Z) : Z := wrap64 (- a).

(** [int32(u)] for a [uint32] value [u]. *)
Definition int32_of_uint32 (u : Z) : Z := if u <? 2 ^ 31 then u else u - 2 ^ 32.

(** [byte(i)] for an [int] value [i]. *)
Definition to_byte (i : Z) : Z := i mod 256.

Definition in_range (z : Z) : Prop := - 2 ^ 63 <= z < 2 ^ 63.

End GoInt.

(** ** Byte slices *)

Definition byte_val (b : byte) : Z := Z.of_N (Byte.to_N b).

Definition len {A} (l : list A) : Z := Z.of_nat (length l).

(** [b[lo:hi]] *)
Definition slice (b : list byte) (lo hi : nat) : list byte :=
  take (hi - lo) (drop lo b).

(** [b[i]] as an [int]; [None] is the index-out-of-range panic. *)
Definition index (b : list byte) (i : Z) : option Z :=
  if i <? 0 then None else byte_val <$> b !! Z.to_nat i.

(** The header readers are only applied to slices of the first 54 bytes,
    after the length check, so the default byte is never used. *)
Definition byte_at (b : list byte) (i : nat) : Z := byte_val (nth i b x00).

(** [binary.LittleEndian.Uint16] *)
Definition Uint16 (b : list byte) : Z :=
  Z.lor (byte_at b 0) (Z.shiftl (byte_at b 1) 8).

(** [binary.LittleEndian.Uint32] *)
Definition Uint32 (b : list byte) : Z :=
  Z.lor (Z.lor (Z.lor (byte_at b 0) (Z.shiftl (byte_at b 1) 8))
               (Z.shiftl (byte_at b 2) 16))
        (Z.shiftl (byte_at b 3) 24).

(** ** Outcomes *)

Inductive DecodeError : Type :=
| InvalidURI                       (* "invalid BMP data URI format" *)
| Base64Error                      (* "failed to decode base64: ..." *)
| TooShort                         (* "BMP data too short" *)
| BadSignature                     (* "invalid BMP signature" *)
| UnsupportedDepth (bpp : Z)       (* "unsupported bits per pixel: %d" *)
| TruncatedData.                   (* "BMP data incomplete" *)

Inductive outcome (A : Type) : Type :=
| Ok (a : A)
| Err (e : DecodeError)
| Panic
| OutOfFuel.

Arguments Ok {A} a.
Arguments Err {A} e.
Arguments Panic {A}.
Arguments OutOfFuel {A}.

(** ** The bitmap headers *)

Record BMPHeader : Type := {
  Signature : Z;
  FileSize : Z;
  Reserved : Z;
  DataOffset : Z
}.

Record BMPInfoHeader : Type := {
  Size : Z;
  Width : Z;
  Height : Z;
  ColorPlanes : Z;
  BitsPerPixel : Z;
  Compression : Z;
  ImageSize : Z;
  HorizontalRes : Z;
  VerticalRes : Z;
  ColorsInPalette : Z;
  ImportantColors : Z
}.

Definition parseHeader (bmpData : list byte) : BMPHeader :=
  {| Signature := Uint16 (slice bmpData 0 2);
     FileSize := Uint32 (slice bmpData 2 6);
     Reserved := Uint32 (slice bmpData 6 10);
     DataOffset := Uint32 (slice bmpData 10 14) |}.

Definition parseInfoHeader (bmpData : list byte) : BMPInfoHeader :=
  {| Size := Uint32 (slice bmpData 14 18);
     Width := GoInt.int32_of_uint32 (Uint32 (slice bmpData 18 22));
     Height := GoInt.int32_of_uint32 (Uint32 (slice bmpData 22 26));
     ColorPlanes := Uint16 (slice bmpData 26 28);
     BitsPerPixel := Uint16 (slice bmpData 28 30);
     Compression := Uint32 (slice bmpData 30 34);
     ImageSize := Uint32 (slice bmpData 34 38);
     HorizontalRes := Uint32 (slice bmpData 38 42);
     VerticalRes := Uint32 (slice bmpData 42 46);
     ColorsInPalette := Uint32 (slice bmpData 46 50);
     ImportantColors := Uint32 (slice bmpData 50 54) |}.

(** The bit-depth whitelist of the validation step. *)
Definition depth_supported (bpp : Z) : bool :=
  (bpp =? 1) || (bpp =? 4) || (bpp =? 8) || (bpp =? 24) || (bpp =? 32).

(** [%d] of [fmt.Sprintf]. *)
Definition fmt_d (z : Z) : string := NilZero.string_of_int (Z.to_int z).

Definition newline : string := String (ascii_of_nat 10) EmptyString.

(** ** The renderer *)

(** [for y := startY; y != endY; y += stepY { body }], where the body
    writes chunks to the builder or panics. *)
Fixpoint for_rows (fuel : nat) (body : Z -> option (list string))
    (y endY stepY : Z) : outcome (list string) :=
  if y =? endY then Ok []
  else
    match fuel with
    | O => OutOfFuel
    | S fuel' =>
        match body y with
        | None => Panic
        | Some chunks =>
            match for_rows fuel' body (GoInt.add y stepY) endY stepY with
            | Ok rest => Ok (chunks ++ rest)
            | other => other
            end
        end
    end.

Section Renderer.

(** The five palette tokens, lightest first. *)
Variables c0 c1 c2 c3 c4 : string.

(** Brightness brackets of the multi-depth path. *)
Definition brightness_char (brightness : Z) : string :=
  if 204 <=? brightness then c0
  else if 153 <=? brightness then c1
  else if 102 <=? brightness then c2
  else if 51 <=? brightness then c3
  else c4.

(** Body of the inner loop of the 1-bit path. *)
Definition bit_cell (bmpData : list byte) (rowOffset x : Z)
    : option (list string) :=
  let byteOffset := GoInt.add rowOffset (Z.quot x 8) in
  let bitOffset := 7 - Z.rem x 8 in
  if byteOffset <? len bmpData then
    v ← index bmpData byteOffset;
    let bit := Z.land (Z.shiftr v bitOffset) 1 in
    Some (if bit =? 1 then [c1] else [c0])
  else Some [].

(** Body of the inner loop of the multi-depth path. *)
Definition gray_cell (bmpData : list byte) (bpp bytesPerPixel rowOffset x : Z)
    : option (list string) :=
  let pixelOffset := GoInt.add rowOffset (GoInt.mul x bytesPerPixel) in
  if GoInt.add pixelOffset bytesPerPixel <=? len bmpData then
    brightness ←
      (if bpp =? 8 then index bmpData pixelOffset
       else if (bpp =? 24) || (bpp =? 32) then
         b ← index bmpData pixelOffset;
         g ← index bmpData (GoInt.add pixelOffset 1);
         r ← index bmpData (GoInt.add pixelOffset 2);
         Some (GoInt.to_byte
                 (Z.quot (GoInt.add (GoInt.add (GoInt.mul r 299) (GoInt.mul g 587))
                                    (GoInt.mul b 114)) 1000))
       else Some 128);
    Some [brightness_char brightness]
  else Some [].

(** One turn of the outer loop: the indent, the cells of
    [for x := 0; x < width; x++], the line feed. *)
Definition render_row (cell : Z -> Z -> option (list string))
    (pixelDataStart rowSize width y : Z) : option (list string) :=
  let rowOffset := GoInt.add pixelDataStart (GoInt.mul y rowSize) in
  cells ← mapM (cell rowOffset) (seqZ 0 width);
  Some ("    "%string :: concat cells ++ [newline]).

(** The body of [decodeBMPToBitfield] from the length check on; the
    result is the content of the builder. *)
Definition decodeBMPData (bmpData : list byte) : outcome (list string) :=
  if len bmpData <? 54 then Err TooShort
  else
    let header := parseHeader bmpData in
    if negb (Signature header =? 0x4D42) then Err BadSignature
    else
      let infoHeader := parseInfoHeader bmpData in
      let bpp := BitsPerPixel infoHeader in
      if negb (depth_supported bpp) then Err (UnsupportedDepth bpp)
      else
        let width := Width infoHeader in
        let height0 := Height infoHeader in
        let isTopDown := height0 <? 0 in
        let height := if isTopDown then GoInt.neg height0 else height0 in
        let bytesPerPixel := if bpp =? 1 then 0 else Z.quot bpp 8 in
        let rowSize :=
          GoInt.mul (Z.quot (GoInt.add (GoInt.mul width bpp) 31) 32) 4 in
        let pixelDataStart := DataOffset header in
        if len bmpData <? GoInt.add pixelDataStart (GoInt.mul rowSize height)
        then Err TruncatedData
        else
          let banner :=
            [ ("  Dimensions: " +:+ fmt_d width +:+ "x" +:+ fmt_d height
                 +:+ ", BPP: " +:+ fmt_d bpp +:+ newline)%string;
              ("  Bitfield:" +:+ newline)%string ] in
          let startY := if isTopDown then 0 else GoInt.add height (-1) in
          let endY := if isTopDown then height else -1 in
          let stepY := if isTopDown then 1 else -1 in
          let cell :=
            if bpp =? 1 then bit_cell bmpData
            else gray_cell bmpData bpp bytesPerPixel in
          match for_rows (Z.to_nat height)
                  (render_row cell pixelDataStart rowSize width)
                  startY endY stepY with
          | Ok rows => Ok (banner ++ rows)
          | other => other
          end.

(** [sb.String()] *)
Definition builder_string (chunks : list string) : string :=
  String.concat "" chunks.

Section DataURI.

(** [base64.StdEncoding.DecodeString], a collaborator of the
    standard library: [None] is its error. *)
Variable base64_decode : string -> option (list byte).

Definition bmp_prefix : string := "data:image/bmp;base64,".

(** [strings.TrimPrefix] for a prefix known to be present. *)
Definition trim_prefix (p s : string) : string :=
  String.substring (String.length p) (String.length s - String.length p) s.

Definition decodeBMPToBitfield (dataURI : string) : outcome string :=
  if negb (String.prefix bmp_prefix dataURI) then Err InvalidURI
  else
    match base64_decode (trim_prefix bmp_prefix dataURI) with
    | None => Err Base64Error
    | Some bmpData =>
        match decodeBMPData bmpData with
        | Ok chunks => Ok (builder_string chunks)
        | Err e => Err e
        | Panic => Panic
        | OutOfFuel => OutOfFuel
        end
    end.

End DataURI.

End Renderer.

(** ** Test fixtures: building bitmap buffers *)

Definition byte_of_Z (z : Z) : byte :=
  default x00 (Byte.of_N (Z.to_N (z mod 256))).

Definition le16 (z : Z) : list byte :=
  [byte_of_Z z; byte_of_Z (Z.shiftr z 8)].

Definition le32 (z : Z) : list byte :=
  [byte_of_Z z; byte_of_Z (Z.shiftr z 8);
   byte_of_Z (Z.shiftr z 16); byte_of_Z (Z.shiftr z 24)].

(** A 54-byte header followed by [pixels]; [height] and [width] are
    stored in two's complement. *)
Definition mk_bmp (sig offset width height bpp : Z) (pixels : list byte)
    : list byte :=
  le16 sig ++ le32 0 ++ le32 0 ++ le32 offset ++
  le32 40 ++ le32 width ++ le32 height ++ le16 1 ++ le16 bpp ++
  le32 0 ++ le32 0 ++ le32 0 ++ le32 0 ++ le32 0 ++ le32 0 ++
  pixels.

(** ** The chain registry *)

(** [Int64] of [big.Int]: the low 64 bits of the magnitude, reinterpreted
    as signed, negated for a negative number. *)
Definition Int64 (x : Z) : Z :=
  let v := GoInt.wrap64 (Z.abs x mod 2 ^ 64) in
  if x <? 0 then GoInt.neg v else v.

Record RPCConfig : Type := {
  RPCURL : string;
  ContractAddress : string
}.

Record Config : Type := {
  RPCConfigs : gmap Z RPCConfig;
  AddressPort : string
}.

(** An [ethclient.Client]: the endpoint it was dialled with and the
    number of [Close] calls it has received. *)
Record Client : Type := {
  endpoint : string;
  closes : nat
}.

(** [client] is a pointer: [None] is nil.  The parsed ABI is a constant
    and is left out. *)
Record ERC721Service : Type := {
  client : option Client;
  contractAddress : string
}.

(** A [*ERC721Service] is an address in the heap of the world, or nil. *)
Definition service_ptr : Type := option nat.

(** The heap of services allocated so far and the log of the chain
    identifier queries issued so far (addresses, oldest first). *)
Record World : Type := {
  heap : list ERC721Service;
  probes : list nat
}.

Record Server : Type := {
  services : gmap Z service_ptr;
  config : Config
}.

Inductive ServerError : Type :=
| CreateServiceFailed (chainID : Z)  (* "failed to create ERC721 service for chain %d: ..." *)
| GetChainIDFailed                   (* "failed to get chain ID from RPC: ..." *)
| NoRPCServer (chainID : Z).         (* "no RPC server configured for chain ID %d" *)

Inductive result (A : Type) : Type :=
| Success (a : A)
| Failure (e : ServerError)
| NilPanic.

Arguments Success {A} a.
Arguments Failure {A} e.
Arguments NilPanic {A}.

Section Registry.

(** The network, as the registry observes it: whether [ethclient.Dial]
    connects to an endpoint, and what an endpoint answers to the chain
    identifier query issued when [t] queries have been issued before
    ([None] is an error). *)
Variable dial : string -> bool.
Variable chain_id_reply : nat -> string -> option Z.

(** [NewERC721Service]: parsing the constant ABI cannot fail. *)
Definition NewERC721Service (rpcURL contractAddr : string) (w : World)
    : option nat * World :=
  if dial rpcURL then
    (Some (length (heap w)),
     {| heap := heap w ++ [{| client := Some {| endpoint := rpcURL; closes := 0 |};
                              contractAddress := contractAddr |}];
        probes := probes w |})
  else (None, w).

(** [GetChainID] of [ERC721Service]; dereferencing a nil service or a nil
    client panics. *)
Definition GetChainID (s : service_ptr) (w : World) : result Z * World :=
  match s with
  | None => (NilPanic, w)
  | Some a =>
      match heap w !! a with
      | None => (NilPanic, w)
      | Some svc =>
          match client svc with
          | None => (NilPanic, w)
          | Some c =>
              let w' := {| heap := heap w; probes := probes w ++ [a] |} in
              match chain_id_reply (length (probes w)) (endpoint c) with
              | Some chainID => (Success chainID, w')
              | None => (Failure GetChainIDFailed, w')
              end
          end
      end
  end.

(** The loop of [NewServer] over the configured entries.  An entry
    holds its [RPCConfig] itself: [LoadConfig] never stores a nil
    pointer. *)
Fixpoint NewServer_loop (entries : list (Z * RPCConfig))
    (svcs : gmap Z service_ptr) (w : World)
    : result (gmap Z service_ptr) * World :=
  match entries with
  | [] => (Success svcs, w)
  | (chainID, rpcConfig) :: rest =>
      match NewERC721Service (RPCURL rpcConfig) (ContractAddress rpcConfig) w with
      | (None, w1) => (Failure (CreateServiceFailed chainID), w1)
      | (Some service, w1) =>
          if chainID =? 0 then
            match GetChainID (Some service) w1 with
            | (Success actualChainID, w2) =>
                NewServer_loop rest
                  (<[Int64 actualChainID := Some service]> svcs) w2
            | (Failure _, w2) => (Failure GetChainIDFailed, w2)
            | (NilPanic, w2) => (NilPanic, w2)
            end
          else NewServer_loop rest (<[chainID := Some service]> svcs) w1
      end
  end.

(** [order] is the order in which the range visits [config.RPCConfigs]. *)
Definition NewServer (order : list (Z * RPCConfig)) (cfg : Config) (w : World)
    : result Server * World :=
  match NewServer_loop order ∅ w with
  | (Success svcs, w') => (Success {| services := svcs; config := cfg |}, w')
  | (Failure e, w') => (Failure e, w')
  | (NilPanic, w') => (NilPanic, w')
  end.

(** The discovery loop of [getServiceForChainID]: [Success None] when
    the loop falls through. *)
Fixpoint scan (entries : list (Z * service_ptr)) (chainID : Z) (w : World)
    : result (option service_ptr) * World :=
  match entries with
  | [] => (Success None, w)
  | (existingChainID, existingService) :: rest =>
      match GetChainID existingService w with
      | (NilPanic, w') => (NilPanic, w')
      | (Failure _, w') => scan rest chainID w'
      | (Success serviceChainID, w') =>
          if Int64 serviceChainID =? chainID
          then (Success (Some existingService), w')
          else scan rest chainID w'
      end
  end.

(** [order] is the order in which the range visits [s.services]; the
    locks do not show in a sequential run. *)
Definition getServiceForChainID (order : list (Z * service_ptr))
    (s : Server) (w : World) (chainID : Z)
    : result service_ptr * Server * World :=
  match services s !! chainID with
  | Some service => (Success service, s, w)
  | None =>
      match services s !! chainID with
      | Some service => (Success service, s, w)
      | None =>
          match scan order chainID w with
          | (Success (Some existingService), w') =>
              (Success existingService,
               {| services := <[chainID := existingService]> (services s);
                  config := config s |}, w')
          | (Success None, w') => (Failure (NoRPCServer chainID), s, w')
          | (Failure e, w') => (Failure e, s, w')
          | (NilPanic, w') => (NilPanic, s, w')
          end
      end
  end.

(** [Close] of [ERC721Service] on the service at address [a]. *)
Definition ERC721Service_Close (a : nat) (w : World) : World :=
  {| heap :=
       alter (fun svc =>
                match client svc with
                | Some c =>
                    {| client := Some {| endpoint := endpoint c; closes := S (closes c) |};
                       contractAddress := contractAddress svc |}
                | None => svc
                end) a (heap w);
     probes := probes w |}.

Fixpoint Close_loop (entries : list (Z * service_ptr)) (w : World) : World :=
  match entries with
  | [] => w
  | (chainID, service) :: rest =>
      match service with
      | Some a => Close_loop rest (ERC721Service_Close a w)
      | None => Close_loop rest w
      end
  end.

(** [Close] of [Server]; [order] is the order of the range. *)
Definition Close (order : list (Z * service_ptr)) (s : Server) (w : World)
    : World :=
  Close_loop order w.

End Registry.

(** How many times the client of the service at address [a] has been
    released. *)
Definition release_count (w : World) (a : nat) : nat :=
  match heap w !! a with
  | Some svc => match client svc with Some c => closes c | None => 0%nat end
  | None => 0%nat
  end.

(** The endpoint behind the service at address [a] of a heap. *)
Definition endpoint_of (hp : list ERC721Service) (a : nat) : option string :=
  svc ← hp !! a; c ← client svc; Some (endpoint c).

(** Every registered pointer is a live service with a client: what
    [NewServer] builds. *)
Definition registry_wf (m : gmap Z service_ptr) (hp : list ERC721Service) : Prop :=
  forall k p, m !! k = Some p -> exists a e, p = Some a /\ endpoint_of hp a = Some e.

(** What the service behind [p] answers to the chain identifier query
    issued when [t] queries have been issued before. *)
Definition self_report (chain_id_reply : nat -> string -> option Z)
    (hp : list ERC721Service) (t : nat) (p : service_ptr) : option Z :=
  a ← p; e ← endpoint_of hp a; chain_id_reply t e.

(** The answer is an error, or an identifier whose [Int64] is not the
    requested one: what the discovery loop passes over. *)
Definition misses (chainID : Z) (answer : option Z) : Prop :=
  match answer with
  | None => True
  | Some id => Int64 id <> chainID
  end.

(** The addresses probed when the scan visits [entries]. *)
Definition probed (entries : list (Z * service_ptr)) : list nat :=
  omap snd entries.

(** The number of keys under which the service at [a] is registered. *)
Definition registered_keys (m : gmap Z service_ptr) (a : nat) : nat :=
  length (filter (fun kp => kp.2 = Some a) (map_to_list m)).

(** The service that [NewERC721Service] allocates for a configuration
    entry. *)
Definition service_for (c : RPCConfig) : ERC721Service :=
  {| client := Some {| endpoint := RPCURL c; closes := 0 |};
     contractAddress := ContractAddress c |}.

(** The key under which [NewServer] stores the entry configured as [k],
    when the sentinel entry self-reports [id]. *)
Definition key_of (id : Z) (k : Z) : Z := if k =? 0 then Int64 id else k.

(** ** Chain identifiers from the request path *)

Inductive NumError : Type := ErrSyntax | ErrRange.

Definition is_digit (c : ascii) : bool :=
  let n := nat_of_ascii c in (48 <=? n)%nat && (n <=? 57)%nat.

Definition digit_val (c : ascii) : Z := Z.of_nat (nat_of_ascii c) - 48.

(** [strconv.ParseUint(s, 10, 64)] after the emptiness test: digits are
    accumulated until one does not fit in 64 bits. *)
Fixpoint ParseUint_loop (s : string) (n : Z) : NumError + Z :=
  match s with
  | EmptyString => inr n
  | String c rest =>
      if is_digit c then
        if (2 ^ 64 - 1) / 10 + 1 <=? n then inl ErrRange
        else
          let n1 := n * 10 + digit_val c in
          if 2 ^ 64 - 1 <? n1 then inl ErrRange
          else ParseUint_loop rest n1
      else inl ErrSyntax
  end.

Definition ParseUint (s : string) : NumError + Z :=
  match s with
  | EmptyString => inl ErrSyntax
  | _ => ParseUint_loop s 0
  end.

(** [strconv.ParseInt(s, 10, 64)]: an optional sign, then [ParseUint],
    then the range of [int64]. *)
Definition ParseInt (s : string) : NumError + Z :=
  match s with
  | EmptyString => inl ErrSyntax
  | String c rest =>
      let neg := Ascii.eqb c "-" in
      let body := if Ascii.eqb c "+" || neg then rest else s in
      match ParseUint body with
      | inl e => inl e
      | inr un =>
          if negb neg && (2 ^ 63 <=? un) then inl ErrRange
          else if neg && (2 ^ 63 <? un) then inl ErrRange
          else inr (if neg then - un else un)
      end
  end.

(** [ParseChainID]: the error wraps the one of [ParseInt]. *)
Definition ParseChainID (chainIDStr : string) : NumError + Z :=
  match ParseInt chainIDStr with
  | inl e => inl e
  | inr chainID => inr chainID
  end.

(** The value of a string of decimal digits. *)
Definition decimal_value (s : string) : Z :=
  fold_left (fun n c => n * 10 + digit_val c) (list_ascii_of_string s) 0.

Definition all_digits (s : string) : Prop :=
  Forall (fun c => is_digit c = true) (list_ascii_of_string s).

(** ** Quantities the renderer derives from a buffer *)

Definition bmp_bpp (b : list byte) : Z := BitsPerPixel (parseInfoHeader b).
Definition bmp_width (b : list byte) : Z := Width (parseInfoHeader b).
Definition bmp_top_down (b : list byte) : bool := Height (parseInfoHeader b) <? 0.
Definition bmp_height (b : list byte) : Z := Z.abs (Height (parseInfoHeader b)).
Definition bmp_offset (b : list byte) : Z := DataOffset (parseHeader b).

(** [rowSize], in unbounded arithmetic. *)
Definition bmp_row_size (b : list byte) : Z :=
  Z.quot (bmp_width b * bmp_bpp b + 31) 32 * 4.

(** The three header checks pass. *)
Definition header_ok (b : list byte) : Prop :=
  54 <= len b /\ Signature (parseHeader b) = 0x4D42 /\
  depth_supported (bmp_bpp b) = true.

(** The stored rows in the order the outer loop visits them. *)
Definition bmp_row_order (b : list byte) : list Z :=
  if bmp_top_down b then seqZ 0 (bmp_height b)
  else reverse (seqZ 0 (bmp_height b)).

Definition bmp_banner (b : list byte) : list string :=
  [ ("  Dimensions: " +:+ fmt_d (bmp_width b) +:+ "x" +:+ fmt_d (bmp_height b)
       +:+ ", BPP: " +:+ fmt_d (bmp_bpp b) +:+ newline)%string;
    ("  Bitfield:" +:+ newline)%string ].

(** What the outer loop writes for the stored row [y] of [b]. *)
Definition bmp_row (c0 c1 c2 c3 c4 : string) (b : list byte) (y : Z)
    : option (list string) :=
  render_row
    (if bmp_bpp b =? 1 then bit_cell c0 c1 b
     else gray_cell c0 c1 c2 c3 c4 b (bmp_bpp b)
            (if bmp_bpp b =? 1 then 0 else Z.quot (bmp_bpp b) 8))
    (bmp_offset b) (bmp_row_size b) (bmp_width b) y.

(** The builder after the outer loop, or the panic of one of its turns. *)
Definition collect (rows : option (list (list string))) : outcome (list string) :=
  match rows with
  | Some rs => Ok (concat rs)
  | None => Panic
  end.

(** The stride and the required length as the design document words
    them: the row is padded up to a multiple of four bytes. *)
Definition ceil_div (a b : Z) : Z := - ((- a) / b).

Definition spec_stride (width bitDepth : Z) : Z :=
  ceil_div (width * bitDepth) 32 * 4.

Definition spec_required_length (b : list byte) : Z :=
  bmp_offset b + spec_stride (bmp_width b) (bmp_bpp b) * bmp_height b.

(** Perceptual luminance of a pixel. *)
Definition luminance (r g b : Z) : Z := (299 * r + 587 * g + 114 * b) / 1000.

(** ** Fixtures for the registry *)

(** A decidable form of [registry_wf]. *)
Definition registry_wfb (m : gmap Z service_ptr) (hp : list ERC721Service) : bool :=
  forallb (fun kp : Z * service_ptr =>
             match kp.2 with
             | Some a => match endpoint_of hp a with Some _ => true | None => false end
             | None => false
             end) (map_to_list m).

(** A two-source world: the endpoint "a" fails every query, the
    endpoint "b" reports chain 7. *)
Definition demo_reply (t : nat) (e : string) : option Z :=
  if String.eqb e "b" then Some 7 else None.

Definition demo_heap : list ERC721Service :=
  [ service_for {| RPCURL := "a"; ContractAddress := "0xa" |};
    service_for {| RPCURL := "b"; ContractAddress := "0xb" |} ].

Definition demo_server : Server :=
  {| services := {[ 1 := Some 0%nat; 2 := Some 1%nat ]};
     config := {| RPCConfigs := ∅; AddressPort := ":8080" |} |}.

Definition demo_world : World := {| heap := demo_heap; probes := [] |}.

(** ** Further quantities of the renderer *)

(** The tokens a cell may write at a bit depth: the first two for one
    bit per pixel, all five otherwise. *)
Definition palette_at_depth (c0 c1 c2 c3 c4 : string) (bpp : Z) : list string :=
  if bpp =? 1 then [c0; c1] else [c0; c1; c2; c3; c4].


(** Whether rendering a row of [width] pixels reads byte [j] of the
    row: the packed bits, the brightness bytes, the three colour bytes
    of every pixel; never the padding, never the fourth byte of a 32-bit
    pixel, nothing at four bits per pixel. *)
Definition row_byte_read (bpp width j : Z) : bool :=
  if bpp =? 1 then j <? Z.quot (width + 7) 8
  else if bpp =? 8 then j <? width
  else if bpp =? 24 then j <? 3 * width
  else if bpp =? 32 then (j <? 4 * width) && negb (Z.rem j 4 =? 3)
  else false.

(** ** Further quantities of the registry *)

(** The number of sentinel entries the range of [NewServer] visits. *)
Definition sentinel_count (entries : list (Z * RPCConfig)) : nat :=
  length (filter (fun kc : Z * RPCConfig => kc.1 = 0) entries).

(** ** Configuration from the environment *)

(** [strings.SplitN(s, "=", 2)]: the text before and after the first
    ["="], or [None] when there is none and the result has one part. *)
Fixpoint SplitN2 (s : string) : option (string * string) :=
  match s with
  | EmptyString => None
  | String c rest =>
      if Ascii.eqb c "=" then Some (EmptyString, rest)
      else match SplitN2 rest with
           | Some (key, value) => Some (String c key, value)
           | None => None
           end
  end.

Inductive ConfigError : Type :=
| ContractAddressRequired (chainIDStr : string)
    (* "CONTRACT_ADDRESS_%s is required when RPC_URL_%s is set" *)
| RPCSettingsRequired.
    (* "either RPC_URL_<CHAIN_ID> and CONTRACT_ADDRESS_<CHAIN_ID> pairs, or ..." *)

Section Environment.

(** The process environment once [godotenv.Load] has run: what
    [os.Environ] lists and what [os.Getenv] answers (the empty string
    for an unset variable). *)
Variable Environ : list string.
Variable Getenv : string -> string.

(** The scan of [LoadConfig] over the environment. *)
Fixpoint LoadConfig_loop (envs : list string) (rpcConfigs : gmap Z RPCConfig)
    : ConfigError + gmap Z RPCConfig :=
  match envs with
  | [] => inr rpcConfigs
  | env :: rest =>
      match SplitN2 env with
      | None => LoadConfig_loop rest rpcConfigs
      | Some (key, value) =>
          if String.prefix "RPC_URL_" key then
            let chainIDStr := trim_prefix "RPC_URL_" key in
            match ParseInt chainIDStr with
            | inl _ => LoadConfig_loop rest rpcConfigs
            | inr chainID =>
                let contractKey := ("CONTRACT_ADDRESS_" +:+ chainIDStr)%string in
                let contractAddress := Getenv contractKey in
                if String.eqb contractAddress EmptyString
                then inl (ContractAddressRequired chainIDStr)
                else
                  LoadConfig_loop rest
                    (<[chainID := {| RPCURL := value;
                                     ContractAddress := contractAddress |}]> rpcConfigs)
            end
          else LoadConfig_loop rest rpcConfigs
      end
  end.

Definition LoadConfig : ConfigError + Config :=
  match LoadConfig_loop Environ ∅ with
  | inl e => inl e
  | inr rpcConfigs =>
      let fallback :=
        if (size rpcConfigs =? 0)%nat then
          let rpcURL := Getenv "RPC_URL" in
          let contractAddress := Getenv "CONTRACT_ADDRESS" in
          if String.eqb rpcURL EmptyString || String.eqb contractAddress EmptyString
          then inl RPCSettingsRequired
          else inr (<[0 := {| RPCURL := rpcURL;
                              ContractAddress := contractAddress |}]> rpcConfigs)
        else inr rpcConfigs in
      match fallback with
      | inl e => inl e
      | inr rpcConfigs =>
          let port := Getenv "PORT" in
          let port := if String.eqb port EmptyString then ":8080"%string else port in
          inr {| RPCConfigs := rpcConfigs; AddressPort := port |}
      end
  end.

End Environment.

(** An entry of the environment that configures a chain: its name is
    ["RPC_URL_"] followed by a text that [ParseInt] accepts.  The result
    is that text, the identifier and the value. *)
Definition chain_entry (env : string) : option (string * Z * string) :=
  match SplitN2 env with
  | Some (key, value) =>
      if String.prefix "RPC_URL_" key then
        match ParseInt (trim_prefix "RPC_URL_" key) with
        | inr chainID => Some (trim_prefix "RPC_URL_" key, chainID, value)
        | inl _ => None
        end
      else None
  | None => None
  end.

(** ** The text page *)

(** [ERC721Metadata], as far as the page shows it.  [Properties] is
    the map in the order the range visits it, every value as [%v]
    prints it.  [Attributes] is decoded and never printed. *)
Record ERC721Metadata : Type := {
  Name : string;
  Description : string;
  Image : string;
  ExternalURL : string;
  Properties : list (string * string)
}.

Section Formatter.

Variable base64_decode : string -> option (list byte).

(** [FormatMetadataAsText].  The builder is the list of the strings
    written so far; a panic of the decoder unwinds through the
    function. *)
Definition FormatMetadataAsText (metadata : ERC721Metadata) (chainID : Z)
    (tokenID : string) (c0 c1 c2 c3 c4 : string) : outcome string :=
  let sb := [ ("ERC721 Token Metadata" +:+ newline)%string;
              ("====================" +:+ newline +:+ newline)%string;
              ("Chain ID: " +:+ fmt_d chainID +:+ newline)%string;
              ("Token ID: " +:+ tokenID +:+ newline +:+ newline)%string ] in
  let sb := if negb (String.eqb (Name metadata) EmptyString)
            then sb ++ [("Name: " +:+ Name metadata +:+ newline)%string]
            else sb in
  let sb := if negb (String.eqb (Description metadata) EmptyString)
            then sb ++ [("Description: " +:+ Description metadata +:+ newline)%string]
            else sb in
  let image : outcome (list string) :=
    if negb (String.eqb (Image metadata) EmptyString) then
      if String.prefix "data:image/bmp;base64," (Image metadata) then
        match decodeBMPToBitfield c0 c1 c2 c3 c4 base64_decode (Image metadata) with
        | Ok bitfield =>
            Ok (sb ++ [("Image (BMP Bitfield):" +:+ newline +:+ bitfield +:+ newline)%string])
        | Err _ => Ok (sb ++ [("Image: " +:+ Image metadata +:+ newline)%string])
        | Panic => Panic
        | OutOfFuel => OutOfFuel
        end
      else Ok (sb ++ [("Image: " +:+ Image metadata +:+ newline)%string])
    else Ok sb in
  match image with
  | Ok sb =>
      let external : outcome (list string) :=
        if negb (String.eqb (ExternalURL metadata) EmptyString) then
          if String.prefix "data:image/bmp;base64," (ExternalURL metadata) then
            match decodeBMPToBitfield c0 c1 c2 c3 c4 base64_decode (ExternalURL metadata) with
            | Ok bitfield =>
                Ok (sb ++ [("External URL (BMP Bitfield):" +:+ newline +:+ bitfield
                              +:+ newline)%string])
            | Err _ =>
                Ok (sb ++ [("External URL: " +:+ ExternalURL metadata +:+ newline)%string])
            | Panic => Panic
            | OutOfFuel => OutOfFuel
            end
          else Ok (sb ++ [("External URL: " +:+ ExternalURL metadata +:+ newline)%string])
        else Ok sb in
      match external with
      | Ok sb =>
          let sb :=
            if 0 <? len (Properties metadata) then
              (sb ++ [(newline +:+ "Properties:" +:+ newline)%string])
                ++ ((fun kv : string * string =>
                       ("  - " +:+ kv.1 +:+ ": " +:+ kv.2 +:+ newline)%string)
                      <$> Properties metadata)
            else sb in
          Ok (builder_string sb)
      | Err e => Err e
      | Panic => Panic
      | OutOfFuel => OutOfFuel
      end
  | Err e => Err e
  | Panic => Panic
  | OutOfFuel => OutOfFuel
  end.

End Formatter.

(** The lines that an image field adds to the page: none when the
    field is empty, the rendering when it decodes, the field itself when
    decoding fails. *)
Definition field_lines (c0 c1 c2 c3 c4 : string)
    (base64_decode : string -> option (list byte)) (label field : string)
    : outcome (list string) :=
  if String.eqb field EmptyString then Ok []
  else
    match decodeBMPToBitfield c0 c1 c2 c3 c4 base64_decode field with
    | Ok bitfield =>
        Ok [(label +:+ " (BMP Bitfield):" +:+ newline +:+ bitfield +:+ newline)%string]
    | Err _ => Ok [(label +:+ ": " +:+ field +:+ newline)%string]
    | Panic => Panic
    | OutOfFuel => OutOfFuel
    end.

(** The lines of the page that do not depend on the image fields. *)
Definition page_head (metadata : ERC721Metadata) (chainID : Z) (tokenID : string)
    : list string :=
  [ ("ERC721 Token Metadata" +:+ newline)%string;
    ("====================" +:+ newline +:+ newline)%string;
    ("Chain ID: " +:+ fmt_d chainID +:+ newline)%string;
    ("Token ID: " +:+ tokenID +:+ newline +:+ newline)%string ]
  ++ (if String.eqb (Name metadata) EmptyString then []
      else [("Name: " +:+ Name metadata +:+ newline)%string])
  ++ (if String.eqb (Description metadata) EmptyString then []
      else [("Description: " +:+ Description metadata +:+ newline)%string]).

Definition page_tail (metadata : ERC721Metadata) : list string :=
  match Properties metadata with
  | [] => []
  | _ => (newline +:+ "Properties:" +:+ newline)%string
         :: ((fun kv : string * string =>
                ("  - " +:+ kv.1 +:+ ": " +:+ kv.2 +:+ newline)%string)
               <$> Properties metadata)
  end.

(** ** Where the metadata is fetched from *)

(** [strings.Replace(s, old, new, 1)] for a non-empty [old]: the first
    occurrence is replaced. *)
Fixpoint Replace1 (s old new : string) : string :=
  if String.prefix old s then (new +:+ trim_prefix old s)%string
  else match s with
       | EmptyString => EmptyString
       | String c rest => String c (Replace1 rest old new)
       end.

(** What [fetchMetadataFromURI] does with a token URI before any
    input or output: it decodes the URI itself, or requests a URL. *)
Inductive MetadataSource : Type :=
| FromDataURI (dataURI : string)
| FromHTTP (url : string).

Definition metadata_source (uri : string) : MetadataSource :=
  if String.prefix "data:application/json;base64," uri then FromDataURI uri
  else
    let uri :=
      if String.prefix "ipfs://" uri
      then Replace1 uri "ipfs://" "https://ipfs.io/ipfs/"
      else if String.prefix "ipfs/" uri
           then ("https://ipfs.io/" +:+ uri)%string
           else uri in
    FromHTTP uri.

(** ** The request handler *)

(** [strings.TrimPrefix] *)
Definition TrimPrefix (s p : string) : string :=
  if String.prefix p s then trim_prefix p s else s.

(** [strings.Split] on a separator of one byte: the parts between the
    separators, at least one. *)
Fixpoint Split (s : string) (sep : ascii) : list string :=
  match s with
  | EmptyString => [EmptyString]
  | String c rest =>
      if Ascii.eqb c sep then EmptyString :: Split rest sep
      else match Split rest sep with
           | part :: parts => String c part :: parts
           | [] => [String c EmptyString]
           end
  end.

(** [ParseTokenID]: [None] is its error. *)
Definition ParseTokenID (tokenIDStr : string) : option string :=
  if String.eqb tokenIDStr EmptyString then None else Some tokenIDStr.

Definition ishex (c : ascii) : bool :=
  let n := nat_of_ascii c in
  ((48 <=? n) && (n <=? 57) || (97 <=? n) && (n <=? 102) || (65 <=? n) && (n <=? 70))%nat.

Definition unhex (c : ascii) : nat :=
  let n := nat_of_ascii c in
  if ((48 <=? n) && (n <=? 57))%nat then (n - 48)%nat
  else if ((97 <=? n) && (n <=? 102))%nat then (n - 97 + 10)%nat
  else if ((65 <=? n) && (n <=? 70))%nat then (n - 65 + 10)%nat
  else 0%nat.

(** [url.QueryUnescape]: a percent sign and two hexadecimal digits
    are one byte, a plus sign is a space; a percent sign followed by
    anything else is the error [None]. *)
Fixpoint QueryUnescape (s : string) : option string :=
  match s with
  | EmptyString => Some EmptyString
  | String c rest =>
      if Ascii.eqb c "%" then
        match rest with
        | String h (String l rest') =>
            if ishex h && ishex l then
              match QueryUnescape rest' with
              | Some t => Some (String (ascii_of_nat (unhex h * 16 + unhex l)) t)
              | None => None
              end
            else None
        | _ => None
        end
      else
        match QueryUnescape rest with
        | Some t => Some (String (if Ascii.eqb c "+" then " "%char else c) t)
        | None => None
        end
  end.

(** The default palette, light to dark: a space and the block
    characters U+2591, U+2592, U+2593 and U+2588 in UTF-8. *)
Definition block (last : nat) : string :=
  String (ascii_of_nat 226) (String (ascii_of_nat 150) (String (ascii_of_nat last) EmptyString)).

Definition defaultChars : list string :=
  [" "%string; block 145; block 146; block 147; block 136].

Inductive RequestError : Type :=
| InvalidPath                      (* "Invalid path. Expected format: /CHAIN_ID/TOKEN_ID" *)
| InvalidChainID (e : NumError)    (* "Invalid chain ID: ..." *)
| InvalidTokenID                   (* "Invalid token ID: ..." *)
| NoService (e : ServerError).     (* "Failed to get RPC service for chain ID ..." *)

(** What the handler writes, or the panic that unwinds it. *)
Inductive Response : Type :=
| BadRequest (why : RequestError)
| InternalServerError
| OKText (text : string)
| HandlerPanic.

Definition StatusCode (r : Response) : option Z :=
  match r with
  | BadRequest _ => Some 400
  | InternalServerError => Some 500
  | OKText _ => Some 200
  | HandlerPanic => None
  end.

(** The answer of [GetTokenMetadata]: the calls to the contract and to
    the metadata host are the network's. *)
Inductive Fetched : Type :=
| FetchedMetadata (metadata : ERC721Metadata)
| FetchFailed
| FetchPanic.

Section Handler.

Variable chain_id_reply : nat -> string -> option Z.
Variable base64_decode : string -> option (list byte).
Variable GetTokenMetadata : service_ptr -> string -> Fetched.

(** The loop over [c0] to [c4]; [Query] is [r.URL.Query().Get]. *)
Definition query_char (Query : string -> string) (i : nat) : string :=
  let paramName := ("c" +:+ fmt_d (Z.of_nat i))%string in
  let char := Query paramName in
  if String.eqb char EmptyString then nth i defaultChars EmptyString
  else
    match QueryUnescape char with
    | Some decoded => decoded
    | None => nth i defaultChars EmptyString
    end.

(** [handleToken]; [order] is the order in which the discovery loop
    ranges over the registry, should it run. *)
Definition handleToken (order : list (Z * service_ptr)) (s : Server) (w : World)
    (Path : string) (Query : string -> string) : Response * Server * World :=
  let path := TrimPrefix Path "/" in
  let parts := Split path "/" in
  match parts with
  | [chainIDStr; tokenIDStr] =>
      match ParseChainID chainIDStr with
      | inl e => (BadRequest (InvalidChainID e), s, w)
      | inr chainID =>
          match ParseTokenID tokenIDStr with
          | None => (BadRequest InvalidTokenID, s, w)
          | Some tokenID =>
              let chars := query_char Query <$> seq 0 5 in
              match getServiceForChainID chain_id_reply order s w chainID with
              | (Failure e, s', w') => (BadRequest (NoService e), s', w')
              | (NilPanic, s', w') => (HandlerPanic, s', w')
              | (Success service, s', w') =>
                  match GetTokenMetadata service tokenID with
                  | FetchFailed => (InternalServerError, s', w')
                  | FetchPanic => (HandlerPanic, s', w')
                  | FetchedMetadata metadata =>
                      match FormatMetadataAsText base64_decode metadata chainID tokenID
                              (nth 0 chars EmptyString) (nth 1 chars EmptyString)
                              (nth 2 chars EmptyString) (nth 3 chars EmptyString)
                              (nth 4 chars EmptyString) with
                      | Ok text => (OKText text, s', w')
                      | _ => (HandlerPanic, s', w')
                      end
                  end
              end
          end
      end
  | _ => (BadRequest InvalidPath, s, w)
  end.

End Handler.

(** A request as the server meets it: its path and query, what the
    network answers to the metadata calls made for it, and the order of
    the range while it is served. *)
Record Request : Type := {
  req_path : string;
  req_query : string -> string;
  req_fetch : service_ptr -> string -> Fetched;
  req_order : list (Z * service_ptr)
}.

(** The server after a sequence of requests, served one after the
    other; every range visits the registry as it is then. *)
Inductive serves (chain_id_reply : nat -> string -> option Z)
    (base64_decode : string -> option (list byte))
    : Server * World -> list (Request * Response) -> Server * World -> Prop :=
| serves_nil st : serves chain_id_reply base64_decode st [] st
| serves_cons s w r resp s' w' log st'' :
    req_order r ≡ₚ map_to_list (services s) ->
    handleToken chain_id_reply base64_decode (req_fetch r)
      (req_order r) s w (req_path r) (req_query r) = (resp, s', w') ->
    serves chain_id_reply base64_decode (s', w') log st'' ->
    serves chain_id_reply base64_decode (s, w) ((r, resp) :: log) st''.

(** The paths the handler takes to the registry: after one optional
    leading slash, a chain identifier that parses, one slash, and a
    token identifier that is not empty and has no slash. *)
Definition well_formed_path (Path : string) : Prop :=
  exists chainIDStr tokenIDStr chainID,
    TrimPrefix Path "/" = (chainIDStr +:+ "/" +:+ tokenIDStr)%string /\
    ("/"%char ∉ list_ascii_of_string chainIDStr) /\
    ("/"%char ∉ list_ascii_of_string tokenIDStr) /\
    tokenIDStr <> EmptyString /\
    ParseChainID chainIDStr = inr chainID.

(** The three answers given before the registry is consulted. *)
Definition rejected_by_validation (r : Response) : Prop :=
  match r with
  | BadRequest InvalidPath => True
  | BadRequest (InvalidChainID _) => True
  | BadRequest InvalidTokenID => True
  | _ => False
  end.

(** * Properties *)

(** ** Machine integers and header fields *)

Lemma wrap64_id z : GoInt.in_range z -> GoInt.wrap64 z = z.
Proof.
  unfold GoInt.in_range, GoInt.wrap64. intros H.
  rewrite Z.mod_small by lia. lia.
Qed.

Lemma add_id a b : GoInt.in_range (a + b) -> GoInt.add a b = a + b.
Proof. apply wrap64_id. Qed.

Lemma mul_id a b : GoInt.in_range (a * b) -> GoInt.mul a b = a * b.
Proof. apply wrap64_id. Qed.

Lemma neg_id a : GoInt.in_range (- a) -> GoInt.neg a = - a.
Proof. apply wrap64_id. Qed.

(** The side condition of [add_id], [mul_id] and [neg_id]: the exact
    result fits the 64-bit [int]. *)
Ltac fits := unfold GoInt.in_range; lia.
Ltac fits_nl := unfold GoInt.in_range; nia.

Lemma byte_val_range b : 0 <= byte_val b < 256.
Proof.
  unfold byte_val. pose proof (Byte.to_N_bounded b). lia.
Qed.

Lemma lor_bound n a b :
  0 <= n -> 0 <= a < 2 ^ n -> 0 <= b < 2 ^ n -> 0 <= Z.lor a b < 2 ^ n.
Proof.
  intros Hn Ha Hb.
  assert (H0 : 0 <= Z.lor a b) by (apply Z.lor_nonneg; lia).
  split; [exact H0|].
  destruct (Z.eq_dec (Z.lor a b) 0) as [E|E].
  - rewrite E. apply Z.pow_pos_nonneg; lia.
  - apply Z.log2_lt_pow2; [lia|].
    rewrite Z.log2_lor by lia.
    destruct (Z.eq_dec a 0) as [->|Na]; destruct (Z.eq_dec b 0) as [->|Nb].
    + exfalso. apply E. reflexivity.
    + rewrite Z.max_r by (simpl; apply Z.log2_nonneg).
      apply Z.log2_lt_pow2; lia.
    + rewrite Z.max_l by (simpl; apply Z.log2_nonneg).
      apply Z.log2_lt_pow2; lia.
    + apply Z.max_lub_lt; apply Z.log2_lt_pow2; lia.
Qed.

Lemma shiftl_byte_bound v k n :
  0 <= k -> k + 8 <= n -> 0 <= v < 256 -> 0 <= Z.shiftl v k < 2 ^ n.
Proof.
  intros Hk Hn Hv. rewrite Z.shiftl_mul_pow2 by lia.
  assert (0 < 2 ^ k) by (apply Z.pow_pos_nonneg; lia).
  assert (2 ^ (k + 8) <= 2 ^ n) by (apply Z.pow_le_mono_r; lia).
  rewrite Z.pow_add_r in * by lia.
  change (2 ^ 8) with 256 in *. nia.
Qed.

Lemma Uint16_range b : 0 <= Uint16 b < 2 ^ 16.
Proof.
  unfold Uint16, byte_at. apply lor_bound; [lia| |].
  - pose proof (byte_val_range (nth 0 b x00)). lia.
  - apply shiftl_byte_bound; [lia|lia|apply byte_val_range].
Qed.

Lemma Uint32_range b : 0 <= Uint32 b < 2 ^ 32.
Proof.
  unfold Uint32, byte_at.
  repeat (apply lor_bound; [lia| |]);
    try (apply shiftl_byte_bound; [lia|lia|apply byte_val_range]).
  pose proof (byte_val_range (nth 0 b x00)). lia.
Qed.

Lemma int32_range u :
  0 <= u < 2 ^ 32 -> - 2 ^ 31 <= GoInt.int32_of_uint32 u < 2 ^ 31.
Proof.
  unfold GoInt.int32_of_uint32. intros H.
  destruct (Z.ltb_spec u (2 ^ 31)); lia.
Qed.

Lemma bmp_width_range b : - 2 ^ 31 <= bmp_width b < 2 ^ 31.
Proof. apply int32_range, Uint32_range. Qed.

Lemma bmp_height_range b : 0 <= bmp_height b <= 2 ^ 31.
Proof.
  unfold bmp_height. simpl.
  pose proof (int32_range _ (Uint32_range (slice b 22 26))). lia.
Qed.

Lemma bmp_offset_range b : 0 <= bmp_offset b < 2 ^ 32.
Proof. apply Uint32_range. Qed.

Lemma bmp_bpp_range b : 0 <= bmp_bpp b < 2 ^ 16.
Proof. apply Uint16_range. Qed.

Lemma depth_supported_cases bpp :
  depth_supported bpp = true <->
  bpp = 1 \/ bpp = 4 \/ bpp = 8 \/ bpp = 24 \/ bpp = 32.
Proof.
  unfold depth_supported.
  rewrite !orb_true_iff, !Z.eqb_eq. tauto.
Qed.

(** ** The outer loop *)

Lemma for_rows_up body n y :
  0 <= y -> y + Z.of_nat n < 2 ^ 63 ->
  for_rows n body y (y + Z.of_nat n) 1 = collect (mapM body (seqZ y (Z.of_nat n))).
Proof.
  revert y. induction n as [|n IH]; intros y Hy Hn.
  - simpl. rewrite Z.add_0_r, Z.eqb_refl. reflexivity.
  - cbn [for_rows].
    destruct (Z.eqb_spec y (y + Z.of_nat (S n))) as [E|_]; [lia|].
    rewrite seqZ_cons by lia. cbn [mapM].
    destruct (body y) as [chunks|]; [|reflexivity]. cbn [mbind option_bind].
    rewrite add_id by fits.
    replace (y + Z.of_nat (S n)) with (y + 1 + Z.of_nat n) by lia.
    rewrite IH by lia.
    replace (Z.pred (Z.of_nat (S n))) with (Z.of_nat n) by lia.
    replace (Z.succ y) with (y + 1) by lia.
    destruct (mapM body (seqZ (y + 1) (Z.of_nat n))); reflexivity.
Qed.

Lemma for_rows_down body n :
  Z.of_nat n < 2 ^ 63 ->
  for_rows n body (Z.of_nat n - 1) (-1) (-1)
  = collect (mapM body (reverse (seqZ 0 (Z.of_nat n)))).
Proof.
  induction n as [|n IH]; intros Hn.
  - reflexivity.
  - cbn [for_rows].
    destruct (Z.eqb_spec (Z.of_nat (S n) - 1) (-1)) as [E|_]; [lia|].
    rewrite seqZ_S, reverse_snoc. cbn [mapM].
    replace (Z.of_nat (S n) - 1) with (Z.of_nat n) by lia. rewrite Z.add_0_l.
    destruct (body (Z.of_nat n)) as [chunks|]; [|reflexivity].
    cbn [mbind option_bind].
    rewrite add_id by fits.
    replace (Z.of_nat n + -1) with (Z.of_nat n - 1) by lia.
    rewrite IH by lia.
    destruct (mapM body (reverse (seqZ 0 (Z.of_nat n)))); reflexivity.
Qed.

(** ** The decoder after the header checks *)

Lemma row_size_no_wrap b :
  GoInt.mul (Z.quot (GoInt.add (GoInt.mul (bmp_width b) (bmp_bpp b)) 31) 32) 4
  = bmp_row_size b.
Proof.
  pose proof (bmp_width_range b) as Hw. pose proof (bmp_bpp_range b) as Hb.
  unfold bmp_row_size.
  assert (Hp : - 2 ^ 47 <= bmp_width b * bmp_bpp b <= 2 ^ 47) by nia.
  rewrite (mul_id (bmp_width b)) by fits.
  rewrite add_id by fits.
  apply mul_id. unfold GoInt.in_range.
  Z.to_euclidean_division_equations. lia.
Qed.

Lemma height_no_wrap b :
  (if bmp_top_down b then GoInt.neg (Height (parseInfoHeader b))
   else Height (parseInfoHeader b)) = bmp_height b.
Proof.
  pose proof (bmp_height_range b) as Hh. unfold bmp_top_down, bmp_height in *.
  destruct (Z.ltb_spec (Height (parseInfoHeader b)) 0).
  - rewrite neg_id by fits. lia.
  - lia.
Qed.

Lemma decodeBMPData_unfold c0 c1 c2 c3 c4 b :
  header_ok b ->
  decodeBMPData c0 c1 c2 c3 c4 b =
    if len b <? GoInt.add (bmp_offset b) (GoInt.mul (bmp_row_size b) (bmp_height b))
    then Err TruncatedData
    else match collect (mapM (bmp_row c0 c1 c2 c3 c4 b) (bmp_row_order b)) with
         | Ok rows => Ok (bmp_banner b ++ rows)
         | other => other
         end.
Proof.
  intros (Hlen & Hsig & Hd).
  pose proof (bmp_height_range b) as Hh.
  unfold decodeBMPData.
  destruct (Z.ltb_spec (len b) 54) as [|_]; [lia|].
  rewrite Hsig, Z.eqb_refl. cbn [negb].
  change (BitsPerPixel (parseInfoHeader b)) with (bmp_bpp b).
  rewrite Hd. cbn [negb]. cbv zeta.
  change (Width (parseInfoHeader b)) with (bmp_width b).
  change (Height (parseInfoHeader b) <? 0) with (bmp_top_down b).
  change (DataOffset (parseHeader b)) with (bmp_offset b).
  rewrite height_no_wrap, row_size_no_wrap.
  destruct (len b <? GoInt.add (bmp_offset b) (GoInt.mul (bmp_row_size b) (bmp_height b)));
    [reflexivity|].
  change (render_row _ (bmp_offset b) (bmp_row_size b) (bmp_width b))
    with (bmp_row c0 c1 c2 c3 c4 b).
  unfold bmp_row_order.
  destruct (bmp_top_down b).
  - replace (for_rows _ _ 0 (bmp_height b) 1)
      with (for_rows (Z.to_nat (bmp_height b)) (bmp_row c0 c1 c2 c3 c4 b) 0
              (0 + Z.of_nat (Z.to_nat (bmp_height b))) 1)
      by (f_equal; lia).
    rewrite for_rows_up by lia. rewrite Z2Nat.id by lia. reflexivity.
  - rewrite add_id by fits.
    replace (bmp_height b + -1) with (Z.of_nat (Z.to_nat (bmp_height b)) - 1) by lia.
    rewrite for_rows_down by lia. rewrite Z2Nat.id by lia. reflexivity.
Qed.

(** The outer loop always reaches its end: the fuel is never exhausted. *)
Lemma decodeBMPData_terminates c0 c1 c2 c3 c4 b :
  decodeBMPData c0 c1 c2 c3 c4 b <> OutOfFuel.
Proof.
  destruct (Z.ltb_spec (len b) 54) as [Hs|Hl].
  { unfold decodeBMPData. destruct (Z.ltb_spec (len b) 54); [discriminate|lia]. }
  destruct (Z.eqb_spec (Signature (parseHeader b)) 0x4D42) as [Hsig|Hsig].
  2:{ unfold decodeBMPData. destruct (Z.ltb_spec (len b) 54); [lia|].
      destruct (Z.eqb_spec (Signature (parseHeader b)) 0x4D42); [contradiction|].
      discriminate. }
  destruct (depth_supported (bmp_bpp b)) eqn:Hd.
  2:{ unfold decodeBMPData. destruct (Z.ltb_spec (len b) 54); [lia|].
      rewrite Hsig, Z.eqb_refl. cbn [negb].
      change (BitsPerPixel (parseInfoHeader b)) with (bmp_bpp b).
      rewrite Hd. discriminate. }
  rewrite decodeBMPData_unfold by (repeat split; assumption).
  destruct (len b <? _); [discriminate|].
  destruct (mapM _ _); discriminate.
Qed.

(** ** Little-endian fields, byte by byte *)

Lemma lor_shiftl_add a v k :
  0 <= k -> 0 <= a < 2 ^ k -> Z.lor a (Z.shiftl v k) = a + v * 2 ^ k.
Proof.
  intros Hk Ha. symmetry. rewrite <- Z.shiftl_mul_pow2 by lia.
  apply Z.add_nocarry_lor. apply Z.bits_inj'. intros n Hn.
  rewrite Z.land_spec, Z.bits_0.
  destruct (Z.lt_ge_cases n k) as [Hlt|Hge].
  - rewrite Z.shiftl_spec_low by lia. apply andb_false_r.
  - assert (Hb : Z.testbit a n = false)
      by (apply (proj1 (Z.bounded_iff_bits_nonneg k a Hk (proj1 Ha)) (proj2 Ha)); lia).
    rewrite Hb. reflexivity.
Qed.

Lemma Uint16_bytes b : Uint16 b = byte_at b 0 + 256 * byte_at b 1.
Proof.
  unfold Uint16, byte_at.
  pose proof (byte_val_range (nth 0 b x00)).
  rewrite lor_shiftl_add by lia. lia.
Qed.

Lemma Uint32_bytes b :
  Uint32 b = byte_at b 0 + 2 ^ 8 * byte_at b 1 + 2 ^ 16 * byte_at b 2
             + 2 ^ 24 * byte_at b 3.
Proof.
  unfold Uint32, byte_at.
  pose proof (byte_val_range (nth 0 b x00)).
  pose proof (byte_val_range (nth 1 b x00)).
  pose proof (byte_val_range (nth 2 b x00)).
  rewrite (lor_shiftl_add _ _ 8) by lia.
  rewrite (lor_shiftl_add _ _ 16) by lia.
  rewrite (lor_shiftl_add _ _ 24) by lia. lia.
Qed.

Lemma byte_at_slice b lo hi i :
  (i < hi - lo)%nat -> byte_at (slice b lo hi) i = byte_at b (lo + i).
Proof.
  intros Hi. unfold byte_at, slice. rewrite nth_firstn.
  destruct (Nat.ltb_spec i (hi - lo)); [|lia].
  rewrite nth_skipn. reflexivity.
Qed.

Lemma Signature_bytes b :
  Signature (parseHeader b) = byte_at b 0 + 256 * byte_at b 1.
Proof.
  cbn [parseHeader Signature]. rewrite Uint16_bytes.
  rewrite !byte_at_slice by lia. reflexivity.
Qed.

Lemma bmp_bpp_bytes b : bmp_bpp b = byte_at b 28 + 256 * byte_at b 29.
Proof.
  unfold bmp_bpp. cbn [parseInfoHeader BitsPerPixel]. rewrite Uint16_bytes.
  rewrite !byte_at_slice by lia. reflexivity.
Qed.

(** ** Structural validation *)

Lemma decode_too_short c0 c1 c2 c3 c4 b :
  len b < 54 -> decodeBMPData c0 c1 c2 c3 c4 b = Err TooShort.
Proof.
  intros Hs. unfold decodeBMPData.
  destruct (Z.ltb_spec (len b) 54); [reflexivity|lia].
Qed.

Lemma decode_bad_signature c0 c1 c2 c3 c4 b :
  54 <= len b -> Signature (parseHeader b) <> 0x4D42 ->
  decodeBMPData c0 c1 c2 c3 c4 b = Err BadSignature.
Proof.
  intros Hl Hsig. unfold decodeBMPData.
  destruct (Z.ltb_spec (len b) 54); [lia|].
  destruct (Z.eqb_spec (Signature (parseHeader b)) 0x4D42); [contradiction|].
  reflexivity.
Qed.

Lemma decode_unsupported_depth c0 c1 c2 c3 c4 b :
  54 <= len b -> Signature (parseHeader b) = 0x4D42 ->
  depth_supported (bmp_bpp b) = false ->
  decodeBMPData c0 c1 c2 c3 c4 b = Err (UnsupportedDepth (bmp_bpp b)).
Proof.
  intros Hl Hsig Hd. unfold decodeBMPData.
  destruct (Z.ltb_spec (len b) 54); [lia|].
  rewrite Hsig, Z.eqb_refl. cbn [negb].
  change (BitsPerPixel (parseInfoHeader b)) with (bmp_bpp b).
  rewrite Hd. reflexivity.
Qed.

(** C6. A buffer shorter than 54 bytes fails as [TooShort]; a buffer of
    at least 54 bytes whose first two bytes, read little-endian, are not
    0x4D42 fails as [BadSignature]; a buffer that passes both checks and
    declares a bit depth outside 1, 4, 8, 24, 32 fails as
    [UnsupportedDepth].  An error outcome carries no rendered output. *)
Theorem structural_validation_errors c0 c1 c2 c3 c4 (b : list byte) :
  (len b < 54 -> decodeBMPData c0 c1 c2 c3 c4 b = Err TooShort) /\
  (54 <= len b -> byte_at b 0 + 256 * byte_at b 1 <> 0x4D42 ->
   decodeBMPData c0 c1 c2 c3 c4 b = Err BadSignature) /\
  (54 <= len b -> byte_at b 0 + 256 * byte_at b 1 = 0x4D42 ->
   bmp_bpp b <> 1 -> bmp_bpp b <> 4 -> bmp_bpp b <> 8 ->
   bmp_bpp b <> 24 -> bmp_bpp b <> 32 ->
   decodeBMPData c0 c1 c2 c3 c4 b = Err (UnsupportedDepth (bmp_bpp b))).
Proof.
  repeat split.
  - apply decode_too_short.
  - intros Hl Hsig. apply decode_bad_signature; [exact Hl|].
    rewrite Signature_bytes. exact Hsig.
  - intros Hl Hsig H1 H4 H8 H24 H32.
    apply decode_unsupported_depth; [exact Hl|rewrite Signature_bytes; exact Hsig|].
    destruct (depth_supported (bmp_bpp b)) eqn:Hd; [|reflexivity].
    apply depth_supported_cases in Hd. lia.
Qed.

Lemma structural_validation_errors_witness :
  decodeBMPData "a" "b" "c" "d" "e" (replicate 53 x00) = Err TooShort /\
  decodeBMPData "a" "b" "c" "d" "e" (mk_bmp 0x4D43 54 1 1 24 [x00; x00; x00; x00])
    = Err BadSignature /\
  decodeBMPData "a" "b" "c" "d" "e" (mk_bmp 0x4D42 54 1 1 16 [x00; x00; x00; x00])
    = Err (UnsupportedDepth 16).
Proof.
  split; [|split].
  - apply (proj1 (structural_validation_errors "a" "b" "c" "d" "e" (replicate 53 x00))).
    vm_compute. reflexivity.
  - apply (proj1 (proj2 (structural_validation_errors "a" "b" "c" "d" "e"
                           (mk_bmp 0x4D43 54 1 1 24 [x00; x00; x00; x00])))).
    + vm_compute. discriminate.
    + vm_compute. discriminate.
  - apply (proj2 (proj2 (structural_validation_errors "a" "b" "c" "d" "e"
                           (mk_bmp 0x4D42 54 1 1 16 [x00; x00; x00; x00]))));
      vm_compute; first [reflexivity | discriminate].
Defined.

(** ** Buffers that pass the checks *)

Lemma no_error_header_ok c0 c1 c2 c3 c4 b :
  (forall e, decodeBMPData c0 c1 c2 c3 c4 b <> Err e) ->
  header_ok b /\
  (len b <? GoInt.add (bmp_offset b) (GoInt.mul (bmp_row_size b) (bmp_height b)))
    = false.
Proof.
  intros Hne.
  assert (Hl : 54 <= len b).
  { destruct (Z.lt_ge_cases (len b) 54) as [H|H]; [|exact H].
    exfalso. exact (Hne _ (decode_too_short c0 c1 c2 c3 c4 b H)). }
  assert (Hg : Signature (parseHeader b) = 0x4D42).
  { destruct (Z.eq_dec (Signature (parseHeader b)) 0x4D42) as [E|E]; [exact E|].
    exfalso. exact (Hne _ (decode_bad_signature c0 c1 c2 c3 c4 b Hl E)). }
  assert (Hb : depth_supported (bmp_bpp b) = true).
  { destruct (depth_supported (bmp_bpp b)) eqn:E; [reflexivity|].
    exfalso. exact (Hne _ (decode_unsupported_depth c0 c1 c2 c3 c4 b Hl Hg E)). }
  assert (Hok : header_ok b) by (repeat split; assumption).
  split; [exact Hok|].
  specialize (Hne TruncatedData).
  rewrite (decodeBMPData_unfold c0 c1 c2 c3 c4 b Hok) in Hne.
  destruct (len b <? _); [contradiction|reflexivity].
Qed.

Lemma mapM_const {A B} (f : A -> option B) (l : list A) (v : B) :
  (forall x, x ∈ l -> f x = Some v) -> mapM f l = Some (replicate (length l) v).
Proof.
  induction l as [|a l IH]; intros H; [reflexivity|].
  cbn [mapM]. rewrite (H a) by (left). cbn [mbind option_bind].
  rewrite IH by (intros x Hx; apply H; right; exact Hx). reflexivity.
Qed.

Lemma concat_replicate_singleton {A} (n : nat) (x : A) :
  concat (replicate n [x]) = replicate n x.
Proof. induction n as [|n IH]; [reflexivity|]. simpl. rewrite IH. reflexivity. Qed.

Lemma elem_of_bmp_row_order b y : y ∈ bmp_row_order b -> 0 <= y < bmp_height b.
Proof.
  unfold bmp_row_order. destruct (bmp_top_down b).
  - rewrite elem_of_seqZ. lia.
  - rewrite elem_of_reverse, elem_of_seqZ. lia.
Qed.

Lemma length_bmp_row_order b : length (bmp_row_order b) = Z.to_nat (bmp_height b).
Proof.
  unfold bmp_row_order. destruct (bmp_top_down b).
  - apply length_seqZ.
  - rewrite length_reverse. apply length_seqZ.
Qed.

(** ** Four bits per pixel *)

(** C9. A buffer that declares bit depth 4 and passes the structural
    checks renders successfully, and every pixel cell of every row is
    the third palette token: no pixel byte is read and the brightness
    is the default 128. *)
Theorem four_bit_renders_mid_token c0 c1 c2 c3 c4 (b : list byte) :
  (forall e, decodeBMPData c0 c1 c2 c3 c4 b <> Err e) ->
  bmp_bpp b = 4 ->
  Z.quot (bmp_bpp b) 8 = 0 /\
  brightness_char c0 c1 c2 c3 c4 128 = c2 /\
  decodeBMPData c0 c1 c2 c3 c4 b =
    Ok (bmp_banner b ++
        concat (replicate (Z.to_nat (bmp_height b))
                  ("    "%string :: replicate (Z.to_nat (bmp_width b)) c2 ++ [newline]))).
Proof.
  intros Hne Hbpp.
  split; [rewrite Hbpp; reflexivity|]. split; [reflexivity|].
  destruct (no_error_header_ok _ _ _ _ _ _ Hne) as (Hok & Htr).
  rewrite (decodeBMPData_unfold _ _ _ _ _ _ Hok), Htr.
  pose proof (bmp_height_range b) as Hh.
  pose proof (bmp_width_range b) as Hw.
  pose proof (bmp_offset_range b) as Ho.
  assert (Hrs : bmp_row_size b = Z.quot (bmp_width b * 4 + 31) 32 * 4)
    by (unfold bmp_row_size; rewrite Hbpp; reflexivity).
  assert (Hrows : mapM (bmp_row c0 c1 c2 c3 c4 b) (bmp_row_order b)
                  = Some (replicate (Z.to_nat (bmp_height b))
                            ("    "%string :: replicate (Z.to_nat (bmp_width b)) c2
                               ++ [newline]))).
  { rewrite <- length_bmp_row_order. apply mapM_const.
    intros y Hy%elem_of_bmp_row_order.
    unfold bmp_row, render_row. rewrite Hbpp. cbn [Z.eqb Pos.eqb].
    change (Z.quot 4 8) with 0.
    set (ro := GoInt.add (bmp_offset b) (GoInt.mul y (bmp_row_size b))).
    rewrite (mapM_const _ _ [c2]).
    - cbn [mbind option_bind]. rewrite concat_replicate_singleton, length_seqZ.
      reflexivity.
    - intros x Hx%elem_of_seqZ. unfold gray_cell.
      assert (Hrb : 0 <= bmp_row_size b <= 2 ^ 31)
        by (rewrite Hrs; Z.to_euclidean_division_equations; lia).
      apply Z.ltb_ge in Htr.
      rewrite mul_id in Htr by fits_nl.
      rewrite add_id in Htr by fits_nl.
      assert (Hro : ro = bmp_offset b + y * bmp_row_size b).
      { unfold ro. rewrite mul_id; [apply add_id|]; unfold GoInt.in_range; nia. }
      assert (Hx0 : GoInt.mul x 0 = 0)
        by (unfold GoInt.mul; rewrite Z.mul_0_r; reflexivity).
      rewrite Hx0.
      assert (Hro0 : GoInt.add ro 0 = ro)
        by (rewrite add_id; [lia|]; unfold GoInt.in_range; nia).
      rewrite !Hro0.
      destruct (Z.leb_spec ro (len b)) as [_|Hgt]; [reflexivity|].
      exfalso. nia. }
  rewrite Hrows. reflexivity.
Qed.

Lemma four_bit_renders_mid_token_witness :
  Z.quot (bmp_bpp (mk_bmp 0x4D42 54 3 2 4 [x12; x30; x00; x00; xff; xf0; x00; x00])) 8 = 0 /\
  brightness_char "0" "1" "2" "3" "4" 128 = "2"%string /\
  decodeBMPData "0" "1" "2" "3" "4"
    (mk_bmp 0x4D42 54 3 2 4 [x12; x30; x00; x00; xff; xf0; x00; x00])
  = Ok [ ("  Dimensions: 3x2, BPP: 4" +:+ newline)%string;
         ("  Bitfield:" +:+ newline)%string;
         "    "%string; "2"%string; "2"%string; "2"%string; newline;
         "    "%string; "2"%string; "2"%string; "2"%string; newline ].
Proof.
  apply (four_bit_renders_mid_token "0" "1" "2" "3" "4"
           (mk_bmp 0x4D42 54 3 2 4 [x12; x30; x00; x00; xff; xf0; x00; x00])).
  - intros e. vm_compute. discriminate.
  - vm_compute. reflexivity.
Defined.

(** ** Luminance brackets *)

Lemma index_byte_range data i v : index data i = Some v -> 0 <= v < 256.
Proof.
  unfold index. destruct (i <? 0); [discriminate|].
  destruct (data !! Z.to_nat i); [|discriminate].
  intros [= <-]. apply byte_val_range.
Qed.

(** C4. In a 24-bit or 32-bit image, a pixel whose bytes lie inside
    the buffer is read as Blue, Green, Red from consecutive bytes (the
    fourth byte of a 32-bit pixel is not read); its luminance is
    (299 R + 587 G + 114 B) / 1000 and selects the token by inclusive
    lower bounds 204, 153, 102, 51.  White 1x1 renders the first token,
    black the last, and luminance exactly 204 the first. *)
Theorem bgr_luminance_brackets c0 c1 c2 c3 c4 :
  (forall (data : list byte) (bpp rowOffset x vb vg vr : Z),
      bpp = 24 \/ bpp = 32 ->
      0 <= rowOffset -> 0 <= x ->
      rowOffset + x * (bpp / 8) + bpp / 8 <= len data -> len data < 2 ^ 63 ->
      index data (rowOffset + x * (bpp / 8)) = Some vb ->
      index data (rowOffset + x * (bpp / 8) + 1) = Some vg ->
      index data (rowOffset + x * (bpp / 8) + 2) = Some vr ->
      let cell := gray_cell c0 c1 c2 c3 c4 data bpp (Z.quot bpp 8) rowOffset x in
      let lum := luminance vr vg vb in
      0 <= lum <= 255 /\
      (204 <= lum -> cell = Some [c0]) /\
      (153 <= lum < 204 -> cell = Some [c1]) /\
      (102 <= lum < 153 -> cell = Some [c2]) /\
      (51 <= lum < 102 -> cell = Some [c3]) /\
      (lum < 51 -> cell = Some [c4])) /\
  decodeBMPData c0 c1 c2 c3 c4 (mk_bmp 0x4D42 54 1 1 24 [xff; xff; xff; x00])
  = Ok [ ("  Dimensions: 1x1, BPP: 24" +:+ newline)%string;
         ("  Bitfield:" +:+ newline)%string; "    "%string; c0; newline ] /\
  decodeBMPData c0 c1 c2 c3 c4 (mk_bmp 0x4D42 54 1 1 24 [x00; x00; x00; x00])
  = Ok [ ("  Dimensions: 1x1, BPP: 24" +:+ newline)%string;
         ("  Bitfield:" +:+ newline)%string; "    "%string; c4; newline ] /\
  luminance 204 204 204 = 204 /\
  decodeBMPData c0 c1 c2 c3 c4 (mk_bmp 0x4D42 54 1 1 24 [xcc; xcc; xcc; x00])
  = Ok [ ("  Dimensions: 1x1, BPP: 24" +:+ newline)%string;
         ("  Bitfield:" +:+ newline)%string; "    "%string; c0; newline ].
Proof.
  split; [|repeat split; vm_compute; reflexivity].
  intros data bpp rowOffset x vb vg vr Hbpp Hro Hx Hin Hlen Hb Hg Hr cell lum.
  pose proof (index_byte_range _ _ _ Hb) as Rb.
  pose proof (index_byte_range _ _ _ Hg) as Rg.
  pose proof (index_byte_range _ _ _ Hr) as Rr.
  assert (Hq : Z.quot bpp 8 = bpp / 8 /\ 3 <= bpp / 8 <= 4).
  { destruct Hbpp as [-> | ->]; (split; [reflexivity|vm_compute; split; discriminate]). }
  destruct Hq as (Hq & Hbb).
  set (p := rowOffset + x * (bpp / 8)) in *.
  assert (Hp : 0 <= p) by (unfold p; nia).
  assert (Hlum : 0 <= lum <= 255).
  { unfold lum, luminance. Z.to_euclidean_division_equations. lia. }
  assert (Hcell : cell = Some [brightness_char c0 c1 c2 c3 c4 lum]).
  { unfold cell, gray_cell. rewrite Hq.
    assert (Hmx : GoInt.mul x (bpp / 8) = x * (bpp / 8))
      by (apply mul_id; unfold GoInt.in_range; nia).
    rewrite Hmx.
    assert (Hpo : GoInt.add rowOffset (x * (bpp / 8)) = p)
      by (apply add_id; unfold GoInt.in_range; fold p; lia).
    rewrite Hpo.
    rewrite (add_id p (bpp / 8)) by fits.
    destruct (Z.leb_spec (p + bpp / 8) (len data)) as [_|]; [|lia].
    assert (H8 : (bpp =? 8) = false) by (destruct Hbpp as [-> | ->]; reflexivity).
    assert (H24 : (bpp =? 24) || (bpp =? 32) = true)
      by (destruct Hbpp as [-> | ->]; reflexivity).
    rewrite H8, H24.
    rewrite !add_id by fits.
    rewrite Hb, Hg, Hr. cbn [mbind option_bind].
    rewrite !mul_id by fits.
    rewrite (add_id (vr * 299)) by fits.
    rewrite add_id by fits.
    assert (Hl : Z.quot (vr * 299 + vg * 587 + vb * 114) 1000 = lum).
    { unfold lum, luminance. rewrite Z.quot_div_nonneg by lia. f_equal. lia. }
    rewrite Hl. unfold GoInt.to_byte. rewrite Z.mod_small by lia. reflexivity. }
  split; [exact Hlum|].
  rewrite Hcell. unfold brightness_char.
  repeat split; intros Hbr;
    repeat match goal with
           | |- context [?a <=? ?b] => destruct (Z.leb_spec a b); try lia
           end; reflexivity.
Qed.

Lemma bgr_luminance_brackets_witness :
  let cell := gray_cell "0" "1" "2" "3" "4" [x0a; x14; xc8; x00] 24 (Z.quot 24 8) 0 0 in
  let lum := luminance 200 20 10 in
  0 <= lum <= 255 /\
  (204 <= lum -> cell = Some ["0"%string]) /\
  (153 <= lum < 204 -> cell = Some ["1"%string]) /\
  (102 <= lum < 153 -> cell = Some ["2"%string]) /\
  (51 <= lum < 102 -> cell = Some ["3"%string]) /\
  (lum < 51 -> cell = Some ["4"%string]).
Proof.
  apply (proj1 (bgr_luminance_brackets "0" "1" "2" "3" "4")
           [x0a; x14; xc8; x00] 24 0 0 10 20 200).
  - left. reflexivity.
  - lia.
  - lia.
  - vm_compute. discriminate.
  - vm_compute. reflexivity.
  - reflexivity.
  - reflexivity.
  - reflexivity.
Defined.

(** ** Row stride and the completeness check *)

Lemma spec_stride_nonneg_width w bpp :
  0 <= w -> 0 <= bpp -> Z.quot (w * bpp + 31) 32 * 4 = spec_stride w bpp.
Proof.
  intros Hw Hb. unfold spec_stride, ceil_div.
  assert (0 <= w * bpp) by nia.
  Z.to_euclidean_division_equations. lia.
Qed.

(** C5, as the code has it.  For a buffer that passes the header checks
    and declares a non-negative width, the row stride is
    ceil(width * bitDepth / 32) * 4, and, when the required length
    offset + stride * height fits the 64-bit [int], the render fails as
    [TruncatedData] exactly when the buffer is shorter than it. *)
Theorem truncation_check_nonneg_width c0 c1 c2 c3 c4 (b : list byte) :
  header_ok b ->
  0 <= bmp_width b ->
  spec_required_length b < 2 ^ 63 ->
  GoInt.mul (Z.quot (GoInt.add (GoInt.mul (bmp_width b) (bmp_bpp b)) 31) 32) 4
    = spec_stride (bmp_width b) (bmp_bpp b) /\
  (decodeBMPData c0 c1 c2 c3 c4 b = Err TruncatedData <->
   len b < spec_required_length b).
Proof.
  intros Hok Hw Hfit.
  pose proof (bmp_bpp_range b) as Hb.
  pose proof (bmp_height_range b) as Hh.
  pose proof (bmp_offset_range b) as Ho.
  assert (Hrs : bmp_row_size b = spec_stride (bmp_width b) (bmp_bpp b))
    by (apply spec_stride_nonneg_width; lia).
  split; [rewrite row_size_no_wrap; exact Hrs|].
  assert (Hpos : 0 <= bmp_row_size b).
  { unfold bmp_row_size. assert (0 <= bmp_width b * bmp_bpp b) by nia.
    Z.to_euclidean_division_equations. lia. }
  unfold spec_required_length in *. rewrite <- Hrs in *.
  rewrite (decodeBMPData_unfold _ _ _ _ _ _ Hok).
  rewrite mul_id by fits_nl.
  rewrite add_id by fits_nl.
  destruct (Z.ltb_spec (len b) (bmp_offset b + bmp_row_size b * bmp_height b)).
  - split; [intros _; assumption|reflexivity].
  - split; [|lia].
    destruct (mapM _ _); discriminate.
Qed.

Lemma truncation_check_nonneg_width_witness :
  let b := mk_bmp 0x4D42 54 8 2 1 [xaa; x00; x00; x00; x0f; x00; x00; x00] in
  GoInt.mul (Z.quot (GoInt.add (GoInt.mul (bmp_width b) (bmp_bpp b)) 31) 32) 4
    = spec_stride (bmp_width b) (bmp_bpp b) /\
  (decodeBMPData "0" "1" "2" "3" "4" b = Err TruncatedData <->
   len b < spec_required_length b).
Proof.
  apply (truncation_check_nonneg_width "0" "1" "2" "3" "4"
           (mk_bmp 0x4D42 54 8 2 1 [xaa; x00; x00; x00; x0f; x00; x00; x00])).
  - repeat split; vm_compute; first [reflexivity | discriminate].
  - vm_compute. discriminate.
  - vm_compute. reflexivity.
Defined.

(** A negative width passes the header checks; the truncating division
    then yields a stride of -96 where the ceiling is -100, and a
    102-byte buffer with offset 200 is rejected although the ceiling
    formula asks for 100 bytes only. *)
Lemma truncation_check_negative_width :
  let b := mk_bmp 0x4D42 200 (-100) 1 8 (replicate 48 x00) in
  header_ok b /\
  GoInt.mul (Z.quot (GoInt.add (GoInt.mul (bmp_width b) (bmp_bpp b)) 31) 32) 4 = -96 /\
  spec_stride (bmp_width b) (bmp_bpp b) = -100 /\
  ~ (decodeBMPData "0" "1" "2" "3" "4" b = Err TruncatedData <->
     len b < spec_required_length b).
Proof.
  cbv zeta. split; [|split; [|split]].
  - repeat split; vm_compute; first [reflexivity | discriminate].
  - vm_compute. reflexivity.
  - vm_compute. reflexivity.
  - intros [H _].
    assert (Hd : decodeBMPData "0" "1" "2" "3" "4"
                   (mk_bmp 0x4D42 200 (-100) 1 8 (replicate 48 x00))
                 = Err TruncatedData) by (vm_compute; reflexivity).
    specialize (H Hd). vm_compute in H. discriminate.
Qed.

Lemma not_truncated_when_check_passes c0 c1 c2 c3 c4 b :
  header_ok b ->
  (len b <? GoInt.add (bmp_offset b) (GoInt.mul (bmp_row_size b) (bmp_height b)))
    = false ->
  decodeBMPData c0 c1 c2 c3 c4 b <> Err TruncatedData.
Proof.
  intros Hok Hc. rewrite (decodeBMPData_unfold _ _ _ _ _ _ Hok), Hc.
  destruct (mapM _ _); discriminate.
Qed.

(** The width is not the only way out of the formula.  At 32 bits per
    pixel, width 2^31 - 1 and height -2^31, the product of stride and
    height exceeds the 64-bit [int] and wraps to a negative number: a
    buffer that holds the two headers alone passes the check. *)
Lemma truncation_check_wraps :
  let b := mk_bmp 0x4D42 54 (2 ^ 31 - 1) (- 2 ^ 31) 32 [] in
  header_ok b /\ 0 <= bmp_width b /\
  len b < spec_required_length b /\
  decodeBMPData "0" "1" "2" "3" "4" b <> Err TruncatedData.
Proof.
  cbv zeta.
  assert (Hok : header_ok (mk_bmp 0x4D42 54 (2 ^ 31 - 1) (- 2 ^ 31) 32 []))
    by (repeat split; vm_compute; first [reflexivity | discriminate]).
  split; [exact Hok|].
  split; [vm_compute; discriminate|].
  split; [vm_compute; reflexivity|].
  apply not_truncated_when_check_passes; [exact Hok|].
  vm_compute. reflexivity.
Qed.

(** ** Row order and the sign of the height *)

Section MirroredRows.

Variables c0 c1 c2 c3 c4 : string.
Variables b1 b2 : list byte.
Variables bpp width rs ro1 ro2 : Z.

Hypothesis Hlen : len b1 = len b2.
Hypothesis Hmax : len b1 < 2 ^ 63.
Hypothesis Hdepth : depth_supported bpp = true.
Hypothesis Hwidth : 0 < width < 2 ^ 31.
Hypothesis Hrs : rs = Z.quot (width * bpp + 31) 32 * 4.
Hypothesis Hro1 : 0 <= ro1 /\ ro1 + rs <= len b1.
Hypothesis Hro2 : 0 <= ro2 /\ ro2 + rs <= len b2.
Hypothesis Hbytes :
  forall j, 0 <= j < rs -> index b1 (ro1 + j) = index b2 (ro2 + j).

(** The two rows hold the same bytes, so their cells are the same. *)
Lemma mirrored_cell x :
  0 <= x < width ->
  (if bpp =? 1 then bit_cell c0 c1 b1
   else gray_cell c0 c1 c2 c3 c4 b1 bpp (if bpp =? 1 then 0 else Z.quot bpp 8)) ro1 x
  = (if bpp =? 1 then bit_cell c0 c1 b2
     else gray_cell c0 c1 c2 c3 c4 b2 bpp (if bpp =? 1 then 0 else Z.quot bpp 8)) ro2 x.
Proof.
  intros Hx.
  apply depth_supported_cases in Hdepth.
  destruct Hdepth as [-> | [-> | [-> | [-> | ->]]]]; cbn [Z.eqb Pos.eqb].
  - unfold bit_cell.
    assert (Hj : 0 <= Z.quot x 8 < rs)
      by (rewrite Hrs; Z.to_euclidean_division_equations; lia).
    rewrite !add_id by fits.
    rewrite <- Hlen.
    destruct (Z.ltb_spec (ro1 + Z.quot x 8) (len b1)); [|lia].
    destruct (Z.ltb_spec (ro2 + Z.quot x 8) (len b1)); [|lia].
    rewrite Hbytes by lia. reflexivity.
  - unfold gray_cell. change (Z.quot 4 8) with 0.
    assert (Hx0 : GoInt.mul x 0 = 0)
      by (unfold GoInt.mul; rewrite Z.mul_0_r; reflexivity).
    assert (Hj : 0 <= rs)
      by (rewrite Hrs; Z.to_euclidean_division_equations; lia).
    rewrite Hx0.
    assert (H1 : GoInt.add ro1 0 = ro1)
      by (rewrite add_id; [lia|]; unfold GoInt.in_range; lia).
    assert (H2 : GoInt.add ro2 0 = ro2)
      by (rewrite add_id; [lia|]; unfold GoInt.in_range; lia).
    rewrite !H1, !H2, <- Hlen.
    destruct (Z.leb_spec ro1 (len b1)); [|lia].
    destruct (Z.leb_spec ro2 (len b1)); [|lia].
    reflexivity.
  - unfold gray_cell. change (Z.quot 8 8) with 1.
    assert (Hj : 0 <= x < rs)
      by (rewrite Hrs; Z.to_euclidean_division_equations; lia).
    rewrite (mul_id x 1) by fits.
    rewrite Z.mul_1_r.
    rewrite (add_id ro1 x), (add_id ro2 x) by fits.
    rewrite (add_id (ro1 + x) 1), (add_id (ro2 + x) 1)
      by fits.
    rewrite <- Hlen.
    destruct (Z.leb_spec (ro1 + x + 1) (len b1)); [|lia].
    destruct (Z.leb_spec (ro2 + x + 1) (len b1)); [|lia].
    cbn [Z.eqb Pos.eqb]. rewrite Hbytes by lia. reflexivity.
  - unfold gray_cell. change (Z.quot 24 8) with 3.
    assert (Hj : 0 <= x * 3 /\ x * 3 + 2 < rs)
      by (rewrite Hrs; Z.to_euclidean_division_equations; lia).
    rewrite (mul_id x 3) by fits.
    rewrite (add_id ro1 (x * 3)), (add_id ro2 (x * 3))
      by fits.
    rewrite (add_id (ro1 + x * 3) 3), (add_id (ro2 + x * 3) 3),
      (add_id (ro1 + x * 3) 1), (add_id (ro2 + x * 3) 1),
      (add_id (ro1 + x * 3) 2), (add_id (ro2 + x * 3) 2)
      by fits.
    rewrite <- Hlen.
    destruct (Z.leb_spec (ro1 + x * 3 + 3) (len b1)); [|lia].
    destruct (Z.leb_spec (ro2 + x * 3 + 3) (len b1)); [|lia].
    cbn [Z.eqb Pos.eqb orb].
    rewrite <- !Z.add_assoc.
    rewrite !Hbytes by lia. reflexivity.
  - unfold gray_cell. change (Z.quot 32 8) with 4.
    assert (Hj : 0 <= x * 4 /\ x * 4 + 3 < rs)
      by (rewrite Hrs; Z.to_euclidean_division_equations; lia).
    rewrite (mul_id x 4) by fits.
    rewrite (add_id ro1 (x * 4)), (add_id ro2 (x * 4))
      by fits.
    rewrite (add_id (ro1 + x * 4) 4), (add_id (ro2 + x * 4) 4),
      (add_id (ro1 + x * 4) 1), (add_id (ro2 + x * 4) 1),
      (add_id (ro1 + x * 4) 2), (add_id (ro2 + x * 4) 2)
      by fits.
    rewrite <- Hlen.
    destruct (Z.leb_spec (ro1 + x * 4 + 4) (len b1)); [|lia].
    destruct (Z.leb_spec (ro2 + x * 4 + 4) (len b1)); [|lia].
    cbn [Z.eqb Pos.eqb orb].
    rewrite <- !Z.add_assoc.
    rewrite !Hbytes by lia. reflexivity.
Qed.

End MirroredRows.

Lemma index_is_Some data i : 0 <= i < len data -> is_Some (index data i).
Proof.
  unfold index, len. intros H. destruct (Z.ltb_spec i 0); [lia|].
  destruct (lookup_lt_is_Some_2 data (Z.to_nat i)) as [v Hv]; [lia|].
  rewrite Hv. eexists. reflexivity.
Qed.

Section CompleteRow.

Variables c0 c1 c2 c3 c4 : string.
Variable b : list byte.
Variables bpp width rs ro : Z.

Hypothesis Hmax : len b < 2 ^ 63.
Hypothesis Hdepth : depth_supported bpp = true.
Hypothesis Hwidth : 0 < width < 2 ^ 31.
Hypothesis Hrs : rs = Z.quot (width * bpp + 31) 32 * 4.
Hypothesis Hro : 0 <= ro /\ ro + rs <= len b.

(** A row that lies inside the buffer is rendered without a panic. *)
Lemma complete_cell_is_Some x :
  0 <= x < width ->
  is_Some ((if bpp =? 1 then bit_cell c0 c1 b
            else gray_cell c0 c1 c2 c3 c4 b bpp (if bpp =? 1 then 0 else Z.quot bpp 8))
             ro x).
Proof.
  intros Hx.
  apply depth_supported_cases in Hdepth.
  destruct Hdepth as [-> | [-> | [-> | [-> | ->]]]]; cbn [Z.eqb Pos.eqb].
  - unfold bit_cell.
    assert (Hj : 0 <= Z.quot x 8 < rs)
      by (rewrite Hrs; Z.to_euclidean_division_equations; lia).
    rewrite !add_id by fits.
    destruct (Z.ltb_spec (ro + Z.quot x 8) (len b)); [|lia].
    destruct (index_is_Some b (ro + Z.quot x 8)) as [v ->]; [lia|].
    cbn [mbind option_bind]. eexists. reflexivity.
  - unfold gray_cell. change (Z.quot 4 8) with 0.
    destruct (GoInt.add _ 0 <=? len b); cbn; eexists; reflexivity.
  - unfold gray_cell. change (Z.quot 8 8) with 1.
    assert (Hj : 0 <= x < rs)
      by (rewrite Hrs; Z.to_euclidean_division_equations; lia).
    rewrite (mul_id x 1) by fits.
    rewrite Z.mul_1_r.
    rewrite (add_id ro x) by fits.
    rewrite (add_id (ro + x) 1) by fits.
    destruct (Z.leb_spec (ro + x + 1) (len b)); [|lia].
    cbn [Z.eqb Pos.eqb].
    destruct (index_is_Some b (ro + x)) as [v ->]; [lia|].
    cbn [mbind option_bind]. eexists. reflexivity.
  - unfold gray_cell. change (Z.quot 24 8) with 3.
    assert (Hj : 0 <= x * 3 /\ x * 3 + 2 < rs)
      by (rewrite Hrs; Z.to_euclidean_division_equations; lia).
    rewrite (mul_id x 3) by fits.
    rewrite (add_id ro (x * 3)) by fits.
    rewrite (add_id (ro + x * 3) 3), (add_id (ro + x * 3) 1), (add_id (ro + x * 3) 2)
      by fits.
    destruct (Z.leb_spec (ro + x * 3 + 3) (len b)); [|lia].
    cbn [Z.eqb Pos.eqb orb].
    destruct (index_is_Some b (ro + x * 3)) as [v0 ->]; [lia|].
    destruct (index_is_Some b (ro + x * 3 + 1)) as [v1 ->]; [lia|].
    destruct (index_is_Some b (ro + x * 3 + 2)) as [v2 ->]; [lia|].
    cbn [mbind option_bind]. eexists. reflexivity.
  - unfold gray_cell. change (Z.quot 32 8) with 4.
    assert (Hj : 0 <= x * 4 /\ x * 4 + 3 < rs)
      by (rewrite Hrs; Z.to_euclidean_division_equations; lia).
    rewrite (mul_id x 4) by fits.
    rewrite (add_id ro (x * 4)) by fits.
    rewrite (add_id (ro + x * 4) 4), (add_id (ro + x * 4) 1), (add_id (ro + x * 4) 2)
      by fits.
    destruct (Z.leb_spec (ro + x * 4 + 4) (len b)); [|lia].
    cbn [Z.eqb Pos.eqb orb].
    destruct (index_is_Some b (ro + x * 4)) as [v0 ->]; [lia|].
    destruct (index_is_Some b (ro + x * 4 + 1)) as [v1 ->]; [lia|].
    destruct (index_is_Some b (ro + x * 4 + 2)) as [v2 ->]; [lia|].
    cbn [mbind option_bind]. eexists. reflexivity.
Qed.

End CompleteRow.

(** A buffer that passes the header checks, declares a non-negative
    width and holds all its rows is rendered: no error, no panic. *)
Lemma decodeBMPData_complete_ok c0 c1 c2 c3 c4 (b : list byte) :
  header_ok b -> len b < 2 ^ 63 -> 0 <= bmp_width b ->
  bmp_offset b + bmp_height b * bmp_row_size b <= len b ->
  exists out, decodeBMPData c0 c1 c2 c3 c4 b = Ok out.
Proof.
  intros Hok Hmax Hw Hfull.
  pose proof (bmp_height_range b) as Rh.
  pose proof (bmp_offset_range b) as Ro.
  pose proof (bmp_width_range b) as Rw.
  pose proof (bmp_bpp_range b) as Rb.
  assert (Hrpos : 0 <= bmp_row_size b).
  { unfold bmp_row_size. assert (0 <= bmp_width b * bmp_bpp b) by nia.
    Z.to_euclidean_division_equations. lia. }
  rewrite (decodeBMPData_unfold _ _ _ _ _ _ Hok).
  rewrite mul_id by fits_nl.
  rewrite add_id by fits_nl.
  destruct (Z.ltb_spec (len b) (bmp_offset b + bmp_row_size b * bmp_height b)); [lia|].
  destruct Hok as (_ & _ & Hd).
  assert (Hrows : is_Some (mapM (bmp_row c0 c1 c2 c3 c4 b) (bmp_row_order b))).
  { apply mapM_is_Some_2, Forall_forall. intros y Hy%elem_of_bmp_row_order.
    unfold compose, bmp_row, render_row.
    assert (Hcells : is_Some
              (mapM ((if bmp_bpp b =? 1 then bit_cell c0 c1 b
                      else gray_cell c0 c1 c2 c3 c4 b (bmp_bpp b)
                             (if bmp_bpp b =? 1 then 0 else Z.quot (bmp_bpp b) 8))
                       (GoInt.add (bmp_offset b) (GoInt.mul y (bmp_row_size b))))
                    (seqZ 0 (bmp_width b)))).
    { apply mapM_is_Some_2, Forall_seqZ. intros x Hx. unfold compose.
      rewrite mul_id by fits_nl.
      rewrite add_id by fits_nl.
      apply (complete_cell_is_Some c0 c1 c2 c3 c4 b (bmp_bpp b) (bmp_width b)
               (bmp_row_size b)); try assumption; try reflexivity; try lia.
      nia. }
    destruct Hcells as [cells ->]. cbn [mbind option_bind]. eexists. reflexivity. }
  destruct Hrows as [rows ->]. cbn [collect]. eexists. reflexivity.
Qed.

Lemma mirrored_row c0 c1 c2 c3 c4 (b1 b2 : list byte) (y1 y2 : Z) :
  len b1 = len b2 -> len b1 < 2 ^ 63 ->
  depth_supported (bmp_bpp b1) = true ->
  bmp_offset b1 = bmp_offset b2 ->
  bmp_width b1 = bmp_width b2 ->
  bmp_bpp b1 = bmp_bpp b2 ->
  0 <= y1 -> 0 <= y2 ->
  bmp_offset b1 + (y1 + 1) * bmp_row_size b1 <= len b1 ->
  bmp_offset b1 + (y2 + 1) * bmp_row_size b1 <= len b1 ->
  (forall j, 0 <= j < bmp_row_size b1 ->
     b1 !! Z.to_nat (bmp_offset b1 + y1 * bmp_row_size b1 + j)
     = b2 !! Z.to_nat (bmp_offset b1 + y2 * bmp_row_size b1 + j)) ->
  bmp_row c0 c1 c2 c3 c4 b1 y1 = bmp_row c0 c1 c2 c3 c4 b2 y2.
Proof.
  intros Hlen Hmax Hd Hoff Hw Hbpp Hy1 Hy2 Hin1 Hin2 Hbytes.
  assert (Hrs : bmp_row_size b2 = bmp_row_size b1)
    by (unfold bmp_row_size; rewrite Hw, Hbpp; reflexivity).
  pose proof (bmp_width_range b1) as Rw.
  pose proof (bmp_offset_range b1) as Ro.
  unfold bmp_row, render_row.
  rewrite <- Hoff, <- Hw, <- Hbpp, Hrs.
  destruct (Z.le_gt_cases (bmp_width b1) 0) as [Hneg|Hpos].
  { rewrite seqZ_nil by lia. reflexivity. }
  assert (Hrpos : 0 <= bmp_row_size b1).
  { unfold bmp_row_size. pose proof (bmp_bpp_range b1).
    assert (0 <= bmp_width b1 * bmp_bpp b1) by nia.
    Z.to_euclidean_division_equations. lia. }
  assert (E1 : GoInt.add (bmp_offset b1) (GoInt.mul y1 (bmp_row_size b1))
               = bmp_offset b1 + y1 * bmp_row_size b1).
  { rewrite mul_id; [apply add_id|]; unfold GoInt.in_range; nia. }
  assert (E2 : GoInt.add (bmp_offset b1) (GoInt.mul y2 (bmp_row_size b1))
               = bmp_offset b1 + y2 * bmp_row_size b1).
  { rewrite mul_id; [apply add_id|]; unfold GoInt.in_range; nia. }
  rewrite E1, E2.
  match goal with
  | |- mapM ?f ?l ≫= _ = mapM ?g _ ≫= _ =>
      replace (mapM f l) with (mapM g l); [reflexivity|]
  end.
  apply Forall_mapM_ext, Forall_seqZ. intros x Hx. symmetry.
  apply (mirrored_cell c0 c1 c2 c3 c4 b1 b2 (bmp_bpp b1) (bmp_width b1)
           (bmp_row_size b1)); try assumption; try reflexivity; try lia.
  intros j Hj. unfold index.
  destruct (Z.ltb_spec (bmp_offset b1 + y1 * bmp_row_size b1 + j) 0); [nia|].
  destruct (Z.ltb_spec (bmp_offset b1 + y2 * bmp_row_size b1 + j) 0); [nia|].
  rewrite Hbytes by lia. reflexivity.
Qed.

(** C3. A buffer whose height field is negative is rendered with its
    stored rows in stored order, first stored row first; one whose
    height field is positive with its stored rows in reverse order.
    Hence two complete buffers that agree on offset, width and depth,
    declare heights +N and -N and hold the same rows in mutually
    reversed order have the same outcome. *)
Theorem height_sign_row_order c0 c1 c2 c3 c4 :
  (forall (b : list byte) (out : list string),
      decodeBMPData c0 c1 c2 c3 c4 b = Ok out ->
      (Height (parseInfoHeader b) < 0 ->
       exists rows,
         mapM (bmp_row c0 c1 c2 c3 c4 b) (seqZ 0 (bmp_height b)) = Some rows /\
         out = bmp_banner b ++ concat rows) /\
      (0 < Height (parseInfoHeader b) ->
       exists rows,
         mapM (bmp_row c0 c1 c2 c3 c4 b) (reverse (seqZ 0 (bmp_height b))) = Some rows /\
         out = bmp_banner b ++ concat rows)) /\
  (forall (b1 b2 : list byte) (N : Z),
      header_ok b1 -> header_ok b2 ->
      len b1 = len b2 -> len b1 < 2 ^ 63 ->
      bmp_offset b1 = bmp_offset b2 ->
      bmp_width b1 = bmp_width b2 ->
      bmp_bpp b1 = bmp_bpp b2 ->
      0 < N ->
      Height (parseInfoHeader b1) = N ->
      Height (parseInfoHeader b2) = - N ->
      bmp_offset b1 + N * bmp_row_size b1 <= len b1 ->
      (forall y j, 0 <= y < N -> 0 <= j < bmp_row_size b1 ->
         b1 !! Z.to_nat (bmp_offset b1 + y * bmp_row_size b1 + j)
         = b2 !! Z.to_nat (bmp_offset b1 + (N - 1 - y) * bmp_row_size b1 + j)) ->
      decodeBMPData c0 c1 c2 c3 c4 b1 = decodeBMPData c0 c1 c2 c3 c4 b2 /\
      (0 <= bmp_width b1 -> exists out, decodeBMPData c0 c1 c2 c3 c4 b1 = Ok out)).
Proof.
  split.
  - intros b out Hdec.
    assert (Hne : forall e, decodeBMPData c0 c1 c2 c3 c4 b <> Err e)
      by (intros e; rewrite Hdec; discriminate).
    destruct (no_error_header_ok _ _ _ _ _ _ Hne) as (Hok & Htr).
    rewrite (decodeBMPData_unfold _ _ _ _ _ _ Hok), Htr in Hdec.
    unfold bmp_row_order, bmp_top_down in Hdec.
    split; intros Hs.
    + destruct (Z.ltb_spec (Height (parseInfoHeader b)) 0); [|lia].
      destruct (mapM _ _) as [rows|]; [|discriminate].
      exists rows. split; [reflexivity|]. injection Hdec as <-. reflexivity.
    + destruct (Z.ltb_spec (Height (parseInfoHeader b)) 0); [lia|].
      destruct (mapM _ _) as [rows|]; [|discriminate].
      exists rows. split; [reflexivity|]. injection Hdec as <-. reflexivity.
  - intros b1 b2 N Hok1 Hok2 Hlen Hmax Hoff Hw Hbpp HN Hh1 Hh2 Hfull Hbytes.
    assert (Hrs : bmp_row_size b2 = bmp_row_size b1)
      by (unfold bmp_row_size; rewrite Hw, Hbpp; reflexivity).
    assert (H1 : bmp_height b1 = N) by (unfold bmp_height; lia).
    assert (H2 : bmp_height b2 = N) by (unfold bmp_height; lia).
    split.
    2:{ intros Hwpos. apply decodeBMPData_complete_ok; try assumption.
        rewrite H1. exact Hfull. }
    assert (Hban : bmp_banner b2 = bmp_banner b1)
      by (unfold bmp_banner; rewrite Hw, Hbpp, H1, H2; reflexivity).
    rewrite (decodeBMPData_unfold _ _ _ _ _ _ Hok1).
    rewrite (decodeBMPData_unfold _ _ _ _ _ _ Hok2).
    rewrite <- Hlen, <- Hoff, Hrs, H1, H2, Hban.
    destruct (len b1 <? _); [reflexivity|].
    unfold bmp_row_order, bmp_top_down. rewrite Hh1, Hh2, H1, H2.
    destruct (Z.ltb_spec N 0); [lia|].
    destruct (Z.ltb_spec (- N) 0); [|lia].
    replace (mapM (bmp_row c0 c1 c2 c3 c4 b1) (reverse (seqZ 0 N)))
      with (mapM (bmp_row c0 c1 c2 c3 c4 b2) (seqZ 0 N)); [reflexivity|].
    symmetry. apply Forall2_mapM_ext.
    apply Forall2_same_length_lookup_2.
    { rewrite length_reverse. reflexivity. }
    intros i y1 y2 Hy1 Hy2.
    apply lookup_seqZ in Hy2 as (-> & Hi).
    assert (Hil : (i < length (seqZ 0 N))%nat) by (rewrite length_seqZ; lia).
    rewrite reverse_lookup in Hy1 by exact Hil.
    apply lookup_seqZ in Hy1 as (-> & _).
    rewrite length_seqZ.
    destruct Hok1 as (_ & _ & Hd).
    assert (Hrpos : bmp_offset b1 + N * bmp_row_size b1 <= len b1) by exact Hfull.
    pose proof (bmp_offset_range b1) as Ro.
    destruct (Z.le_gt_cases 0 (bmp_row_size b1)) as [Hnn|Hn].
    + apply mirrored_row; try assumption; try lia; try nia.
      intros j Hj.
      replace (0 + Z.of_nat i) with (N - 1 - (0 + Z.of_nat (Z.to_nat N - S i))) by lia.
      apply Hbytes; lia.
    + (* a negative stride only arises from a negative width: no cells *)
      unfold bmp_row, render_row. rewrite <- Hoff, <- Hw, <- Hbpp, Hrs.
      assert (bmp_width b1 <= 0).
      { destruct (Z.le_gt_cases (bmp_width b1) 0); [assumption|].
        exfalso. unfold bmp_row_size in Hn. pose proof (bmp_bpp_range b1).
        assert (0 <= bmp_width b1 * bmp_bpp b1) by nia.
        revert Hn. Z.to_euclidean_division_equations. lia. }
      rewrite seqZ_nil by lia. reflexivity.
Qed.

Lemma height_sign_row_order_witness :
  let up := mk_bmp 0x4D42 54 8 2 1 [xaa; x00; x00; x00; x0f; x00; x00; x00] in
  let down := mk_bmp 0x4D42 54 8 (-2) 1 [x0f; x00; x00; x00; xaa; x00; x00; x00] in
  let out :=
    [ ("  Dimensions: 8x2, BPP: 1" +:+ newline)%string;
      ("  Bitfield:" +:+ newline)%string;
      "    "; "."; "."; "."; "."; "#"; "#"; "#"; "#"; newline;
      "    "; "#"; "."; "#"; "."; "#"; "."; "#"; "."; newline ]%string in
  (exists rows,
     mapM (bmp_row "." "#" "2" "3" "4" down) (seqZ 0 (bmp_height down)) = Some rows /\
     out = bmp_banner down ++ concat rows) /\
  (exists rows,
     mapM (bmp_row "." "#" "2" "3" "4" up) (reverse (seqZ 0 (bmp_height up))) = Some rows /\
     out = bmp_banner up ++ concat rows) /\
  decodeBMPData "." "#" "2" "3" "4" up = decodeBMPData "." "#" "2" "3" "4" down /\
  (0 <= bmp_width up -> exists out', decodeBMPData "." "#" "2" "3" "4" up = Ok out').
Proof.
  intros up down out.
  destruct (height_sign_row_order "." "#" "2" "3" "4") as [Horder Hmirror].
  split; [|split].
  - apply (proj1 (Horder down out ltac:(vm_compute; reflexivity))).
    vm_compute. reflexivity.
  - apply (proj2 (Horder up out ltac:(vm_compute; reflexivity))).
    vm_compute. reflexivity.
  - apply (Hmirror up down 2).
    + repeat split; vm_compute; first [reflexivity | discriminate].
    + repeat split; vm_compute; first [reflexivity | discriminate].
    + vm_compute. reflexivity.
    + vm_compute. reflexivity.
    + vm_compute. reflexivity.
    + vm_compute. reflexivity.
    + vm_compute. reflexivity.
    + lia.
    + vm_compute. reflexivity.
    + vm_compute. reflexivity.
    + vm_compute. discriminate.
    + intros y j Hy Hj.
      assert (Hrs : bmp_row_size up = 4) by (vm_compute; reflexivity).
      assert (Hoff : bmp_offset up = 54) by (vm_compute; reflexivity).
      rewrite Hrs in *. rewrite Hoff.
      assert (Ey : y = 0 \/ y = 1) by lia.
      assert (Ej : j = 0 \/ j = 1 \/ j = 2 \/ j = 3) by lia.
      destruct Ey as [-> | ->]; destruct Ej as [-> | [-> | [-> | ->]]];
        vm_compute; reflexivity.
Defined.

(** ** The data URI wrapper *)

Lemma substring_all s : String.substring 0 (String.length s) s = s.
Proof. induction s as [|c s IH]; [reflexivity|]. cbn. rewrite IH. reflexivity. Qed.

(** On a data URI with the bitmap prefix and a decodable payload,
    [decodeBMPToBitfield] is [decodeBMPData] on the decoded bytes. *)
Lemma decodeBMPToBitfield_bytes c0 c1 c2 c3 c4
    (base64_decode : string -> option (list byte)) payload bmpData :
  base64_decode payload = Some bmpData ->
  decodeBMPToBitfield c0 c1 c2 c3 c4 base64_decode (bmp_prefix +:+ payload)
  = match decodeBMPData c0 c1 c2 c3 c4 bmpData with
    | Ok chunks => Ok (builder_string chunks)
    | Err e => Err e
    | Panic => Panic
    | OutOfFuel => OutOfFuel
    end.
Proof.
  intros Hdec. unfold decodeBMPToBitfield.
  assert (Hp : String.prefix bmp_prefix (bmp_prefix +:+ payload) = true)
    by (unfold bmp_prefix; simpl; destruct payload; reflexivity).
  rewrite Hp. cbn [negb].
  assert (Ht : trim_prefix bmp_prefix (bmp_prefix +:+ payload) = payload).
  { unfold trim_prefix, bmp_prefix. simpl. rewrite Nat.sub_0_r. apply substring_all. }
  rewrite Ht, Hdec. reflexivity.
Qed.

(** ** The chain registry: resolving *)

(** Within the range of [int64], [Int64] is the identity. *)
Lemma Int64_in_range x : - 2 ^ 63 <= x < 2 ^ 63 -> Int64 x = x.
Proof.
  intros H. unfold Int64, GoInt.neg, GoInt.wrap64.
  destruct (Z.ltb_spec x 0); Z.to_euclidean_division_equations; lia.
Qed.


Section Resolve.

Variable chain_id_reply : nat -> string -> option Z.

Abbreviation resolve := (getServiceForChainID chain_id_reply).
Abbreviation report := (self_report chain_id_reply).

(** C7. For a chain identifier that has an entry in the registry,
    resolving returns exactly the registered source and leaves the
    registry and the world as they were: no chain identifier query is
    issued, and every later call is in the same situation and returns
    the same source. *)
Theorem resolve_registered_no_probe (order order' : list (Z * service_ptr))
    (s : Server) (w : World) (chainID : Z) (source : service_ptr) :
  services s !! chainID = Some source ->
  resolve order s w chainID = (Success source, s, w) /\
  (let '(_, s1, w1) := resolve order s w chainID in
   resolve order' s1 w1 chainID = (Success source, s, w) /\
   probes w1 = probes w).
Proof.
  intros Hin.
  assert (H : forall o, resolve o s w chainID = (Success source, s, w))
    by (intros o; unfold getServiceForChainID; rewrite Hin; reflexivity).
  rewrite !H. auto.
Qed.

Lemma GetChainID_live hp pr a e :
  endpoint_of hp a = Some e ->
  GetChainID chain_id_reply (Some a) {| heap := hp; probes := pr |}
  = (match chain_id_reply (length pr) e with
     | Some id => Success id
     | None => Failure GetChainIDFailed
     end, {| heap := hp; probes := pr ++ [a] |}).
Proof.
  unfold endpoint_of, GetChainID. cbn [heap probes].
  destruct (hp !! a) as [svc|]; [|discriminate]. cbn [mbind option_bind].
  destruct (client svc) as [c|]; [|discriminate]. cbn [mbind option_bind].
  intros [= <-]. destruct (chain_id_reply (length pr) (endpoint c)); reflexivity.
Qed.

(** A scan in which every answer is an error or another identifier
    visits every entry and falls through. *)
Lemma scan_all_miss chainID entries hp pr :
  (forall k p, (k, p) ∈ entries -> exists a e, p = Some a /\ endpoint_of hp a = Some e) ->
  (forall j k p, entries !! j = Some (k, p) ->
     misses chainID (report hp (length pr + j) p)) ->
  scan chain_id_reply entries chainID {| heap := hp; probes := pr |}
  = (Success None, {| heap := hp; probes := pr ++ probed entries |}).
Proof.
  revert pr. induction entries as [|[k p] rest IH]; intros pr Hwf Hmiss.
  - cbn. rewrite app_nil_r. reflexivity.
  - destruct (Hwf k p) as (a & e & -> & He); [left|].
    pose proof (Hmiss 0%nat k (Some a) eq_refl) as H0.
    unfold self_report in H0. cbn [mbind option_bind] in H0.
    rewrite He in H0. cbn [mbind option_bind] in H0.
    rewrite Nat.add_0_r in H0.
    assert (Hrest : scan chain_id_reply rest chainID
                      {| heap := hp; probes := pr ++ [a] |}
                    = (Success None,
                       {| heap := hp; probes := (pr ++ [a]) ++ probed rest |})).
    { apply IH.
      - intros k' p' Hin. apply (Hwf k' p'). right. exact Hin.
      - intros j k' p' Hj. rewrite length_app. cbn [length].
        replace (length pr + 1 + j)%nat with (length pr + S j)%nat by lia.
        apply (Hmiss (S j) k' p'). exact Hj. }
    cbn [scan]. rewrite (GetChainID_live _ _ _ _ He).
    unfold probed in *. cbn [omap list_omap snd].
    rewrite <- app_assoc in Hrest. cbn [app] in Hrest.
    destruct (chain_id_reply (length pr) e) as [id|].
    + cbn in H0. destruct (Z.eqb_spec (Int64 id) chainID); [contradiction|].
      exact Hrest.
    + exact Hrest.
Qed.

(** A scan stops at the first entry whose answer is the requested
    identifier. *)
Lemma scan_first_match chainID pre k p post id hp pr :
  (forall k' p', (k', p') ∈ pre ++ [(k, p)] ->
     exists a e, p' = Some a /\ endpoint_of hp a = Some e) ->
  (forall j kj pj, pre !! j = Some (kj, pj) ->
     misses chainID (report hp (length pr + j) pj)) ->
  report hp (length pr + length pre) p = Some id ->
  Int64 id = chainID ->
  scan chain_id_reply (pre ++ (k, p) :: post) chainID {| heap := hp; probes := pr |}
  = (Success (Some p),
     {| heap := hp; probes := pr ++ probed (pre ++ [(k, p)]) |}).
Proof.
  revert pr. induction pre as [|[k0 p0] pre IH]; intros pr Hwf Hmiss Hrep Hid.
  - destruct (Hwf k p) as (a & e & -> & He); [left|].
    cbn [app scan]. rewrite (GetChainID_live _ _ _ _ He).
    unfold self_report in Hrep. cbn [mbind option_bind] in Hrep.
    rewrite He in Hrep. cbn [mbind option_bind length] in Hrep.
    rewrite Nat.add_0_r in Hrep. rewrite Hrep.
    destruct (Z.eqb_spec (Int64 id) chainID); [|contradiction].
    reflexivity.
  - destruct (Hwf k0 p0) as (a & e & -> & He); [left|].
    pose proof (Hmiss 0%nat k0 (Some a) eq_refl) as H0.
    unfold self_report in H0. cbn [mbind option_bind] in H0.
    rewrite He in H0. cbn [mbind option_bind] in H0.
    rewrite Nat.add_0_r in H0.
    assert (Hrest : scan chain_id_reply (pre ++ (k, p) :: post) chainID
                      {| heap := hp; probes := pr ++ [a] |}
                    = (Success (Some p),
                       {| heap := hp;
                          probes := (pr ++ [a]) ++ probed (pre ++ [(k, p)]) |})).
    { apply IH.
      - intros k' p' Hin. apply (Hwf k' p'). right. exact Hin.
      - intros j k' p' Hj. rewrite length_app. cbn [length].
        replace (length pr + 1 + j)%nat with (length pr + S j)%nat by lia.
        apply (Hmiss (S j) k' p'). exact Hj.
      - rewrite length_app. cbn [length] in *.
        replace (length pr + 1 + length pre)%nat
          with (length pr + S (length pre))%nat by lia.
        exact Hrep.
      - exact Hid. }
    cbn [app scan]. rewrite (GetChainID_live _ _ _ _ He).
    unfold probed in *. cbn [app omap list_omap snd].
    rewrite <- app_assoc in Hrest. cbn [app] in Hrest.
    destruct (chain_id_reply (length pr) e) as [id0|].
    + cbn in H0. destruct (Z.eqb_spec (Int64 id0) chainID); [contradiction|].
      exact Hrest.
    + exact Hrest.
Qed.


End Resolve.

Lemma registry_wfb_sound m hp : registry_wfb m hp = true -> registry_wf m hp.
Proof.
  unfold registry_wfb, registry_wf. rewrite forallb_forall.
  intros H k p Hk. apply elem_of_map_to_list, list_elem_of_In in Hk.
  specialize (H _ Hk). cbn [snd] in H.
  destruct p as [a|]; [|discriminate].
  destruct (endpoint_of hp a) as [e|] eqn:E; [|discriminate].
  exists a, e. auto.
Qed.

Lemma resolve_registered_no_probe_witness :
  getServiceForChainID demo_reply [] demo_server demo_world 2
  = (Success (Some 1%nat), demo_server, demo_world) /\
  (let '(_, s1, w1) := getServiceForChainID demo_reply [] demo_server demo_world 2 in
   getServiceForChainID demo_reply [] s1 w1 2
   = (Success (Some 1%nat), demo_server, demo_world) /\
   probes w1 = probes demo_world).
Proof.
  apply (resolve_registered_no_probe demo_reply [] [] demo_server demo_world 2
           (Some 1%nat)).
  vm_compute. reflexivity.
Defined.



(** ** The chain registry: teardown *)

Lemma release_count_Close_same a w svc c :
  heap w !! a = Some svc -> client svc = Some c ->
  release_count (ERC721Service_Close a w) a = S (release_count w a) /\
  exists svc' c', heap (ERC721Service_Close a w) !! a = Some svc' /\
                  client svc' = Some c'.
Proof.
  intros Hs Hc. unfold release_count, ERC721Service_Close. cbn [heap].
  rewrite list_lookup_alter_eq, Hs. cbn [fmap option_fmap option_map].
  rewrite Hc. cbn [client closes]. split; [reflexivity|]. eauto.
Qed.

Lemma release_count_Close_other a a' w :
  a <> a' ->
  release_count (ERC721Service_Close a' w) a = release_count w a /\
  heap (ERC721Service_Close a' w) !! a = heap w !! a.
Proof.
  intros Hne. unfold release_count, ERC721Service_Close. cbn [heap].
  rewrite list_lookup_alter_ne by congruence. auto.
Qed.

Lemma release_count_Close_loop entries a w svc c :
  heap w !! a = Some svc -> client svc = Some c ->
  release_count (Close_loop entries w) a
  = (release_count w a + length (filter (fun kp : Z * service_ptr => kp.2 = Some a) entries))%nat.
Proof.
  revert w svc c. induction entries as [|[k p] rest IH]; intros w svc c Hs Hc.
  - cbn. lia.
  - cbn [Close_loop]. rewrite filter_cons. cbn [snd].
    destruct p as [a'|].
    + destruct (decide (a' = a)) as [->|Hne].
      * destruct (release_count_Close_same a w svc c Hs Hc) as (Hr & svc' & c' & Hs' & Hc').
        rewrite decide_True by reflexivity.
        rewrite (IH _ svc' c' Hs' Hc'), Hr. cbn [length]. lia.
      * destruct (release_count_Close_other a a' w) as (Hr & Hh); [congruence|].
        rewrite decide_False by congruence.
        rewrite (IH _ svc c) by (rewrite ?Hh; assumption). rewrite Hr. reflexivity.
    + rewrite decide_False by discriminate. apply (IH _ svc c); assumption.
Qed.

(** C1, as the code has it.  Teardown releases the source behind every
    registry key: a live source is released once for each key under
    which it is registered.  A source registered under a single key is
    released exactly once. *)
Theorem close_releases_once_per_key (order : list (Z * service_ptr))
    (s : Server) (w : World) (a : nat) (svc : ERC721Service) (c : Client) :
  order ≡ₚ map_to_list (services s) ->
  heap w !! a = Some svc -> client svc = Some c ->
  release_count (Close order s w) a
  = (release_count w a + registered_keys (services s) a)%nat /\
  (registered_keys (services s) a = 1%nat ->
   release_count (Close order s w) a = S (release_count w a)).
Proof.
  intros Hperm Hs Hc.
  assert (H : release_count (Close order s w) a
              = (release_count w a + registered_keys (services s) a)%nat).
  { unfold Close, registered_keys.
    rewrite (release_count_Close_loop order a w svc c Hs Hc).
    rewrite Hperm. reflexivity. }
  split; [exact H|]. intros H1. rewrite H, H1. lia.
Qed.

Lemma close_releases_once_per_key_witness :
  let order := [(1, Some 0%nat); (2, Some 1%nat)] in
  release_count (Close order demo_server demo_world) 1
  = (release_count demo_world 1 + registered_keys (services demo_server) 1)%nat /\
  (registered_keys (services demo_server) 1 = 1%nat ->
   release_count (Close order demo_server demo_world) 1
   = S (release_count demo_world 1)).
Proof.
  apply (close_releases_once_per_key [(1, Some 0%nat); (2, Some 1%nat)]
           demo_server demo_world 1
           (service_for {| RPCURL := "b"; ContractAddress := "0xb" |})
           {| endpoint := "b"; closes := 0 |}).
  - vm_compute. apply perm_swap.
  - reflexivity.
  - reflexivity.
Defined.

(** A registry built from one configured chain whose endpoint reports
    chain 5: resolving 5 stores the same source under a second key, and
    teardown, in whatever order it ranges, releases that one source
    twice. *)
Lemma close_releases_aliased_source_twice :
  let rpc := {| RPCURL := "a"; ContractAddress := "0xa" |} in
  let cfg := {| RPCConfigs := {[ 1 := rpc ]}; AddressPort := ":8080" |} in
  let dial := fun _ : string => true in
  let reply := fun (_ : nat) (_ : string) => Some 5 in
  let s0 := {| services := {[ 1 := Some 0%nat ]}; config := cfg |} in
  let w1 := {| heap := [service_for rpc]; probes := [] |} in
  let s1 := {| services := <[ 5 := Some 0%nat ]> {[ 1 := Some 0%nat ]};
               config := cfg |} in
  let w2 := {| heap := [service_for rpc]; probes := [0%nat] |} in
  NewServer dial reply (map_to_list (RPCConfigs cfg)) cfg
    {| heap := []; probes := [] |} = (Success s0, w1) /\
  getServiceForChainID reply (map_to_list (services s0)) s0 w1 5
  = (Success (Some 0%nat), s1, w2) /\
  release_count w2 0 = 0%nat /\
  forall order, order ≡ₚ map_to_list (services s1) ->
    release_count (Close order s1 w2) 0 = 2%nat.
Proof.
  cbv zeta.
  split; [vm_compute; reflexivity|].
  split; [vm_compute; reflexivity|].
  split; [reflexivity|].
  intros order Hperm. unfold Close.
  rewrite (release_count_Close_loop order 0
             {| heap := [service_for {| RPCURL := "a"; ContractAddress := "0xa" |}];
                probes := [0%nat] |}
             (service_for {| RPCURL := "a"; ContractAddress := "0xa" |})
             {| endpoint := "a"; closes := 0 |} eq_refl eq_refl).
  rewrite Hperm. vm_compute. reflexivity.
Qed.

(** ** The chain registry: initialization *)

Section Initialization.

Variable dial : string -> bool.
Variable chain_id_reply : nat -> string -> option Z.

Lemma NewERC721Service_ok (c : RPCConfig) w :
  dial (RPCURL c) = true ->
  NewERC721Service dial (RPCURL c) (ContractAddress c) w
  = (Some (length (heap w)),
     {| heap := heap w ++ [service_for c]; probes := probes w |}).
Proof. intros H. unfold NewERC721Service. rewrite H. reflexivity. Qed.

Lemma endpoint_of_fresh hp (c : RPCConfig) :
  endpoint_of (hp ++ [service_for c]) (length hp) = Some (RPCURL c).
Proof.
  unfold endpoint_of. rewrite list_lookup_middle by reflexivity. reflexivity.
Qed.

(** When the sentinel's query fails, the loop ends in an error. *)
Lemma NewServer_loop_sentinel_fails entries m w c0 :
  (0, c0) ∈ entries ->
  (forall c, (0, c) ∈ entries ->
     chain_id_reply (length (probes w)) (RPCURL c) = None) ->
  exists e w', NewServer_loop dial chain_id_reply entries m w = (Failure e, w').
Proof.
  revert m w. induction entries as [|[k c] rest IH]; intros m w Hin Hnone.
  - apply elem_of_nil in Hin. contradiction.
  - cbn [NewServer_loop].
    destruct (dial (RPCURL c)) eqn:Hd.
    2:{ unfold NewERC721Service. rewrite Hd. eauto. }
    rewrite (NewERC721Service_ok c w Hd).
    destruct (Z.eqb_spec k 0) as [->|Hk].
    + rewrite (GetChainID_live chain_id_reply _ _ _ _ (endpoint_of_fresh (heap w) c)).
      rewrite (Hnone c) by left. eauto.
    + apply IH.
      * apply elem_of_cons in Hin as [[= ? ?]|Hin]; [congruence|exact Hin].
      * intros c' Hc'. cbn [probes]. apply Hnone. right. exact Hc'.
Qed.

(** When every endpoint can be dialled, the sentinel answers [id] and
    the keys under which the entries are stored are pairwise distinct,
    the loop stores the fresh source of every entry under its key. *)
Lemma NewServer_loop_ok id entries m w :
  NoDup (key_of id <$> entries.*1) ->
  NoDup entries.*1 ->
  (forall k c, (k, c) ∈ entries -> dial (RPCURL c) = true) ->
  (forall c0, (0, c0) ∈ entries ->
     chain_id_reply (length (probes w)) (RPCURL c0) = Some id) ->
  exists m' w' ext,
    NewServer_loop dial chain_id_reply entries m w = (Success m', w') /\
    heap w' = heap w ++ ext /\
    (forall k c, (k, c) ∈ entries ->
       exists a, m' !! key_of id k = Some (Some a) /\
                 heap w' !! a = Some (service_for c) /\
                 (length (heap w) <= a)%nat) /\
    (forall k', k' ∉ key_of id <$> entries.*1 -> m' !! k' = m !! k').
Proof.
  revert m w. induction entries as [|[k c] rest IH]; intros m w Hnd Hkeys Hdial Hrep.
  - exists m, w, []. rewrite app_nil_r.
    split; [reflexivity|]. split; [reflexivity|]. split; [|reflexivity].
    intros k c Hin. apply elem_of_nil in Hin. contradiction.
  - cbn [fmap list_fmap fst] in Hnd, Hkeys.
    apply NoDup_cons in Hnd as (Hfresh & Hnd).
    apply NoDup_cons in Hkeys as (Hk & Hkeys).
    assert (Hd : dial (RPCURL c) = true) by (apply (Hdial k); left).
    cbn [NewServer_loop]. rewrite (NewERC721Service_ok c w Hd).
    set (a0 := length (heap w)).
    set (m1 := <[key_of id k := Some a0]> m).
    assert (Hstep : exists w1,
               heap w1 = heap w ++ [service_for c] /\
               (length (probes w1) = length (probes w) \/ k = 0) /\
               (if k =? 0
                then match GetChainID chain_id_reply (Some a0)
                             {| heap := heap w ++ [service_for c]; probes := probes w |} with
                     | (Success actualChainID, w2) =>
                         NewServer_loop dial chain_id_reply rest
                           (<[Int64 actualChainID := Some a0]> m) w2
                     | (Failure _, w2) => (Failure GetChainIDFailed, w2)
                     | (NilPanic, w2) => (NilPanic, w2)
                     end
                else NewServer_loop dial chain_id_reply rest (<[k := Some a0]> m)
                       {| heap := heap w ++ [service_for c]; probes := probes w |})
               = NewServer_loop dial chain_id_reply rest m1 w1).
    { unfold m1, key_of. destruct (Z.eqb_spec k 0) as [->|Hne].
      - rewrite (GetChainID_live chain_id_reply _ _ _ _ (endpoint_of_fresh (heap w) c)).
        rewrite (Hrep c) by left.
        eexists {| heap := heap w ++ [service_for c]; probes := probes w ++ [a0] |}.
        cbn [heap]. auto.
      - eexists {| heap := heap w ++ [service_for c]; probes := probes w |}.
        cbn [heap probes]. auto. }
    destruct Hstep as (w1 & Hh1 & Hp1 & ->).
    destruct (IH m1 w1 Hnd Hkeys) as (m' & w' & ext & Hrun & Hheap & Hent & Hout).
    { intros k' c' Hin. apply (Hdial k'). right. exact Hin. }
    { intros c0 Hin. destruct Hp1 as [Hp1| ->].
      - rewrite Hp1. apply Hrep. right. exact Hin.
      - exfalso. apply Hk. apply list_elem_of_fmap. exists (0, c0). auto. }
    exists m', w', ([service_for c] ++ ext).
    split; [exact Hrun|]. split; [rewrite Hheap, Hh1, <- app_assoc; reflexivity|].
    split.
    + intros k' c' Hin. apply elem_of_cons in Hin as [[= Ek Ec]|Hin].
      * subst k' c'. exists a0.
        assert (Hf : key_of id k ∉ key_of id <$> rest.*1) by exact Hfresh.
        split; [etransitivity; [apply (Hout _ Hf)|unfold m1; apply lookup_insert_eq]|].
        split; [|unfold a0; lia].
        rewrite Hheap, Hh1, <- app_assoc. apply list_lookup_middle. reflexivity.
      * destruct (Hent k' c' Hin) as (a & Ha & Hs & Hle).
        exists a. split; [exact Ha|]. split; [exact Hs|].
        rewrite Hh1, length_app in Hle. lia.
    + intros k' Hk'. cbn [fmap list_fmap fst] in Hk'.
      apply not_elem_of_cons in Hk' as (Hne & Hk').
      etransitivity; [apply (Hout _ Hk')|]. unfold m1. apply lookup_insert_ne. congruence.
Qed.

(** C8, as the code has it.  The sentinel entry is stored under
    [Int64] of the identifier it self-reports, the report cut to 64
    bits, which is the report itself within the range of [int64].  If
    the sentinel entry's query fails, construction fails.  If every
    endpoint can be dialled and the sentinel's report, cut to 64 bits,
    is 0 or is not the key of a configured entry, construction succeeds,
    the new source built for every configured entry is stored under its
    configured identifier, the sentinel's under its report cut to 64
    bits, and every registered pointer is live. *)
Theorem NewServer_keys_every_entry (order : list (Z * RPCConfig))
    (cfg : Config) (w : World) :
  order ≡ₚ map_to_list (RPCConfigs cfg) ->
  (forall c0, RPCConfigs cfg !! 0 = Some c0 ->
     chain_id_reply (length (probes w)) (RPCURL c0) = None ->
     exists e w', NewServer dial chain_id_reply order cfg w = (Failure e, w')) /\
  (forall id,
     (forall k c, RPCConfigs cfg !! k = Some c -> dial (RPCURL c) = true) ->
     (forall c0, RPCConfigs cfg !! 0 = Some c0 ->
        chain_id_reply (length (probes w)) (RPCURL c0) = Some id /\
        (Int64 id = 0 \/ RPCConfigs cfg !! Int64 id = None)) ->
     exists srv w',
       NewServer dial chain_id_reply order cfg w = (Success srv, w') /\
       (forall k c, RPCConfigs cfg !! k = Some c ->
          exists a, services srv !! (if k =? 0 then Int64 id else k) = Some (Some a) /\
                    heap w' !! a = Some (service_for c) /\
                    (length (heap w) <= a)%nat) /\
       registry_wf (services srv) (heap w')).
Proof.
  intros Hperm.
  assert (Hmem : forall k c, (k, c) ∈ order <-> RPCConfigs cfg !! k = Some c)
    by (intros k c; rewrite Hperm; apply elem_of_map_to_list).
  assert (Hkeys : NoDup order.*1)
    by (rewrite Hperm; apply NoDup_fst_map_to_list).
  split.
  - intros c0 Hc0 Hnone.
    destruct (NewServer_loop_sentinel_fails order ∅ w c0) as (e & w' & Hrun).
    + apply Hmem. exact Hc0.
    + intros c Hc. apply Hmem in Hc. rewrite Hc0 in Hc. injection Hc as <-. exact Hnone.
    + exists e, w'. unfold NewServer. rewrite Hrun. reflexivity.
  - intros id Hdial Hsent.
    destruct (NewServer_loop_ok id order ∅ w) as (m' & w' & ext & Hrun & Hheap & Hent & Hout).
    + apply NoDup_fmap_2_strong; [|exact Hkeys].
      intros k1 k2 H1 H2 Heq.
      apply list_elem_of_fmap in H1 as ([k1' c1] & -> & H1).
      apply list_elem_of_fmap in H2 as ([k2' c2] & -> & H2).
      cbn [fst] in *. apply Hmem in H1, H2. unfold key_of in Heq.
      destruct (Z.eqb_spec k1' 0) as [->|N1]; destruct (Z.eqb_spec k2' 0) as [->|N2];
        [reflexivity| | |exact Heq].
      * destruct (Hsent c1 H1) as (_ & [H0|Hfree]); [congruence|].
        rewrite Heq, H2 in Hfree. discriminate.
      * destruct (Hsent c2 H2) as (_ & [H0|Hfree]); [congruence|].
        rewrite <- Heq, H1 in Hfree. discriminate.
    + exact Hkeys.
    + intros k c Hin. apply (Hdial k). apply Hmem. exact Hin.
    + intros c0 Hin. apply Hsent. apply Hmem. exact Hin.
    + exists {| services := m'; config := cfg |}, w'.
      split; [unfold NewServer; rewrite Hrun; reflexivity|].
      cbn [services]. split.
      * intros k c Hk. apply Hmem in Hk. exact (Hent k c Hk).
      * intros k p Hk.
        destruct (decide (k ∈ key_of id <$> order.*1)) as [Hin|Hnin].
        -- apply list_elem_of_fmap in Hin as (k0 & -> & Hin).
           apply list_elem_of_fmap in Hin as ([k0' c] & -> & Hin). cbn [fst] in *.
           destruct (Hent k0' c Hin) as (a & Ha & Hs & _).
           rewrite Ha in Hk. injection Hk as <-.
           exists a, (RPCURL c). split; [reflexivity|].
           unfold endpoint_of. rewrite Hs. reflexivity.
        -- pose proof (Hout _ Hnin) as E. rewrite lookup_empty in E.
           assert (Some p = None) by (etransitivity; [symmetry; exact Hk|exact E]).
           discriminate.
Qed.

End Initialization.

Lemma NewServer_keys_every_entry_witness :
  let rpcA := {| RPCURL := "a"; ContractAddress := "0xa" |} in
  let rpcB := {| RPCURL := "b"; ContractAddress := "0xb" |} in
  let cfg := {| RPCConfigs := {[ 0 := rpcA; 3 := rpcB ]}; AddressPort := ":8080" |} in
  let order := [(0, rpcA); (3, rpcB)] in
  let w := {| heap := []; probes := [] |} in
  let dial := fun _ : string => true in
  (exists e w', NewServer dial (fun _ _ => None) order cfg w = (Failure e, w')) /\
  (exists srv w',
     NewServer dial (fun _ _ => Some 11) order cfg w = (Success srv, w') /\
     (forall k c, RPCConfigs cfg !! k = Some c ->
        exists a, services srv !! (if k =? 0 then Int64 11 else k) = Some (Some a) /\
                  heap w' !! a = Some (service_for c) /\
                  (length (heap w) <= a)%nat) /\
     registry_wf (services srv) (heap w')).
Proof.
  intros rpcA rpcB cfg order w dial.
  assert (Hperm : order ≡ₚ map_to_list (RPCConfigs cfg))
    by (vm_compute; first [reflexivity | apply perm_swap]).
  split.
  - apply (proj1 (NewServer_keys_every_entry dial (fun _ _ => None) order cfg w Hperm) rpcA).
    + vm_compute. reflexivity.
    + reflexivity.
  - apply (proj2 (NewServer_keys_every_entry dial (fun _ _ => Some 11) order cfg w Hperm) 11).
    + intros k c _. reflexivity.
    + intros c0 _. split; [reflexivity|]. right. vm_compute. reflexivity.
Defined.

(** Two configured entries, the sentinel and chain 1, where the
    sentinel's endpoint reports chain 1.  Whichever entry the range
    visits last overwrites the other: the registry ends with the single
    key 1, and the source built for the other entry is under no key. *)
Lemma NewServer_sentinel_collides :
  let rpcA := {| RPCURL := "a"; ContractAddress := "0xa" |} in
  let rpcB := {| RPCURL := "b"; ContractAddress := "0xb" |} in
  let cfg := {| RPCConfigs := {[ 0 := rpcA; 1 := rpcB ]}; AddressPort := ":8080" |} in
  let w := {| heap := []; probes := [] |} in
  let dial := fun _ : string => true in
  let reply := fun (_ : nat) (e : string) => if String.eqb e "a" then Some 1 else None in
  let first := [(1, rpcB); (0, rpcA)] in
  let second := [(0, rpcA); (1, rpcB)] in
  first ≡ₚ map_to_list (RPCConfigs cfg) /\
  second ≡ₚ map_to_list (RPCConfigs cfg) /\
  NewServer dial reply first cfg w
  = (Success {| services := {[ 1 := Some 1%nat ]}; config := cfg |},
     {| heap := [service_for rpcB; service_for rpcA]; probes := [1%nat] |}) /\
  NewServer dial reply second cfg w
  = (Success {| services := {[ 1 := Some 1%nat ]}; config := cfg |},
     {| heap := [service_for rpcA; service_for rpcB]; probes := [0%nat] |}) /\
  (forall order, order = first \/ order = second ->
     forall srv w', NewServer dial reply order cfg w = (Success srv, w') ->
       ~ (forall k c, RPCConfigs cfg !! k = Some c ->
            exists a, services srv !! (if k =? 0 then Int64 1 else k) = Some (Some a) /\
                      heap w' !! a = Some (service_for c))).
Proof.
  cbv zeta.
  assert (P1 : [(1, {| RPCURL := "b"; ContractAddress := "0xb" |});
                (0, {| RPCURL := "a"; ContractAddress := "0xa" |})]
               ≡ₚ map_to_list
                    (RPCConfigs
                       {| RPCConfigs := {[ 0 := {| RPCURL := "a"; ContractAddress := "0xa" |};
                                           1 := {| RPCURL := "b"; ContractAddress := "0xb" |} ]};
                          AddressPort := ":8080" |}))
    by (vm_compute; first [reflexivity | apply perm_swap]).
  split; [exact P1|].
  split; [rewrite <- P1; apply perm_swap|].
  split; [vm_compute; reflexivity|].
  split; [vm_compute; reflexivity|].
  intros order [-> | ->] srv w' Hrun Hall.
  - vm_compute in Hrun. injection Hrun as <- <-.
    destruct (Hall 1 {| RPCURL := "b"; ContractAddress := "0xb" |}) as (a & Ha & Hs);
      [vm_compute; reflexivity|].
    vm_compute in Ha. injection Ha as <-. vm_compute in Hs. discriminate.
  - vm_compute in Hrun. injection Hrun as <- <-.
    destruct (Hall 0 {| RPCURL := "a"; ContractAddress := "0xa" |}) as (a & Ha & Hs);
      [vm_compute; reflexivity|].
    vm_compute in Ha. injection Ha as <-. vm_compute in Hs. discriminate.
Qed.

(** The sentinel's key is the report cut to 64 bits: a single sentinel
    entry whose endpoint reports [2 ^ 63] is registered under
    [- 2 ^ 63], and one whose endpoint reports [2 ^ 64 + 1] under 1. *)
Lemma NewServer_sentinel_key_is_truncated :
  let rpcA := {| RPCURL := "a"; ContractAddress := "0xa" |} in
  let cfg := {| RPCConfigs := {[ 0 := rpcA ]}; AddressPort := ":8080" |} in
  let w := {| heap := []; probes := [] |} in
  let w' := {| heap := [service_for rpcA]; probes := [0%nat] |} in
  let dial := fun _ : string => true in
  forall order, order ≡ₚ map_to_list (RPCConfigs cfg) ->
    NewServer dial (fun _ _ => Some (2 ^ 63)) order cfg w
    = (Success {| services := {[ - 2 ^ 63 := Some 0%nat ]}; config := cfg |}, w') /\
    NewServer dial (fun _ _ => Some (2 ^ 64 + 1)) order cfg w
    = (Success {| services := {[ 1 := Some 0%nat ]}; config := cfg |}, w').
Proof.
  cbv zeta. intros order Hperm. cbn [RPCConfigs] in Hperm.
  rewrite map_to_list_singleton in Hperm.
  apply Permutation_singleton_r in Hperm. subst order.
  split; vm_compute; reflexivity.
Qed.

(** ** The chain registry: live pointers *)

Lemma endpoint_of_app hp ext a e :
  endpoint_of hp a = Some e -> endpoint_of (hp ++ ext) a = Some e.
Proof.
  unfold endpoint_of. destruct (hp !! a) as [svc|] eqn:E; [|discriminate].
  rewrite (lookup_app_l_Some _ _ _ _ E). auto.
Qed.

Lemma registry_wf_insert_fresh m hp (c : RPCConfig) k :
  registry_wf m hp ->
  registry_wf (<[k := Some (length hp)]> m) (hp ++ [service_for c]).
Proof.
  intros Hwf k' p Hk'.
  destruct (decide (k' = k)) as [->|Hne].
  - assert (Hp : Some p = Some (Some (length hp)))
      by (etransitivity; [symmetry; exact Hk'|apply lookup_insert_eq]).
    injection Hp as ->. exists (length hp), (RPCURL c).
    split; [reflexivity|apply endpoint_of_fresh].
  - destruct (Hwf k' p) as (a & e & -> & He).
    + etransitivity; [|exact Hk']. symmetry. apply lookup_insert_ne. congruence.
    + exists a, e. split; [reflexivity|apply endpoint_of_app; exact He].
Qed.

(** Whenever the loop of [NewServer] succeeds, every pointer it has
    stored is a live service with a client. *)
Lemma NewServer_loop_wf dial chain_id_reply entries m w m' w' :
  registry_wf m (heap w) ->
  NewServer_loop dial chain_id_reply entries m w = (Success m', w') ->
  registry_wf m' (heap w').
Proof.
  revert m w. induction entries as [|[k c] rest IH]; intros m w Hwf.
  - cbn. intros [= <- <-]. exact Hwf.
  - cbn [NewServer_loop]. unfold NewERC721Service.
    destruct (dial (RPCURL c)); [|discriminate].
    destruct (k =? 0).
    + rewrite (GetChainID_live chain_id_reply _ _ _ _ (endpoint_of_fresh (heap w) c)).
      destruct (chain_id_reply (length (probes w)) (RPCURL c)) as [id|]; [|discriminate].
      apply IH. cbn [heap]. apply (registry_wf_insert_fresh m (heap w) c). exact Hwf.
    + apply IH. cbn [heap]. apply (registry_wf_insert_fresh m (heap w) c). exact Hwf.
Qed.

Lemma NewServer_wf dial chain_id_reply order cfg w srv w' :
  NewServer dial chain_id_reply order cfg w = (Success srv, w') ->
  registry_wf (services srv) (heap w').
Proof.
  unfold NewServer.
  destruct (NewServer_loop dial chain_id_reply order ∅ w) as [[m'|e|] w1] eqn:Hrun;
    [|discriminate|discriminate].
  intros [= <- <-]. cbn [services].
  apply (NewServer_loop_wf dial chain_id_reply order ∅ w m' w1); [|exact Hrun].
  intros k p Hk. rewrite lookup_empty in Hk. discriminate.
Qed.

Lemma endpoint_of_Close a' w a :
  endpoint_of (heap (ERC721Service_Close a' w)) a = endpoint_of (heap w) a.
Proof.
  unfold endpoint_of, ERC721Service_Close. cbn [heap].
  destruct (decide (a' = a)) as [->|Hne].
  - rewrite list_lookup_alter_eq. destruct (heap w !! a) as [svc|]; [|reflexivity].
    cbn. destruct (client svc) eqn:E; cbn; rewrite ?E; reflexivity.
  - rewrite list_lookup_alter_ne by exact Hne. reflexivity.
Qed.

(** Teardown keeps every registered pointer live: it releases clients,
    it does not drop them. *)
Lemma Close_preserves_wf order s w :
  registry_wf (services s) (heap w) ->
  registry_wf (services s) (heap (Close order s w)).
Proof.
  unfold Close. revert w. induction order as [|[k p] rest IH]; intros w Hwf; [exact Hwf|].
  cbn [Close_loop]. destruct p as [a'|]; [|apply IH; exact Hwf].
  apply IH. intros k' p' Hk'. destruct (Hwf k' p' Hk') as (a & e & -> & He).
  exists a, e. split; [reflexivity|]. rewrite endpoint_of_Close. exact He.
Qed.

(** Resolving keeps every registered pointer live. *)
Lemma resolve_preserves_wf chain_id_reply order s w chainID r s' w' :
  registry_wf (services s) (heap w) ->
  (forall k p, (k, p) ∈ order -> services s !! k = Some p) ->
  getServiceForChainID chain_id_reply order s w chainID = (r, s', w') ->
  registry_wf (services s') (heap w') /\ heap w' = heap w.
Proof.
  intros Hwf Hsub. unfold getServiceForChainID.
  destruct (services s !! chainID) as [p|] eqn:Hl.
  { intros [= <- <- <-]. auto. }
  assert (Hscan : forall entries pr r0 w0,
             (forall k p, (k, p) ∈ entries -> services s !! k = Some p) ->
             scan chain_id_reply entries chainID {| heap := heap w; probes := pr |} = (r0, w0) ->
             heap w0 = heap w /\
             forall p, r0 = Success (Some p) -> exists k, services s !! k = Some p).
  { induction entries as [|[k p] rest IH]; intros pr r0 w0 Hin.
    - cbn. intros [= <- <-]. split; [reflexivity|discriminate].
    - cbn [scan].
      destruct (Hwf k p (Hin k p ltac:(left))) as (a & e & -> & He).
      rewrite (GetChainID_live chain_id_reply _ _ _ _ He).
      assert (Hrest : forall k' p', (k', p') ∈ rest -> services s !! k' = Some p')
        by (intros k' p' H'; apply Hin; right; exact H').
      destruct (chain_id_reply (length pr) e) as [id|]; [|apply IH; exact Hrest].
      destruct (Int64 id =? chainID); [|apply IH; exact Hrest].
      intros [= <- <-]. split; [reflexivity|].
      intros p [= <-]. exists k. apply Hin. left. }
  destruct w as [hp pr]. cbn [heap probes] in *.
  destruct (scan chain_id_reply order chainID {| heap := hp; probes := pr |})
    as [r0 w0] eqn:Hs.
  destruct (Hscan order pr r0 w0 Hsub Hs) as (Hh & Hfound).
  destruct r0 as [[p|]|e|]; intros [= <- <- <-]; rewrite Hh; split; try reflexivity;
    try exact Hwf.
  cbn [services]. intros k q Hk.
  destruct (decide (k = chainID)) as [->|Hne].
  - assert (Hq : Some q = Some p)
      by (etransitivity; [symmetry; exact Hk|apply lookup_insert_eq]).
    injection Hq as ->.
    destruct (Hfound p eq_refl) as (k0 & Hk0). exact (Hwf k0 p Hk0).
  - apply (Hwf k q). etransitivity; [|exact Hk].
    symmetry. apply lookup_insert_ne. congruence.
Qed.

(** ** Chain identifiers from the request path *)

Lemma ParseUint_loop_digits s acc v :
  ParseUint_loop s acc = inr v ->
  all_digits s /\
  v = fold_left (fun n c => n * 10 + digit_val c) (list_ascii_of_string s) acc.
Proof.
  revert acc. induction s as [|c rest IH]; intros acc.
  - cbn. intros [= <-]. split; [constructor|reflexivity].
  - cbn [ParseUint_loop].
    destruct (is_digit c) eqn:Hc; [|discriminate].
    destruct ((2 ^ 64 - 1) / 10 + 1 <=? acc); [discriminate|].
    destruct (2 ^ 64 - 1 <? acc * 10 + digit_val c); [discriminate|].
    intros H. destruct (IH _ H) as (Hd & Hv).
    split; [constructor; assumption|exact Hv].
Qed.

Lemma ParseUint_digits s v :
  ParseUint s = inr v ->
  s <> EmptyString /\ all_digits s /\ v = decimal_value s.
Proof.
  destruct s as [|c rest]; [discriminate|].
  unfold ParseUint. intros H. apply ParseUint_loop_digits in H as (Hd & Hv).
  split; [discriminate|]. split; assumption.
Qed.

Lemma decimal_value_nonneg s : all_digits s -> 0 <= decimal_value s.
Proof.
  unfold decimal_value, all_digits.
  assert (G : forall l acc, Forall (fun c => is_digit c = true) l -> 0 <= acc ->
                0 <= fold_left (fun n c => n * 10 + digit_val c) l acc).
  { induction l as [|c l IH]; intros acc Hl Hacc; [exact Hacc|].
    inversion Hl as [|? ? Hc Hl']; subst. cbn [fold_left]. apply IH; [exact Hl'|].
    unfold is_digit in Hc. apply andb_true_iff in Hc as (H1 & H2).
    apply Nat.leb_le in H1, H2. unfold digit_val. lia. }
  intros Hd. apply G; [exact Hd|lia].
Qed.

(** C10, as the code has it.  Parsing a chain identifier succeeds only
    when the string is a non-empty run of decimal digits, optionally
    preceded by one sign; the result is the signed value, which lies in
    the range of [int64]. *)
Theorem ParseChainID_signed_decimal (s : string) (n : Z) :
  ParseChainID s = inr n ->
  (exists body,
      body <> EmptyString /\ all_digits body /\
      ((s = body /\ n = decimal_value body) \/
       (s = String "+" body /\ n = decimal_value body) \/
       (s = String "-" body /\ n = - decimal_value body))) /\
  - 2 ^ 63 <= n < 2 ^ 63.
Proof.
  unfold ParseChainID.
  destruct (ParseInt s) as [e|m] eqn:Hp; [discriminate|].
  intros [= <-]. unfold ParseInt in Hp.
  destruct s as [|c rest]; [discriminate|].
  destruct (Ascii.eqb_spec c "-") as [->|Hminus].
  - cbn [orb Ascii.eqb Bool.eqb andb negb] in Hp.
    destruct (ParseUint rest) as [e|un] eqn:Hu; [discriminate|].
    destruct (Z.ltb_spec (2 ^ 63) un); [discriminate|].
    injection Hp as <-.
    destruct (ParseUint_digits _ _ Hu) as (Hne & Hd & ->).
    pose proof (decimal_value_nonneg _ Hd).
    split; [|lia].
    exists rest. split; [exact Hne|]. split; [exact Hd|]. right. right. auto.
  - cbn [andb negb] in Hp. rewrite orb_false_r in Hp.
    destruct (Ascii.eqb_spec c "+") as [->|Hplus].
    + destruct (ParseUint rest) as [e|un] eqn:Hu; [discriminate|].
      destruct (Z.leb_spec (2 ^ 63) un); [discriminate|].
      cbn [andb] in Hp. injection Hp as <-.
      destruct (ParseUint_digits _ _ Hu) as (Hne & Hd & ->).
      pose proof (decimal_value_nonneg _ Hd).
      split; [|lia].
      exists rest. split; [exact Hne|]. split; [exact Hd|]. right. left. auto.
    + destruct (ParseUint (String c rest)) as [e|un] eqn:Hu; [discriminate|].
      destruct (Z.leb_spec (2 ^ 63) un); [discriminate|].
      cbn [andb] in Hp. injection Hp as <-.
      destruct (ParseUint_digits _ _ Hu) as (Hne & Hd & ->).
      pose proof (decimal_value_nonneg _ Hd).
      split; [|lia].
      exists (String c rest). split; [exact Hne|]. split; [exact Hd|]. left. auto.
Qed.

Lemma ParseChainID_signed_decimal_witness :
  (exists body,
      body <> EmptyString /\ all_digits body /\
      (("-42"%string = body /\ -42 = decimal_value body) \/
       ("-42"%string = String "+" body /\ -42 = decimal_value body) \/
       ("-42"%string = String "-" body /\ -42 = - decimal_value body))) /\
  - 2 ^ 63 <= -42 < 2 ^ 63.
Proof.
  apply (ParseChainID_signed_decimal "-42" (-42)).
  vm_compute. reflexivity.
Defined.

(** The string "-1" parses: the accepted chain identifier is negative. *)
Lemma ParseChainID_accepts_negative :
  ParseChainID "-1" = inr (-1) /\
  ~ (forall n, ParseChainID "-1" = inr n -> 0 <= n).
Proof.
  split; [vm_compute; reflexivity|].
  intros H. specialize (H (-1) ltac:(vm_compute; reflexivity)). lia.
Qed.
(** * Further properties *)

(** ** The rendered grid *)

Lemma brightness_char_in c0 c1 c2 c3 c4 v :
  brightness_char c0 c1 c2 c3 c4 v ∈ [c0; c1; c2; c3; c4].
Proof.
  unfold brightness_char.
  repeat match goal with
         | |- context [?a <=? ?b] => destruct (a <=? b)
         end; repeat constructor.
Qed.

Section GridRow.

Variables c0 c1 c2 c3 c4 : string.
Variable b : list byte.
Variables bpp width rs ro : Z.

Hypothesis Hmax : len b < 2 ^ 63.
Hypothesis Hdepth : depth_supported bpp = true.
Hypothesis Hwidth : 0 < width < 2 ^ 31.
Hypothesis Hrs : rs = Z.quot (width * bpp + 31) 32 * 4.
Hypothesis Hro : 0 <= ro /\ ro + rs <= len b.

(** In a row that lies inside the buffer every pixel writes exactly
    one token, taken from the palette of the depth. *)
Lemma grid_cell x :
  0 <= x < width ->
  exists t,
    (if bpp =? 1 then bit_cell c0 c1 b
     else gray_cell c0 c1 c2 c3 c4 b bpp (if bpp =? 1 then 0 else Z.quot bpp 8)) ro x
    = Some [t] /\
    t ∈ palette_at_depth c0 c1 c2 c3 c4 bpp.
Proof.
  intros Hx. unfold palette_at_depth.
  apply depth_supported_cases in Hdepth.
  destruct Hdepth as [-> | [-> | [-> | [-> | ->]]]]; cbn [Z.eqb Pos.eqb].
  - unfold bit_cell.
    assert (Hj : 0 <= Z.quot x 8 < rs)
      by (rewrite Hrs; Z.to_euclidean_division_equations; lia).
    rewrite !add_id by fits.
    destruct (Z.ltb_spec (ro + Z.quot x 8) (len b)); [|lia].
    destruct (index_is_Some b (ro + Z.quot x 8)) as [v ->]; [lia|].
    cbn [mbind option_bind].
    destruct (Z.land (Z.shiftr v (7 - Z.rem x 8)) 1 =? 1); eexists;
      (split; [reflexivity|repeat constructor]).
  - unfold gray_cell. change (Z.quot 4 8) with 0.
    assert (Hx0 : GoInt.mul x 0 = 0)
      by (unfold GoInt.mul; rewrite Z.mul_0_r; reflexivity).
    assert (Hj : 0 <= rs)
      by (rewrite Hrs; Z.to_euclidean_division_equations; lia).
    rewrite Hx0.
    assert (H1 : GoInt.add ro 0 = ro) by (rewrite add_id; [lia|]; fits).
    rewrite !H1.
    destruct (Z.leb_spec ro (len b)); [|lia].
    cbn [mbind option_bind Z.eqb Pos.eqb orb].
    eexists. split; [reflexivity|apply brightness_char_in].
  - unfold gray_cell. change (Z.quot 8 8) with 1.
    assert (Hj : 0 <= x < rs)
      by (rewrite Hrs; Z.to_euclidean_division_equations; lia).
    rewrite (mul_id x 1) by fits.
    rewrite Z.mul_1_r.
    rewrite (add_id ro x) by fits.
    rewrite (add_id (ro + x) 1) by fits.
    destruct (Z.leb_spec (ro + x + 1) (len b)); [|lia].
    cbn [Z.eqb Pos.eqb].
    destruct (index_is_Some b (ro + x)) as [v ->]; [lia|].
    cbn [mbind option_bind]. eexists. split; [reflexivity|apply brightness_char_in].
  - unfold gray_cell. change (Z.quot 24 8) with 3.
    assert (Hj : 0 <= x * 3 /\ x * 3 + 2 < rs)
      by (rewrite Hrs; Z.to_euclidean_division_equations; lia).
    rewrite (mul_id x 3) by fits.
    rewrite (add_id ro (x * 3)) by fits.
    rewrite (add_id (ro + x * 3) 3), (add_id (ro + x * 3) 1), (add_id (ro + x * 3) 2)
      by fits.
    destruct (Z.leb_spec (ro + x * 3 + 3) (len b)); [|lia].
    cbn [Z.eqb Pos.eqb orb].
    destruct (index_is_Some b (ro + x * 3)) as [v0 ->]; [lia|].
    destruct (index_is_Some b (ro + x * 3 + 1)) as [v1 ->]; [lia|].
    destruct (index_is_Some b (ro + x * 3 + 2)) as [v2 ->]; [lia|].
    cbn [mbind option_bind]. eexists. split; [reflexivity|apply brightness_char_in].
  - unfold gray_cell. change (Z.quot 32 8) with 4.
    assert (Hj : 0 <= x * 4 /\ x * 4 + 3 < rs)
      by (rewrite Hrs; Z.to_euclidean_division_equations; lia).
    rewrite (mul_id x 4) by fits.
    rewrite (add_id ro (x * 4)) by fits.
    rewrite (add_id (ro + x * 4) 4), (add_id (ro + x * 4) 1), (add_id (ro + x * 4) 2)
      by fits.
    destruct (Z.leb_spec (ro + x * 4 + 4) (len b)); [|lia].
    cbn [Z.eqb Pos.eqb orb].
    destruct (index_is_Some b (ro + x * 4)) as [v0 ->]; [lia|].
    destruct (index_is_Some b (ro + x * 4 + 1)) as [v1 ->]; [lia|].
    destruct (index_is_Some b (ro + x * 4 + 2)) as [v2 ->]; [lia|].
    cbn [mbind option_bind]. eexists. split; [reflexivity|apply brightness_char_in].
Qed.

End GridRow.

(** When every write has the shape [g z] for a [z] that satisfies [P],
    so does the whole traversal. *)
Lemma mapM_images {A B C} (f : A -> option B) (g : C -> B) (P : C -> Prop) l :
  (forall x, x ∈ l -> exists z, f x = Some (g z) /\ P z) ->
  exists zs, mapM f l = Some (g <$> zs) /\ length zs = length l /\ Forall P zs.
Proof.
  induction l as [|a l IH]; intros H.
  - exists []. repeat split. constructor.
  - destruct (H a) as (z & Hz & Pz); [left|].
    destruct IH as (zs & Hzs & Hl & HP); [intros x Hx; apply H; right; exact Hx|].
    exists (z :: zs). cbn [mapM]. rewrite Hz. cbn [mbind option_bind].
    rewrite Hzs. cbn. repeat split; [f_equal; exact Hl|constructor; assumption].
Qed.

Lemma concat_singletons {A} (l : list A) : concat ((fun t => [t]) <$> l) = l.
Proof. induction l as [|a l IH]; [reflexivity|]. cbn. f_equal. exact IH. Qed.

(** X1. A buffer that passes the header checks, declares a non-negative
    width and holds all its rows renders as a grid: after the two banner
    lines, one line per row, each the indent, exactly [width] tokens and
    a line feed; every token comes from the palette, and at one bit per
    pixel only the first two tokens are used.  No pixel is skipped and
    nothing panics. *)
Theorem complete_bitmap_renders_grid c0 c1 c2 c3 c4 (b : list byte) :
  header_ok b -> len b < 2 ^ 63 -> 0 <= bmp_width b ->
  bmp_offset b + bmp_height b * bmp_row_size b <= len b ->
  exists lines : list (list string),
    decodeBMPData c0 c1 c2 c3 c4 b
    = Ok (bmp_banner b ++
          concat ((fun tokens => "    "%string :: tokens ++ [newline]) <$> lines)) /\
    length lines = Z.to_nat (bmp_height b) /\
    Forall (fun tokens =>
              length tokens = Z.to_nat (bmp_width b) /\
              Forall (fun t => t ∈ palette_at_depth c0 c1 c2 c3 c4 (bmp_bpp b)) tokens)
           lines.
Proof.
  intros Hok Hmax Hw Hfull.
  pose proof (bmp_height_range b) as Rh.
  pose proof (bmp_offset_range b) as Ro.
  pose proof (bmp_width_range b) as Rw.
  pose proof (bmp_bpp_range b) as Rb.
  assert (Hrpos : 0 <= bmp_row_size b).
  { unfold bmp_row_size. assert (0 <= bmp_width b * bmp_bpp b) by nia.
    Z.to_euclidean_division_equations. lia. }
  rewrite (decodeBMPData_unfold _ _ _ _ _ _ Hok).
  rewrite mul_id by fits_nl.
  rewrite add_id by fits_nl.
  destruct (Z.ltb_spec (len b) (bmp_offset b + bmp_row_size b * bmp_height b)); [lia|].
  destruct Hok as (_ & _ & Hd).
  destruct (mapM_images (bmp_row c0 c1 c2 c3 c4 b)
              (fun tokens => "    "%string :: tokens ++ [newline])
              (fun tokens =>
                 length tokens = Z.to_nat (bmp_width b) /\
                 Forall (fun t => t ∈ palette_at_depth c0 c1 c2 c3 c4 (bmp_bpp b)) tokens)
              (bmp_row_order b)) as (lines & Hlines & Hlen & Hall).
  { intros y Hy%elem_of_bmp_row_order. unfold bmp_row, render_row.
    rewrite mul_id by fits_nl.
    rewrite add_id by fits_nl.
    destruct (mapM_images
                ((if bmp_bpp b =? 1 then bit_cell c0 c1 b
                  else gray_cell c0 c1 c2 c3 c4 b (bmp_bpp b)
                         (if bmp_bpp b =? 1 then 0 else Z.quot (bmp_bpp b) 8))
                   (bmp_offset b + y * bmp_row_size b))
                (fun t : string => [t])
                (fun t => t ∈ palette_at_depth c0 c1 c2 c3 c4 (bmp_bpp b))
                (seqZ 0 (bmp_width b))) as (tokens & Htok & Hl & Hp).
    { intros x Hx%elem_of_seqZ.
      apply (grid_cell c0 c1 c2 c3 c4 b (bmp_bpp b) (bmp_width b) (bmp_row_size b));
        try assumption; try reflexivity; try lia. nia. }
    exists tokens. rewrite Htok. cbn [mbind option_bind].
    rewrite concat_singletons. split; [reflexivity|].
    split; [rewrite Hl; apply length_seqZ|exact Hp]. }
  exists lines. rewrite Hlines. cbn [collect].
  split; [reflexivity|]. split; [|exact Hall].
  rewrite Hlen. apply length_bmp_row_order.
Qed.

Lemma complete_bitmap_renders_grid_witness :
  let b := mk_bmp 0x4D42 54 2 2 8 [xff; x00; x00; x00; x80; x40; x00; x00] in
  exists lines : list (list string),
    decodeBMPData "0" "1" "2" "3" "4" b
    = Ok (bmp_banner b ++
          concat ((fun tokens => "    "%string :: tokens ++ [newline]) <$> lines)) /\
    length lines = Z.to_nat (bmp_height b) /\
    Forall (fun tokens =>
              length tokens = Z.to_nat (bmp_width b) /\
              Forall (fun t => t ∈ palette_at_depth "0" "1" "2" "3" "4" (bmp_bpp b)) tokens)
           lines.
Proof.
  apply (complete_bitmap_renders_grid "0" "1" "2" "3" "4"
           (mk_bmp 0x4D42 54 2 2 8 [xff; x00; x00; x00; x80; x40; x00; x00])).
  - repeat split; vm_compute; first [reflexivity | discriminate].
  - vm_compute. reflexivity.
  - vm_compute. discriminate.
  - vm_compute. discriminate.
Defined.

(** ** One and eight bits per pixel *)

Lemma land_shiftr_1 v k : 0 <= k -> Z.land (Z.shiftr v k) 1 = Z.b2z (Z.testbit v k).
Proof.
  intros Hk. change 1 with (Z.ones 1). rewrite Z.land_ones by lia.
  change (2 ^ 1) with 2. rewrite <- Z.bit0_mod, Z.shiftr_spec by lia.
  reflexivity.
Qed.

(** X2. At one bit per pixel the pixels of a row are packed eight to a
    byte, most significant bit first: pixel [x] is bit [7 - x mod 8] of
    the byte at [rowOffset + x / 8]; a set bit writes the second token, a
    clear bit the first. *)
Theorem one_bit_pixel_msb_first c0 c1 (data : list byte) (rowOffset x v : Z) :
  0 <= rowOffset -> 0 <= x -> len data < 2 ^ 63 ->
  index data (rowOffset + x / 8) = Some v ->
  bit_cell c0 c1 data rowOffset x
  = Some [if Z.testbit v (7 - x mod 8) then c1 else c0].
Proof.
  intros Hro Hx Hmax Hv.
  assert (Hin : 0 <= rowOffset + x / 8 < len data).
  { unfold index, len in *. destruct (Z.ltb_spec (rowOffset + x / 8) 0); [discriminate|].
    destruct (data !! Z.to_nat (rowOffset + x / 8)) eqn:E; [|discriminate].
    apply lookup_lt_Some in E. lia. }
  unfold bit_cell.
  rewrite Z.quot_div_nonneg, Z.rem_mod_nonneg by lia.
  rewrite add_id by fits.
  destruct (Z.ltb_spec (rowOffset + x / 8) (len data)); [|lia].
  rewrite Hv. cbn [mbind option_bind].
  assert (0 <= x mod 8 < 8) by (apply Z.mod_pos_bound; lia).
  rewrite land_shiftr_1 by lia.
  destruct (Z.testbit v (7 - x mod 8)); reflexivity.
Qed.

Lemma one_bit_pixel_msb_first_witness :
  bit_cell "." "#" [x80; x01] 0 15 = Some [if Z.testbit 1 (7 - 15 mod 8) then "#" else "."]%string.
Proof.
  apply (one_bit_pixel_msb_first "." "#" [x80; x01] 0 15 1).
  - lia.
  - lia.
  - vm_compute. reflexivity.
  - reflexivity.
Defined.

(** X3. At eight bits per pixel the stored byte is the brightness
    itself: the pixel at [rowOffset + x] writes the token of the bracket
    its byte falls in, with the inclusive lower bounds 204, 153, 102 and
    51. *)
Theorem eight_bit_pixel_raw_brightness c0 c1 c2 c3 c4
    (data : list byte) (rowOffset x v : Z) :
  0 <= rowOffset -> 0 <= x -> len data < 2 ^ 63 ->
  index data (rowOffset + x) = Some v ->
  let cell := gray_cell c0 c1 c2 c3 c4 data 8 (Z.quot 8 8) rowOffset x in
  0 <= v <= 255 /\
  (204 <= v -> cell = Some [c0]) /\
  (153 <= v < 204 -> cell = Some [c1]) /\
  (102 <= v < 153 -> cell = Some [c2]) /\
  (51 <= v < 102 -> cell = Some [c3]) /\
  (v < 51 -> cell = Some [c4]).
Proof.
  intros Hro Hx Hmax Hv cell.
  assert (Hin : 0 <= rowOffset + x < len data).
  { unfold index, len in *. destruct (Z.ltb_spec (rowOffset + x) 0); [discriminate|].
    destruct (data !! Z.to_nat (rowOffset + x)) eqn:E; [|discriminate].
    apply lookup_lt_Some in E. lia. }
  pose proof (index_byte_range _ _ _ Hv) as Rv.
  assert (Hcell : cell = Some [brightness_char c0 c1 c2 c3 c4 v]).
  { unfold cell, gray_cell. change (Z.quot 8 8) with 1.
    rewrite (mul_id x 1) by fits. rewrite Z.mul_1_r.
    rewrite (add_id rowOffset x) by fits.
    rewrite (add_id (rowOffset + x) 1) by fits.
    destruct (Z.leb_spec (rowOffset + x + 1) (len data)); [|lia].
    cbn [Z.eqb Pos.eqb]. rewrite Hv. reflexivity. }
  split; [lia|]. rewrite Hcell. unfold brightness_char.
  repeat split; intros Hbr;
    repeat match goal with
           | |- context [?a <=? ?b] => destruct (Z.leb_spec a b); try lia
           end; reflexivity.
Qed.

Lemma eight_bit_pixel_raw_brightness_witness :
  let cell := gray_cell "0" "1" "2" "3" "4" [x10; x99] 8 (Z.quot 8 8) 0 1 in
  0 <= 153 <= 255 /\
  (204 <= 153 -> cell = Some ["0"%string]) /\
  (153 <= 153 < 204 -> cell = Some ["1"%string]) /\
  (102 <= 153 < 153 -> cell = Some ["2"%string]) /\
  (51 <= 153 < 102 -> cell = Some ["3"%string]) /\
  (153 < 51 -> cell = Some ["4"%string]).
Proof.
  apply (eight_bit_pixel_raw_brightness "0" "1" "2" "3" "4" [x10; x99] 0 1 153).
  - lia.
  - lia.
  - vm_compute. reflexivity.
  - reflexivity.
Defined.

(** ** The completeness check at shallow depths *)

(** X4. At 1, 4 or 8 bits per pixel and a non-negative width, the
    required length offset + stride * height always fits the 64-bit
    [int]: the render fails as [TruncatedData] exactly when the buffer is
    shorter than it, whatever the declared dimensions. *)
Theorem truncation_check_exact_at_shallow_depths c0 c1 c2 c3 c4 (b : list byte) :
  header_ok b -> 0 <= bmp_width b ->
  bmp_bpp b = 1 \/ bmp_bpp b = 4 \/ bmp_bpp b = 8 ->
  (decodeBMPData c0 c1 c2 c3 c4 b = Err TruncatedData <->
   len b < spec_required_length b).
Proof.
  intros Hok Hw Hbpp.
  pose proof (bmp_width_range b) as Rw.
  pose proof (bmp_height_range b) as Rh.
  pose proof (bmp_offset_range b) as Ro.
  assert (Hrs : bmp_row_size b = spec_stride (bmp_width b) (bmp_bpp b))
    by (apply spec_stride_nonneg_width; lia).
  assert (Hb : 0 <= bmp_row_size b <= 2 ^ 31).
  { unfold bmp_row_size.
    destruct Hbpp as [-> | [-> | ->]]; Z.to_euclidean_division_equations; lia. }
  unfold spec_required_length. rewrite <- Hrs.
  rewrite (decodeBMPData_unfold _ _ _ _ _ _ Hok).
  rewrite mul_id by fits_nl.
  rewrite add_id by fits_nl.
  destruct (Z.ltb_spec (len b) (bmp_offset b + bmp_row_size b * bmp_height b)).
  - split; [intros _; assumption|reflexivity].
  - split; [|lia].
    destruct (mapM _ _); discriminate.
Qed.

Lemma truncation_check_exact_at_shallow_depths_witness :
  let b := mk_bmp 0x4D42 54 9 3 1 [xff; x80; x00; x00] in
  decodeBMPData "0" "1" "2" "3" "4" b = Err TruncatedData <->
  len b < spec_required_length b.
Proof.
  apply (truncation_check_exact_at_shallow_depths "0" "1" "2" "3" "4"
           (mk_bmp 0x4D42 54 9 3 1 [xff; x80; x00; x00])).
  - repeat split; vm_compute; first [reflexivity | discriminate].
  - vm_compute. discriminate.
  - left. vm_compute. reflexivity.
Defined.

(** ** What the rendering depends on *)

Section ReadBytes.

Variables c0 c1 c2 c3 c4 : string.
Variables b1 b2 : list byte.
Variables bpp width rs ro : Z.

Hypothesis Hlen : len b1 = len b2.
Hypothesis Hmax : len b1 < 2 ^ 63.
Hypothesis Hdepth : depth_supported bpp = true.
Hypothesis Hwidth : 0 < width < 2 ^ 31.
Hypothesis Hrs : rs = Z.quot (width * bpp + 31) 32 * 4.
Hypothesis Hro : 0 <= ro /\ ro + rs <= len b1.
Hypothesis Hbytes :
  forall j, 0 <= j -> row_byte_read bpp width j = true ->
            index b1 (ro + j) = index b2 (ro + j).

(** Two buffers that agree on the bytes a row reads give the row the
    same cells. *)
Lemma read_bytes_cell x :
  0 <= x < width ->
  (if bpp =? 1 then bit_cell c0 c1 b1
   else gray_cell c0 c1 c2 c3 c4 b1 bpp (if bpp =? 1 then 0 else Z.quot bpp 8)) ro x
  = (if bpp =? 1 then bit_cell c0 c1 b2
     else gray_cell c0 c1 c2 c3 c4 b2 bpp (if bpp =? 1 then 0 else Z.quot bpp 8)) ro x.
Proof.
  intros Hx. unfold row_byte_read in Hbytes.
  apply depth_supported_cases in Hdepth.
  destruct Hdepth as [-> | [-> | [-> | [-> | ->]]]]; cbn [Z.eqb Pos.eqb] in *.
  - unfold bit_cell.
    assert (Hj : 0 <= Z.quot x 8 < rs)
      by (rewrite Hrs; Z.to_euclidean_division_equations; lia).
    rewrite !add_id by fits.
    rewrite <- Hlen.
    destruct (Z.ltb_spec (ro + Z.quot x 8) (len b1)); [|lia].
    rewrite Hbytes; [reflexivity|lia|].
    apply Z.ltb_lt. Z.to_euclidean_division_equations. lia.
  - unfold gray_cell. change (Z.quot 4 8) with 0.
    rewrite <- Hlen. reflexivity.
  - unfold gray_cell. change (Z.quot 8 8) with 1.
    assert (Hj : 0 <= x < rs)
      by (rewrite Hrs; Z.to_euclidean_division_equations; lia).
    rewrite (mul_id x 1) by fits.
    rewrite Z.mul_1_r.
    rewrite (add_id ro x) by fits.
    rewrite <- Hlen.
    cbn [Z.eqb Pos.eqb].
    rewrite Hbytes; [reflexivity|lia|]. apply Z.ltb_lt. lia.
  - unfold gray_cell. change (Z.quot 24 8) with 3.
    assert (Hj : 0 <= x * 3 /\ x * 3 + 2 < rs)
      by (rewrite Hrs; Z.to_euclidean_division_equations; lia).
    rewrite (mul_id x 3) by fits.
    rewrite (add_id ro (x * 3)) by fits.
    rewrite (add_id (ro + x * 3) 1), (add_id (ro + x * 3) 2) by fits.
    rewrite <- Hlen.
    cbn [Z.eqb Pos.eqb orb].
    rewrite <- !Z.add_assoc.
    rewrite !Hbytes; [reflexivity|..]; try lia; apply Z.ltb_lt; lia.
  - unfold gray_cell. change (Z.quot 32 8) with 4.
    assert (Hj : 0 <= x * 4 /\ x * 4 + 3 < rs)
      by (rewrite Hrs; Z.to_euclidean_division_equations; lia).
    rewrite (mul_id x 4) by fits.
    rewrite (add_id ro (x * 4)) by fits.
    rewrite (add_id (ro + x * 4) 1), (add_id (ro + x * 4) 2) by fits.
    rewrite <- Hlen.
    cbn [Z.eqb Pos.eqb orb].
    rewrite <- !Z.add_assoc.
    assert (R0 : ((x * 4 <? 4 * width) && negb (Z.rem (x * 4) 4 =? 3)) = true).
    { apply andb_true_iff. split; [apply Z.ltb_lt; lia|].
      apply negb_true_iff, Z.eqb_neq. Z.to_euclidean_division_equations. lia. }
    assert (R1 : ((x * 4 + 1 <? 4 * width) && negb (Z.rem (x * 4 + 1) 4 =? 3)) = true).
    { apply andb_true_iff. split; [apply Z.ltb_lt; lia|].
      apply negb_true_iff, Z.eqb_neq. Z.to_euclidean_division_equations. lia. }
    assert (R2 : ((x * 4 + 2 <? 4 * width) && negb (Z.rem (x * 4 + 2) 4 =? 3)) = true).
    { apply andb_true_iff. split; [apply Z.ltb_lt; lia|].
      apply negb_true_iff, Z.eqb_neq. Z.to_euclidean_division_equations. lia. }
    rewrite (Hbytes (x * 4)), (Hbytes (x * 4 + 1)), (Hbytes (x * 4 + 2))
      by (first [lia | assumption]).
    reflexivity.
Qed.

End ReadBytes.

(** X5. The rendering of a complete bitmap depends only on its length,
    four header fields (data offset, width, height, bit depth) and the
    pixel bytes it reads.  Two buffers that agree on these have the same
    outcome, whatever their other header fields (file size, compression,
    resolution, colour counts), their row padding, the fourth byte of
    their 32-bit pixels, and the bytes before and after the pixel rows. *)
Theorem render_depends_on_read_bytes_only c0 c1 c2 c3 c4 (b1 b2 : list byte) :
  header_ok b1 -> header_ok b2 ->
  len b1 = len b2 -> len b1 < 2 ^ 63 ->
  bmp_offset b1 = bmp_offset b2 ->
  bmp_width b1 = bmp_width b2 ->
  Height (parseInfoHeader b1) = Height (parseInfoHeader b2) ->
  bmp_bpp b1 = bmp_bpp b2 ->
  bmp_offset b1 + bmp_height b1 * bmp_row_size b1 <= len b1 ->
  (forall y j, 0 <= y < bmp_height b1 -> 0 <= j ->
     row_byte_read (bmp_bpp b1) (bmp_width b1) j = true ->
     b1 !! Z.to_nat (bmp_offset b1 + y * bmp_row_size b1 + j)
     = b2 !! Z.to_nat (bmp_offset b1 + y * bmp_row_size b1 + j)) ->
  decodeBMPData c0 c1 c2 c3 c4 b1 = decodeBMPData c0 c1 c2 c3 c4 b2.
Proof.
  intros Hok1 Hok2 Hlen Hmax Hoff Hw Hh Hbpp Hfull Hbytes.
  assert (Hrs : bmp_row_size b2 = bmp_row_size b1)
    by (unfold bmp_row_size; rewrite Hw, Hbpp; reflexivity).
  assert (Hht : bmp_height b2 = bmp_height b1)
    by (unfold bmp_height; rewrite Hh; reflexivity).
  assert (Hban : bmp_banner b2 = bmp_banner b1)
    by (unfold bmp_banner; rewrite Hw, Hbpp, Hht; reflexivity).
  assert (Hord : bmp_row_order b2 = bmp_row_order b1)
    by (unfold bmp_row_order, bmp_top_down; rewrite Hh, Hht; reflexivity).
  rewrite (decodeBMPData_unfold _ _ _ _ _ _ Hok1).
  rewrite (decodeBMPData_unfold _ _ _ _ _ _ Hok2).
  rewrite <- Hlen, <- Hoff, Hrs, Hht, Hban, Hord.
  destruct (len b1 <? _); [reflexivity|].
  replace (mapM (bmp_row c0 c1 c2 c3 c4 b2) (bmp_row_order b1))
    with (mapM (bmp_row c0 c1 c2 c3 c4 b1) (bmp_row_order b1)); [reflexivity|].
  apply Forall_mapM_ext, Forall_forall. intros y Hy%elem_of_bmp_row_order.
  pose proof (bmp_width_range b1) as Rw.
  pose proof (bmp_offset_range b1) as Ro.
  pose proof (bmp_height_range b1) as Rh.
  unfold bmp_row, render_row. rewrite <- Hoff, <- Hw, <- Hbpp, Hrs.
  destruct (Z.le_gt_cases (bmp_width b1) 0) as [Hneg|Hpos].
  { rewrite seqZ_nil by lia. reflexivity. }
  assert (Hrpos : 0 <= bmp_row_size b1).
  { unfold bmp_row_size. pose proof (bmp_bpp_range b1).
    assert (0 <= bmp_width b1 * bmp_bpp b1) by nia.
    Z.to_euclidean_division_equations. lia. }
  rewrite mul_id by fits_nl.
  rewrite add_id by fits_nl.
  match goal with
  | |- mapM ?f ?l ≫= _ = mapM ?g _ ≫= _ =>
      replace (mapM f l) with (mapM g l); [reflexivity|]
  end.
  apply Forall_mapM_ext, Forall_seqZ. intros x Hx. symmetry.
  destruct Hok1 as (_ & _ & Hd).
  apply (read_bytes_cell c0 c1 c2 c3 c4 b1 b2 (bmp_bpp b1) (bmp_width b1)
           (bmp_row_size b1)); try assumption; try reflexivity; try lia.
  - nia.
  - intros j Hj Hread. unfold index.
    destruct (Z.ltb_spec (bmp_offset b1 + y * bmp_row_size b1 + j) 0); [nia|].
    rewrite (Hbytes y j) by (first [lia | assumption]). reflexivity.
Qed.

Lemma render_depends_on_read_bytes_only_witness :
  let b1 := mk_bmp 0x4D42 54 1 1 32 [x10; x20; x30; x00] in
  let b2 := mk_bmp 0x4D42 54 1 1 32 [x10; x20; x30; xff] in
  decodeBMPData "0" "1" "2" "3" "4" b1 = decodeBMPData "0" "1" "2" "3" "4" b2.
Proof.
  apply (render_depends_on_read_bytes_only "0" "1" "2" "3" "4"
           (mk_bmp 0x4D42 54 1 1 32 [x10; x20; x30; x00])
           (mk_bmp 0x4D42 54 1 1 32 [x10; x20; x30; xff])).
  - repeat split; vm_compute; first [reflexivity | discriminate].
  - repeat split; vm_compute; first [reflexivity | discriminate].
  - vm_compute. reflexivity.
  - vm_compute. reflexivity.
  - vm_compute. reflexivity.
  - vm_compute. reflexivity.
  - vm_compute. reflexivity.
  - vm_compute. reflexivity.
  - vm_compute. discriminate.
  - intros y j Hy Hj Hread.
    assert (Hh : bmp_height (mk_bmp 0x4D42 54 1 1 32 [x10; x20; x30; x00]) = 1)
      by (vm_compute; reflexivity).
    rewrite Hh in Hy. assert (y = 0) as -> by lia.
    assert (Hr : row_byte_read 32 1 j = true) by exact Hread.
    unfold row_byte_read in Hr. cbn [Z.eqb Pos.eqb] in Hr.
    apply andb_true_iff in Hr as (Hlt & _). apply Z.ltb_lt in Hlt.
    assert (Ej : j = 0 \/ j = 1 \/ j = 2 \/ j = 3) by lia.
    destruct Ej as [-> | [-> | [-> | ->]]]; try (vm_compute; reflexivity).
    vm_compute in Hread. discriminate.
Defined.

(** ** The chain registry: what resolving may change *)

(** Whatever the sources answer, the discovery loop leaves the heap
    alone, queries a prefix of the entries in range order, and returns
    only a pointer that one of the entries holds. *)
Lemma scan_frame chain_id_reply entries chainID hp pr r0 w0 :
  (forall k p, (k, p) ∈ entries -> exists a e, p = Some a /\ endpoint_of hp a = Some e) ->
  scan chain_id_reply entries chainID {| heap := hp; probes := pr |} = (r0, w0) ->
  heap w0 = hp /\
  (exists n, (n <= length entries)%nat /\ probes w0 = pr ++ probed (take n entries)) /\
  match r0 with
  | Success (Some p) => exists k, (k, p) ∈ entries
  | Success None => True
  | Failure _ => False
  | NilPanic => False
  end.
Proof.
  revert pr r0 w0. induction entries as [|[k p] rest IH]; intros pr r0 w0 Hlive.
  - cbn. intros [= <- <-]. split; [reflexivity|]. split; [|exact I].
    exists 0%nat. split; [lia|]. cbn. rewrite app_nil_r. reflexivity.
  - cbn [scan].
    destruct (Hlive k p) as (a & e & -> & He); [left|].
    rewrite (GetChainID_live chain_id_reply _ _ _ _ He).
    assert (Hrest : forall r1 w1,
               scan chain_id_reply rest chainID {| heap := hp; probes := pr ++ [a] |}
               = (r1, w1) ->
               heap w1 = hp /\
               (exists n, (n <= length ((k, Some a) :: rest))%nat /\
                          probes w1 = pr ++ probed (take n ((k, Some a) :: rest))) /\
               match r1 with
               | Success (Some p) => exists k', (k', p) ∈ (k, Some a) :: rest
               | Success None => True
               | Failure _ => False
               | NilPanic => False
               end).
    { intros r1 w1 Hrun.
      destruct (IH (pr ++ [a]) r1 w1) as (Hh & (n & Hn & Hp) & Hr); [|exact Hrun|].
      { intros k' p' H'. apply (Hlive k' p'). right. exact H'. }
      split; [exact Hh|]. split.
      - exists (S n). split; [rewrite length_cons; apply le_n_S; exact Hn|].
        rewrite Hp, <- app_assoc. reflexivity.
      - destruct r1 as [[q|]|e1|]; try exact Hr.
        destruct Hr as (k' & Hk'). exists k'. right. exact Hk'. }
    destruct (chain_id_reply (length pr) e) as [id|]; [|apply Hrest].
    destruct (Int64 id =? chainID); [|apply Hrest].
    intros [= <- <-]. split; [reflexivity|]. split.
    + exists 1%nat. split; [rewrite length_cons; lia|]. reflexivity.
    + exists k. left.
Qed.

(** X6. Resolving a chain identifier in a registry of live sources,
    whatever the sources answer: it never panics and fails only with the
    not-found error for the requested identifier, leaving the registry
    as it was; it allocates nothing and keeps the configuration; it
    queries a prefix of the registered sources, in range order; it
    changes no key other than the requested one; and the source it
    returns was registered under some key before the call. *)
Theorem resolve_frame chain_id_reply (order : list (Z * service_ptr))
    (s : Server) (w : World) (chainID : Z) r s' w' :
  registry_wf (services s) (heap w) ->
  (forall k p, (k, p) ∈ order -> services s !! k = Some p) ->
  getServiceForChainID chain_id_reply order s w chainID = (r, s', w') ->
  heap w' = heap w /\ config s' = config s /\
  (exists n, (n <= length order)%nat /\
             probes w' = probes w ++ probed (take n order)) /\
  (forall k, k <> chainID -> services s' !! k = services s !! k) /\
  match r with
  | Success p => services s' !! chainID = Some p /\
                 exists k, services s !! k = Some p
  | Failure e => e = NoRPCServer chainID /\ s' = s /\
                 services s !! chainID = None
  | NilPanic => False
  end.
Proof.
  intros Hwf Hsub. unfold getServiceForChainID.
  destruct (services s !! chainID) as [p|] eqn:Hl.
  { intros [= <- <- <-]. split; [reflexivity|]. split; [reflexivity|].
    split; [exists 0%nat; split; [lia|]; cbn; rewrite app_nil_r; reflexivity|].
    split; [reflexivity|]. split; [exact Hl|]. exists chainID. exact Hl. }
  destruct w as [hp pr]. cbn [heap probes] in *.
  destruct (scan chain_id_reply order chainID {| heap := hp; probes := pr |})
    as [r0 w0] eqn:Hs.
  destruct (scan_frame chain_id_reply order chainID hp pr r0 w0) as (Hh & Hp & Hr);
    [|exact Hs|].
  { intros k p Hin. exact (Hwf k p (Hsub k p Hin)). }
  destruct r0 as [[p|]|e|]; try contradiction; intros [= <- <- <-].
  - split; [exact Hh|]. split; [reflexivity|]. split; [exact Hp|].
    cbn [services]. split.
    + intros k Hne. apply lookup_insert_ne. congruence.
    + split; [apply lookup_insert_eq|].
      destruct Hr as (k & Hk). exists k. apply Hsub. exact Hk.
  - split; [exact Hh|]. split; [reflexivity|]. split; [exact Hp|].
    split; [reflexivity|]. auto.
Qed.

Lemma resolve_frame_witness :
  let order := [(1, Some 0%nat); (2, Some 1%nat)] in
  let s' := {| services := <[7 := Some 1%nat]> (services demo_server);
               config := config demo_server |} in
  let w' := {| heap := demo_heap; probes := [0%nat; 1%nat] |} in
  heap w' = heap demo_world /\ config s' = config demo_server /\
  (exists n, (n <= length order)%nat /\
             probes w' = probes demo_world ++ probed (take n order)) /\
  (forall k, k <> 7 -> services s' !! k = services demo_server !! k) /\
  services s' !! 7 = Some (Some 1%nat) /\
  exists k, services demo_server !! k = Some (Some 1%nat).
Proof.
  apply (resolve_frame demo_reply [(1, Some 0%nat); (2, Some 1%nat)]
           demo_server demo_world 7 (Success (Some 1%nat))).
  - apply registry_wfb_sound. vm_compute. reflexivity.
  - intros k p Hin.
    apply elem_of_cons in Hin as [[= -> ->]|Hin]; [vm_compute; reflexivity|].
    apply elem_of_cons in Hin as [[= -> ->]|Hin]; [vm_compute; reflexivity|].
    apply elem_of_nil in Hin. contradiction.
  - vm_compute. reflexivity.
Defined.

(** ** The chain registry: what construction leaves behind *)

Lemma size_insert_le (m : gmap Z service_ptr) k p :
  (size (<[k := p]> m) <= S (size m))%nat.
Proof. rewrite map_size_insert. destruct (m !! k); cbn; lia. Qed.

(** Every run of the loop of [NewServer], whatever the network does.
    On success one source has been allocated per entry, in range order,
    one query has been issued per sentinel entry, and every key of the
    result was there before or is the key of an entry: its configured
    identifier, or for a sentinel an identifier its endpoint reported.
    On failure the sources allocated before the failing entry are still
    in the heap.  The loop never panics. *)
Lemma NewServer_loop_shape dial chain_id_reply entries m w r w' :
  NewServer_loop dial chain_id_reply entries m w = (r, w') ->
  match r with
  | Success m' =>
      heap w' = heap w ++ (service_for <$> entries.*2) /\
      length (probes w')
      = (length (probes w)
         + sentinel_count entries)%nat /\
      (size m' <= size m + length entries)%nat /\
      (forall k p, m' !! k = Some p ->
         m !! k = Some p \/
         exists i k0 c,
           entries !! i = Some (k0, c) /\ p = Some (length (heap w) + i)%nat /\
           (k0 <> 0 /\ k = k0 \/
            k0 = 0 /\ exists t id, chain_id_reply t (RPCURL c) = Some id /\ k = Int64 id))
  | Failure e =>
      exists pre k c post,
        entries = pre ++ (k, c) :: post /\
        (forall k' c', (k', c') ∈ pre -> dial (RPCURL c') = true) /\
        (e = CreateServiceFailed k /\ dial (RPCURL c) = false /\
         heap w' = heap w ++ (service_for <$> pre.*2)
         \/
         e = GetChainIDFailed /\ k = 0 /\ dial (RPCURL c) = true /\
         heap w' = heap w ++ (service_for <$> (pre ++ [(k, c)]).*2))
  | NilPanic => False
  end.
Proof.
  revert m w r w'. induction entries as [|[k c] rest IH]; intros m w r w'.
  - cbn. intros [= <- <-]. rewrite app_nil_r.
    split; [reflexivity|]. split; [lia|]. split; [lia|]. auto.
  - cbn [NewServer_loop].
    destruct (dial (RPCURL c)) eqn:Hd.
    2:{ unfold NewERC721Service. rewrite Hd. intros [= <- <-].
        exists [], k, c, rest. split; [reflexivity|]. split.
        - intros k' c' Hin. apply elem_of_nil in Hin. contradiction.
        - left. split; [reflexivity|]. split; [exact Hd|].
          cbn. rewrite app_nil_r. reflexivity. }
    rewrite (NewERC721Service_ok dial c w Hd).
    assert (Hstep : forall key w1 (Hkey : k <> 0 /\ key = k \/
                       k = 0 /\ exists t id, chain_id_reply t (RPCURL c) = Some id /\
                                              key = Int64 id),
               heap w1 = heap w ++ [service_for c] ->
               length (probes w1)
               = (length (probes w) + (if decide (k = 0%Z) then 1 else 0))%nat ->
               NewServer_loop dial chain_id_reply rest
                 (<[key := Some (length (heap w))]> m) w1 = (r, w') ->
               match r with
               | Success m' =>
                   heap w' = heap w ++ (service_for <$> ((k, c) :: rest).*2) /\
                   length (probes w')
                   = (length (probes w)
                      + sentinel_count ((k, c) :: rest))%nat /\
                   (size m' <= size m + length ((k, c) :: rest))%nat /\
                   (forall k1 p, m' !! k1 = Some p ->
                      m !! k1 = Some p \/
                      exists i k0 c0,
                        ((k, c) :: rest) !! i = Some (k0, c0) /\
                        p = Some (length (heap w) + i)%nat /\
                        (k0 <> 0 /\ k1 = k0 \/
                         k0 = 0 /\ exists t id, chain_id_reply t (RPCURL c0) = Some id /\
                                                k1 = Int64 id))
               | Failure e =>
                   exists pre k1 c1 post,
                     (k, c) :: rest = pre ++ (k1, c1) :: post /\
                     (forall k' c', (k', c') ∈ pre -> dial (RPCURL c') = true) /\
                     (e = CreateServiceFailed k1 /\ dial (RPCURL c1) = false /\
                      heap w' = heap w ++ (service_for <$> pre.*2)
                      \/
                      e = GetChainIDFailed /\ k1 = 0 /\ dial (RPCURL c1) = true /\
                      heap w' = heap w ++ (service_for <$> (pre ++ [(k1, c1)]).*2))
               | NilPanic => False
               end).
    { intros key w1 Hkey Hh1 Hp1 Hrun. apply IH in Hrun.
      destruct r as [m'|e|]; [| |exact Hrun].
      - destruct Hrun as (Hheap & Hprobes & Hsize & Hkeys).
        split; [rewrite Hheap, Hh1, <- app_assoc; reflexivity|].
        split.
        { rewrite Hprobes, Hp1. unfold sentinel_count. rewrite filter_cons. cbn [fst].
          destruct (decide (k = 0)); rewrite ?length_cons; lia. }
        split.
        { eapply Nat.le_trans; [exact Hsize|]. rewrite length_cons.
          rewrite Nat.add_succ_r, <- Nat.add_succ_l.
          apply Nat.add_le_mono_r, size_insert_le. }
        intros k1 p Hk1. destruct (Hkeys k1 p Hk1) as [Hold|(i & k0 & c0 & Hi & Hp & Hk0)].
        + destruct (decide (k1 = key)) as [->|Hne].
          * right. exists 0%nat, k, c. split; [reflexivity|].
            assert (E : Some p = Some (Some (length (heap w))))
              by (etransitivity; [symmetry; exact Hold|apply lookup_insert_eq]).
            injection E as ->. split; [f_equal; lia|]. exact Hkey.
          * left. etransitivity; [|exact Hold]. symmetry.
            apply lookup_insert_ne. congruence.
        + right. exists (S i), k0, c0. split; [exact Hi|].
          split; [|exact Hk0]. rewrite Hp, Hh1, length_app. cbn [length]. f_equal. lia.
      - destruct Hrun as (pre & k1 & c1 & post & -> & Hpre & Hcase).
        exists ((k, c) :: pre), k1, c1, post. split; [reflexivity|]. split.
        { intros k' c' Hin. apply elem_of_cons in Hin as [[= -> ->]|Hin];
            [exact Hd|exact (Hpre k' c' Hin)]. }
        destruct Hcase as [(He & Hd1 & Hheap)|(He & Hk1 & Hd1 & Hheap)].
        + left. split; [exact He|]. split; [exact Hd1|].
          rewrite Hheap, Hh1, <- app_assoc. reflexivity.
        + right. split; [exact He|]. split; [exact Hk1|]. split; [exact Hd1|].
          rewrite Hheap, Hh1, <- app_assoc. reflexivity. }
    destruct (Z.eqb_spec k 0) as [->|Hne].
    + rewrite (GetChainID_live chain_id_reply _ _ _ _ (endpoint_of_fresh (heap w) c)).
      destruct (chain_id_reply (length (probes w)) (RPCURL c)) as [id|] eqn:Hrep.
      * apply Hstep.
        -- right. split; [reflexivity|]. eauto.
        -- reflexivity.
        -- cbn [probes]. rewrite length_app. reflexivity.
      * intros [= <- <-]. exists [], 0, c, rest. split; [reflexivity|]. split.
        -- intros k' c' Hin. apply elem_of_nil in Hin. contradiction.
        -- right. split; [reflexivity|]. split; [reflexivity|]. split; [exact Hd|].
           reflexivity.
    + apply Hstep.
      * left. auto.
      * reflexivity.
      * cbn [probes]. rewrite decide_False by exact Hne. lia.
Qed.

(** X7. Whenever construction succeeds, whatever the network did: the
    server keeps the configuration it was given; exactly one source was
    allocated per configured entry, in range order, and none of them has
    been released; one chain identifier query was issued per sentinel
    entry; the registry has at most one key per entry; every key is the
    configured identifier of an entry that is not the sentinel, or an
    identifier that a sentinel entry's endpoint reported, and it holds
    the source allocated for that entry; every registered pointer is
    live. *)
Theorem NewServer_success_shape dial chain_id_reply (order : list (Z * RPCConfig))
    (cfg : Config) (w : World) (srv : Server) (w' : World) :
  NewServer dial chain_id_reply order cfg w = (Success srv, w') ->
  config srv = cfg /\
  heap w' = heap w ++ (service_for <$> order.*2) /\
  (forall a, (length (heap w) <= a)%nat -> release_count w' a = 0%nat) /\
  length (probes w')
  = (length (probes w)
     + sentinel_count order)%nat /\
  (size (services srv) <= length order)%nat /\
  (forall k p, services srv !! k = Some p ->
     exists i k0 c,
       order !! i = Some (k0, c) /\ p = Some (length (heap w) + i)%nat /\
       (k0 <> 0 /\ k = k0 \/
        k0 = 0 /\ exists t id, chain_id_reply t (RPCURL c) = Some id /\ k = Int64 id)) /\
  registry_wf (services srv) (heap w').
Proof.
  intros Hrun. pose proof (NewServer_wf _ _ _ _ _ _ _ Hrun) as Hwf.
  unfold NewServer in Hrun.
  destruct (NewServer_loop dial chain_id_reply order ∅ w) as [[m'|e|] w1] eqn:Hloop;
    [|discriminate|discriminate].
  injection Hrun as <- <-.
  apply NewServer_loop_shape in Hloop as (Hheap & Hprobes & Hsize & Hkeys).
  cbn [config services] in *.
  split; [reflexivity|]. split; [exact Hheap|]. split.
  { intros a Ha. unfold release_count. rewrite Hheap.
    rewrite lookup_app_r by exact Ha.
    destruct ((service_for <$> order.*2) !! (a - length (heap w))%nat) as [svc|] eqn:E;
      [|reflexivity].
    apply list_lookup_fmap_Some in E as (c & -> & _). reflexivity. }
  split; [exact Hprobes|]. split; [rewrite map_size_empty in Hsize; lia|].
  split; [|exact Hwf].
  intros k p Hk. destruct (Hkeys k p Hk) as [Hold|Hnew]; [|exact Hnew].
  rewrite lookup_empty in Hold. discriminate.
Qed.

Lemma NewServer_success_shape_witness :
  let rpcA := {| RPCURL := "a"; ContractAddress := "0xa" |} in
  let rpcB := {| RPCURL := "b"; ContractAddress := "0xb" |} in
  let cfg := {| RPCConfigs := {[ 0 := rpcA; 3 := rpcB ]}; AddressPort := ":8080" |} in
  let order := [(0, rpcA); (3, rpcB)] in
  let w := {| heap := []; probes := [] |} in
  let reply := fun (_ : nat) (_ : string) => Some 11 in
  let srv := {| services := <[3 := Some 1%nat]> (<[11 := Some 0%nat]> ∅); config := cfg |} in
  let w' := {| heap := [service_for rpcA; service_for rpcB]; probes := [0%nat] |} in
  config srv = cfg /\
  heap w' = heap w ++ (service_for <$> order.*2) /\
  (forall a, (length (heap w) <= a)%nat -> release_count w' a = 0%nat) /\
  length (probes w')
  = (length (probes w)
     + sentinel_count order)%nat /\
  (size (services srv) <= length order)%nat /\
  (forall k p, services srv !! k = Some p ->
     exists i k0 c,
       order !! i = Some (k0, c) /\ p = Some (length (heap w) + i)%nat /\
       (k0 <> 0 /\ k = k0 \/
        k0 = 0 /\ exists t id, reply t (RPCURL c) = Some id /\ k = Int64 id)) /\
  registry_wf (services srv) (heap w').
Proof.
  apply (NewServer_success_shape (fun _ => true) (fun _ _ => Some 11)
           [(0, {| RPCURL := "a"; ContractAddress := "0xa" |});
            (3, {| RPCURL := "b"; ContractAddress := "0xb" |})]).
  vm_compute. reflexivity.
Defined.

(** X8. Construction never panics, and when it fails it fails at one
    entry of the range: every entry before it was dialled, and either
    the entry's endpoint could not be dialled, and the error carries the
    entry's configured identifier, or the entry is the sentinel and its
    chain identifier query failed.  The sources allocated before the
    failure stay in the heap: construction releases none of them. *)
Theorem NewServer_failure_shape dial chain_id_reply (order : list (Z * RPCConfig))
    (cfg : Config) (w : World) (r : result Server) (w' : World) :
  NewServer dial chain_id_reply order cfg w = (r, w') ->
  r <> NilPanic /\
  forall e, r = Failure e ->
    exists pre k c post,
      order = pre ++ (k, c) :: post /\
      (forall k' c', (k', c') ∈ pre -> dial (RPCURL c') = true) /\
      (e = CreateServiceFailed k /\ dial (RPCURL c) = false /\
       heap w' = heap w ++ (service_for <$> pre.*2)
       \/
       e = GetChainIDFailed /\ k = 0 /\ dial (RPCURL c) = true /\
       heap w' = heap w ++ (service_for <$> (pre ++ [(k, c)]).*2)).
Proof.
  unfold NewServer.
  destruct (NewServer_loop dial chain_id_reply order ∅ w) as [r0 w1] eqn:Hloop.
  apply NewServer_loop_shape in Hloop.
  destruct r0 as [m'|e0|]; [| |contradiction]; intros [= <- <-].
  - split; [discriminate|]. intros e [=].
  - split; [discriminate|]. intros e [= <-]. exact Hloop.
Qed.

Lemma NewServer_failure_shape_witness :
  let rpcA := {| RPCURL := "a"; ContractAddress := "0xa" |} in
  let rpcB := {| RPCURL := "b"; ContractAddress := "0xb" |} in
  let order := [(1, rpcA); (2, rpcB)] in
  let dial := fun u : string => negb (String.eqb u "b") in
  let w := {| heap := []; probes := [] |} in
  let w' := {| heap := [service_for rpcA]; probes := [] |} in
  @Failure Server (CreateServiceFailed 2) <> NilPanic /\
  forall e, @Failure Server (CreateServiceFailed 2) = Failure e ->
    exists pre k c post,
      order = pre ++ (k, c) :: post /\
      (forall k' c', (k', c') ∈ pre -> dial (RPCURL c') = true) /\
      (e = CreateServiceFailed k /\ dial (RPCURL c) = false /\
       heap w' = heap w ++ (service_for <$> pre.*2)
       \/
       e = GetChainIDFailed /\ k = 0 /\ dial (RPCURL c) = true /\
       heap w' = heap w ++ (service_for <$> (pre ++ [(k, c)]).*2)).
Proof.
  apply (NewServer_failure_shape (fun u : string => negb (String.eqb u "b"))
           (fun _ _ => None)
           [(1, {| RPCURL := "a"; ContractAddress := "0xa" |});
            (2, {| RPCURL := "b"; ContractAddress := "0xb" |})]
           {| RPCConfigs := ∅; AddressPort := ":8080" |}
           {| heap := []; probes := [] |}).
  vm_compute. reflexivity.
Defined.

(** ** The chain registry: teardown, again *)

Lemma ERC721Service_Close_comm a b w :
  ERC721Service_Close a (ERC721Service_Close b w)
  = ERC721Service_Close b (ERC721Service_Close a w).
Proof.
  unfold ERC721Service_Close. cbn [heap probes]. f_equal.
  destruct (decide (a = b)) as [->|Hne]; [reflexivity|].
  apply list_alter_alter_ne. exact Hne.
Qed.

(** X9. Teardown does not depend on the order in which the range visits
    the registry: two orders that visit the same entries leave the same
    world. *)
Theorem Close_order_irrelevant (order1 order2 : list (Z * service_ptr))
    (s : Server) (w : World) :
  order1 ≡ₚ order2 ->
  Close order1 s w = Close order2 s w.
Proof.
  unfold Close. intros Hperm. revert w.
  induction Hperm as [|[k p] l1 l2 _ IH|[k1 p1] [k2 p2] l|l1 l2 l3 _ IH1 _ IH2];
    intros w.
  - reflexivity.
  - cbn [Close_loop]. destruct p; apply IH.
  - cbn [Close_loop]. destruct p1 as [a|], p2 as [b|]; try reflexivity.
    rewrite ERC721Service_Close_comm. reflexivity.
  - rewrite IH1. apply IH2.
Qed.

Lemma Close_order_irrelevant_witness :
  Close [(1, Some 0%nat); (2, Some 1%nat)] demo_server demo_world
  = Close [(2, Some 1%nat); (1, Some 0%nat)] demo_server demo_world.
Proof.
  apply (Close_order_irrelevant [(1, Some 0%nat); (2, Some 1%nat)]
           [(2, Some 1%nat); (1, Some 0%nat)] demo_server demo_world).
  apply perm_swap.
Defined.

Lemma Close_loop_frame entries w :
  probes (Close_loop entries w) = probes w /\
  length (heap (Close_loop entries w)) = length (heap w) /\
  (forall a, endpoint_of (heap (Close_loop entries w)) a = endpoint_of (heap w) a) /\
  (forall a, contractAddress <$> heap (Close_loop entries w) !! a
             = contractAddress <$> heap w !! a) /\
  (forall a, Some a ∉ entries.*2 -> heap (Close_loop entries w) !! a = heap w !! a).
Proof.
  revert w. induction entries as [|[k p] rest IH]; intros w.
  - cbn. auto.
  - cbn [Close_loop]. destruct p as [b|].
    + destruct (IH (ERC721Service_Close b w)) as (Hp & Hl & He & Hc & Hother).
      split; [rewrite Hp; reflexivity|].
      split; [rewrite Hl; unfold ERC721Service_Close; cbn [heap]; apply length_alter|].
      split; [intros a; rewrite He; apply endpoint_of_Close|].
      split.
      * intros a. rewrite Hc. unfold ERC721Service_Close. cbn [heap].
        destruct (decide (b = a)) as [->|Hne].
        -- rewrite list_lookup_alter_eq. destruct (heap w !! a) as [svc|]; [|reflexivity].
           cbn. destruct (client svc); reflexivity.
        -- rewrite list_lookup_alter_ne by exact Hne. reflexivity.
      * intros a Ha. cbn [fmap list_fmap snd] in Ha.
        apply not_elem_of_cons in Ha as (Hne & Ha).
        rewrite (Hother a Ha). unfold ERC721Service_Close. cbn [heap].
        apply list_lookup_alter_ne. congruence.
    + destruct (IH w) as (Hp & Hl & He & Hc & Hother).
      split; [exact Hp|]. split; [exact Hl|]. split; [exact He|]. split; [exact Hc|].
      intros a Ha. cbn [fmap list_fmap snd] in Ha.
      apply not_elem_of_cons in Ha as (_ & Ha). exact (Hother a Ha).
Qed.

(** X10. Teardown changes nothing but release counts: it issues no
    query, allocates and frees nothing, keeps the endpoint and the
    contract address of every source, and leaves alone every source
    that is under no key.  It does not empty the registry either, so a
    second teardown releases every registered live source once more for
    each of its keys. *)
Theorem Close_releases_only (order order2 : list (Z * service_ptr))
    (s : Server) (w : World) :
  order ≡ₚ map_to_list (services s) ->
  order2 ≡ₚ map_to_list (services s) ->
  probes (Close order s w) = probes w /\
  length (heap (Close order s w)) = length (heap w) /\
  (forall a, endpoint_of (heap (Close order s w)) a = endpoint_of (heap w) a) /\
  (forall a, contractAddress <$> heap (Close order s w) !! a
             = contractAddress <$> heap w !! a) /\
  (forall a, (forall k, services s !! k <> Some (Some a)) ->
             heap (Close order s w) !! a = heap w !! a) /\
  (forall a e, endpoint_of (heap w) a = Some e ->
     release_count (Close order2 s (Close order s w)) a
     = (release_count w a + 2 * registered_keys (services s) a)%nat).
Proof.
  intros Hperm Hperm2. unfold Close.
  destruct (Close_loop_frame order w) as (Hp & Hl & He & Hc & Hother).
  split; [exact Hp|]. split; [exact Hl|]. split; [exact He|]. split; [exact Hc|].
  split.
  - intros a Hfree. apply Hother. intros Hin.
    apply list_elem_of_fmap in Hin as ([k p] & Hp' & Hin). cbn [snd] in Hp'. subst p.
    rewrite Hperm in Hin. apply elem_of_map_to_list in Hin.
    exact (Hfree k Hin).
  - intros a e Ha.
    assert (Hlive : forall hp, endpoint_of hp a = Some e ->
               exists svc c, hp !! a = Some svc /\ client svc = Some c).
    { intros hp. unfold endpoint_of.
      destruct (hp !! a) as [svc|]; [|discriminate]. cbn [mbind option_bind].
      destruct (client svc) as [c|] eqn:E; [|discriminate]. intros _. eauto. }
    destruct (Hlive (heap w) Ha) as (svc & c & Hs & Hcl).
    destruct (Hlive (heap (Close_loop order w))) as (svc' & c' & Hs' & Hcl');
      [rewrite He; exact Ha|].
    rewrite (release_count_Close_loop order2 a _ svc' c' Hs' Hcl').
    rewrite (release_count_Close_loop order a _ svc c Hs Hcl).
    unfold registered_keys. rewrite Hperm, Hperm2.
    rewrite <- Nat.add_assoc. f_equal. cbn [Nat.mul]. rewrite Nat.add_0_r. reflexivity.
Qed.

Lemma Close_releases_only_witness :
  let order := [(1, Some 0%nat); (2, Some 1%nat)] in
  let order2 := [(2, Some 1%nat); (1, Some 0%nat)] in
  let s := demo_server in
  let w := demo_world in
  probes (Close order s w) = probes w /\
  length (heap (Close order s w)) = length (heap w) /\
  (forall a, endpoint_of (heap (Close order s w)) a = endpoint_of (heap w) a) /\
  (forall a, contractAddress <$> heap (Close order s w) !! a
             = contractAddress <$> heap w !! a) /\
  (forall a, (forall k, services s !! k <> Some (Some a)) ->
             heap (Close order s w) !! a = heap w !! a) /\
  (forall a e, endpoint_of (heap w) a = Some e ->
     release_count (Close order2 s (Close order s w)) a
     = (release_count w a + 2 * registered_keys (services s) a)%nat).
Proof.
  apply (Close_releases_only [(1, Some 0%nat); (2, Some 1%nat)]
           [(2, Some 1%nat); (1, Some 0%nat)] demo_server demo_world).
  - vm_compute. first [reflexivity | apply perm_swap].
  - vm_compute. first [reflexivity | apply perm_swap].
Defined.

(** ** Chain identifiers: which strings parse *)

Lemma digit_val_range c : is_digit c = true -> 0 <= digit_val c <= 9.
Proof.
  unfold is_digit, digit_val. intros H. apply andb_true_iff in H as (H1 & H2).
  apply Nat.leb_le in H1, H2. lia.
Qed.

Lemma digits_fold_ge l acc :
  Forall (fun c => is_digit c = true) l -> 0 <= acc ->
  acc <= fold_left (fun n c => n * 10 + digit_val c) l acc.
Proof.
  revert acc. induction l as [|c l IH]; intros acc Hl Hacc; [cbn; lia|].
  inversion Hl as [|? ? Hc Hl']; subst. cbn [fold_left].
  pose proof (digit_val_range c Hc).
  etransitivity; [|apply IH; [exact Hl'|lia]]. lia.
Qed.

(** On a run of digits the accumulation loop of [ParseUint] returns
    the value of the digits, or the range error when the value does not
    fit in 64 bits. *)
Lemma ParseUint_loop_complete s acc :
  all_digits s -> 0 <= acc <= 2 ^ 64 - 1 ->
  ParseUint_loop s acc
  = let v := fold_left (fun n c => n * 10 + digit_val c) (list_ascii_of_string s) acc in
    if v <=? 2 ^ 64 - 1 then inr v else inl ErrRange.
Proof.
  unfold all_digits. revert acc. induction s as [|c rest IH]; intros acc Hd Hacc.
  - cbn. destruct (Z.leb_spec acc (2 ^ 64 - 1)); [reflexivity|lia].
  - cbn [list_ascii_of_string] in Hd. inversion Hd as [|? ? Hc Hrest]; subst.
    cbn [ParseUint_loop list_ascii_of_string fold_left]. rewrite Hc.
    pose proof (digit_val_range c Hc) as Hr.
    pose proof (digits_fold_ge (list_ascii_of_string rest) (acc * 10 + digit_val c)
                  Hrest ltac:(lia)) as Hge.
    change ((2 ^ 64 - 1) / 10 + 1) with 1844674407370955162.
    destruct (Z.leb_spec 1844674407370955162 acc).
    { cbv zeta. destruct (Z.leb_spec (fold_left (fun n c0 => n * 10 + digit_val c0)
                                       (list_ascii_of_string rest)
                                       (acc * 10 + digit_val c)) (2 ^ 64 - 1));
        [lia|reflexivity]. }
    cbv zeta.
    destruct (Z.ltb_spec (2 ^ 64 - 1) (acc * 10 + digit_val c)).
    { destruct (Z.leb_spec (fold_left (fun n c0 => n * 10 + digit_val c0)
                              (list_ascii_of_string rest)
                              (acc * 10 + digit_val c)) (2 ^ 64 - 1));
        [lia|reflexivity]. }
    rewrite (IH _ Hrest) by lia. reflexivity.
Qed.

Lemma ParseUint_complete body :
  body <> EmptyString -> all_digits body ->
  ParseUint body
  = if decimal_value body <=? 2 ^ 64 - 1 then inr (decimal_value body) else inl ErrRange.
Proof.
  intros Hne Hd. destruct body as [|c rest]; [contradiction|].
  unfold ParseUint. rewrite ParseUint_loop_complete by (first [exact Hd | lia]).
  reflexivity.
Qed.

(** A run of digits, bare or behind one sign, parses to its value when
    the value is in the range of [int64] and to the range error
    otherwise. *)
Lemma ParseInt_complete body :
  body <> EmptyString -> all_digits body ->
  ParseInt body
  = (if decimal_value body <? 2 ^ 63 then inr (decimal_value body) else inl ErrRange) /\
  ParseInt (String "+" body)
  = (if decimal_value body <? 2 ^ 63 then inr (decimal_value body) else inl ErrRange) /\
  ParseInt (String "-" body)
  = (if decimal_value body <=? 2 ^ 63 then inr (- decimal_value body) else inl ErrRange).
Proof.
  intros Hne Hd. pose proof (ParseUint_complete body Hne Hd) as Hu.
  pose proof (decimal_value_nonneg body Hd) as Hpos.
  assert (Hplain : (let neg := false in
                    match ParseUint body with
                    | inl e => inl e
                    | inr un =>
                        if negb neg && (2 ^ 63 <=? un) then inl ErrRange
                        else if neg && (2 ^ 63 <? un) then inl ErrRange
                        else inr (if neg then - un else un)
                    end)
                   = (if decimal_value body <? 2 ^ 63 then inr (decimal_value body)
                      else inl ErrRange)).
  { cbv zeta. rewrite Hu.
    destruct (Z.leb_spec (decimal_value body) (2 ^ 64 - 1));
      destruct (Z.ltb_spec (decimal_value body) (2 ^ 63)); try lia; try reflexivity.
    - destruct (Z.leb_spec (2 ^ 63) (decimal_value body)); [lia|reflexivity].
    - destruct (Z.leb_spec (2 ^ 63) (decimal_value body)); [reflexivity|lia]. }
  split; [|split].
  - destruct body as [|c rest]; [contradiction|].
    assert (Hc : is_digit c = true) by (inversion Hd; assumption).
    unfold ParseInt.
    destruct (Ascii.eqb_spec c "-") as [->|_]; [discriminate Hc|].
    destruct (Ascii.eqb_spec c "+") as [->|_]; [discriminate Hc|].
    exact Hplain.
  - exact Hplain.
  - unfold ParseInt. cbn [Ascii.eqb Bool.eqb orb andb negb]. rewrite Hu.
    destruct (Z.leb_spec (decimal_value body) (2 ^ 64 - 1));
      destruct (Z.leb_spec (decimal_value body) (2 ^ 63)); try lia; try reflexivity.
    + destruct (Z.ltb_spec (2 ^ 63) (decimal_value body)); [lia|reflexivity].
    + destruct (Z.ltb_spec (2 ^ 63) (decimal_value body)); [reflexivity|lia].
Qed.

(** X11. A non-empty run of decimal digits, bare or behind one sign,
    always gets a definite answer from the chain identifier parser: its
    value when the value is in the range of [int64], the range error
    otherwise.  The range is not symmetric: the magnitude [2 ^ 63] parses
    behind a minus sign and is a range error bare or behind a plus
    sign. *)
Theorem ParseChainID_decimal_complete (body : string) :
  body <> EmptyString -> all_digits body ->
  ParseChainID body
  = (if decimal_value body <? 2 ^ 63 then inr (decimal_value body) else inl ErrRange) /\
  ParseChainID (String "+" body)
  = (if decimal_value body <? 2 ^ 63 then inr (decimal_value body) else inl ErrRange) /\
  ParseChainID (String "-" body)
  = (if decimal_value body <=? 2 ^ 63 then inr (- decimal_value body) else inl ErrRange).
Proof.
  intros Hne Hd. destruct (ParseInt_complete body Hne Hd) as (H1 & H2 & H3).
  unfold ParseChainID. rewrite H1, H2, H3.
  destruct (decimal_value body <? 2 ^ 63), (decimal_value body <=? 2 ^ 63); auto.
Qed.

Lemma ParseChainID_decimal_complete_witness :
  ParseChainID "9223372036854775808" = inl ErrRange /\
  ParseChainID "+9223372036854775808" = inl ErrRange /\
  ParseChainID "-9223372036854775808" = inr (- 2 ^ 63).
Proof.
  apply (ParseChainID_decimal_complete "9223372036854775808").
  - discriminate.
  - unfold all_digits. repeat constructor.
Defined.

(** ** Chain identifiers: printing and parsing *)

Lemma string_of_uint_digits d : all_digits (NilEmpty.string_of_uint d).
Proof.
  unfold all_digits. induction d; cbn; constructor; first [reflexivity | assumption].
Qed.

Ltac eval_digit :=
  match goal with
  | |- context [digit_val ?c] =>
      let v := eval vm_compute in (digit_val c) in change (digit_val c) with v
  end.

Lemma string_of_uint_fold_pos d acc :
  fold_left (fun n c => n * 10 + digit_val c)
    (list_ascii_of_string (NilEmpty.string_of_uint d)) (Z.pos acc)
  = Z.pos (Pos.of_uint_acc d acc).
Proof.
  revert acc. induction d; intros acc;
    cbn [NilEmpty.string_of_uint list_ascii_of_string fold_left Pos.of_uint_acc];
    [reflexivity|..];
    match goal with
    | |- fold_left _ _ ?a = Z.pos (Pos.of_uint_acc _ ?b) =>
        replace a with (Z.pos b) by (eval_digit; lia)
    end; apply IHd.
Qed.

Lemma string_of_uint_value d :
  decimal_value (NilEmpty.string_of_uint d) = Z.of_N (Pos.of_uint d).
Proof.
  unfold decimal_value. induction d;
    cbn [NilEmpty.string_of_uint list_ascii_of_string fold_left Pos.of_uint];
    [reflexivity|exact IHd|..];
    match goal with
    | |- fold_left _ _ ?a = Z.of_N (N.pos (Pos.of_uint_acc _ ?b)) =>
        replace a with (Z.pos b) by (eval_digit; lia)
    end; apply string_of_uint_fold_pos.
Qed.

Lemma fmt_d_pos p :
  let s := NilEmpty.string_of_uint (Pos.to_uint p) in
  NilZero.string_of_uint (Pos.to_uint p) = s /\
  s <> EmptyString /\ all_digits s /\ decimal_value s = Z.pos p.
Proof.
  cbv zeta. pose proof (DecimalPos.Unsigned.to_uint_nonnil p) as Hnil.
  split; [|split; [|split]].
  - unfold NilZero.string_of_uint. destruct (Pos.to_uint p); [contradiction|..]; reflexivity.
  - destruct (Pos.to_uint p); [contradiction|..]; discriminate.
  - apply string_of_uint_digits.
  - rewrite string_of_uint_value, DecimalPos.Unsigned.of_to. reflexivity.
Qed.

(** X12. Printing a chain identifier in decimal, as the page and the
    log lines do, and parsing the text back gives the identifier, for
    every value of [int64]. *)
Theorem ParseChainID_fmt_d (n : Z) :
  - 2 ^ 63 <= n < 2 ^ 63 ->
  ParseChainID (fmt_d n) = inr n.
Proof.
  intros Hn. unfold ParseChainID, fmt_d.
  destruct n as [|p|p]; [reflexivity| |].
  - destruct (fmt_d_pos p) as (Hs & Hne & Hd & Hv).
    cbn [Z.to_int NilZero.string_of_int]. rewrite Hs.
    rewrite (proj1 (ParseInt_complete _ Hne Hd)), Hv.
    destruct (Z.ltb_spec (Z.pos p) (2 ^ 63)); [reflexivity|lia].
  - destruct (fmt_d_pos p) as (Hs & Hne & Hd & Hv).
    cbn [Z.to_int NilZero.string_of_int]. rewrite Hs.
    rewrite (proj2 (proj2 (ParseInt_complete _ Hne Hd))), Hv.
    destruct (Z.leb_spec (Z.pos p) (2 ^ 63)); [reflexivity|lia].
Qed.

Lemma ParseChainID_fmt_d_witness : ParseChainID (fmt_d (-11155111)) = inr (-11155111).
Proof. apply (ParseChainID_fmt_d (-11155111)). lia. Defined.

(** ** Configuration from the environment *)

Lemma SplitN2_spec s key value :
  SplitN2 s = Some (key, value) -> s = (key +:+ "=" +:+ value)%string.
Proof.
  revert key. induction s as [|c rest IH]; intros key; [discriminate|].
  cbn [SplitN2]. destruct (Ascii.eqb_spec c "=") as [->|_].
  - intros [= <- <-]. reflexivity.
  - destruct (SplitN2 rest) as [[k v]|]; [|discriminate].
    intros [= <- <-]. rewrite (IH k eq_refl) at 1. reflexivity.
Qed.

Lemma prefix_trim p s :
  String.prefix p s = true -> s = (p +:+ trim_prefix p s)%string.
Proof.
  unfold trim_prefix. revert s. induction p as [|c p IH]; intros s.
  - intros _. cbn. rewrite Nat.sub_0_r. symmetry. apply substring_all.
  - destruct s as [|d s]; [discriminate|]. cbn [String.prefix].
    destruct (Ascii.ascii_dec c d) as [->|]; [|discriminate].
    intros H. rewrite (IH s H) at 1. cbn [String.length]. reflexivity.
Qed.

Lemma chain_entry_spec env idStr k v :
  chain_entry env = Some (idStr, k, v) ->
  env = ("RPC_URL_" +:+ idStr +:+ "=" +:+ v)%string /\ ParseInt idStr = inr k.
Proof.
  unfold chain_entry.
  destruct (SplitN2 env) as [[key value]|] eqn:Hs; [|discriminate].
  destruct (String.prefix "RPC_URL_" key) eqn:Hp; [|discriminate].
  destruct (ParseInt (trim_prefix "RPC_URL_" key)) as [e|chainID] eqn:Hi; [discriminate|].
  intros [= <- <- <-]. split; [|exact Hi].
  apply SplitN2_spec in Hs. apply prefix_trim in Hp.
  rewrite Hs. rewrite Hp at 1. cbn. reflexivity.
Qed.

Section EnvironmentFacts.

Variable Getenv : string -> string.

(** One turn of the scan, by what the entry is. *)
Lemma LoadConfig_loop_cons env rest m :
  LoadConfig_loop Getenv (env :: rest) m
  = match chain_entry env with
    | None => LoadConfig_loop Getenv rest m
    | Some (idStr, k, v) =>
        if String.eqb (Getenv ("CONTRACT_ADDRESS_" +:+ idStr)) EmptyString
        then inl (ContractAddressRequired idStr)
        else LoadConfig_loop Getenv rest
               (<[k := {| RPCURL := v;
                          ContractAddress := Getenv ("CONTRACT_ADDRESS_" +:+ idStr) |}]> m)
    end.
Proof.
  cbn [LoadConfig_loop]. unfold chain_entry.
  destruct (SplitN2 env) as [[key value]|]; [|reflexivity].
  destruct (String.prefix "RPC_URL_" key); [|reflexivity].
  destruct (ParseInt (trim_prefix "RPC_URL_" key)); reflexivity.
Qed.

(** A scan that succeeds: every entry of the result was there before or
    comes from a chain entry of the environment, with a contract address
    that is set; nothing is removed; and every chain entry has its
    identifier in the result. *)
Lemma LoadConfig_loop_ok envs m m' :
  LoadConfig_loop Getenv envs m = inr m' ->
  (forall k c, m' !! k = Some c ->
     m !! k = Some c \/
     exists idStr,
       ("RPC_URL_" +:+ idStr +:+ "=" +:+ RPCURL c)%string ∈ envs /\
       ParseInt idStr = inr k /\
       ContractAddress c = Getenv ("CONTRACT_ADDRESS_" +:+ idStr) /\
       ContractAddress c <> EmptyString) /\
  (forall k, is_Some (m !! k) -> is_Some (m' !! k)) /\
  (forall env idStr k v, env ∈ envs -> chain_entry env = Some (idStr, k, v) ->
     is_Some (m' !! k)).
Proof.
  revert m. induction envs as [|env rest IH]; intros m.
  - cbn. intros [= <-]. split; [auto|]. split; [auto|].
    intros env idStr k v Hin. apply elem_of_nil in Hin. contradiction.
  - rewrite LoadConfig_loop_cons.
    destruct (chain_entry env) as [[[idStr k] v]|] eqn:Hce.
    + destruct (String.eqb_spec (Getenv ("CONTRACT_ADDRESS_" +:+ idStr)) EmptyString)
        as [|Hset]; [discriminate|].
      intros Hrun. destruct (IH _ Hrun) as (Hfrom & Hkeep & Hall).
      destruct (chain_entry_spec _ _ _ _ Hce) as (Henv & Hid).
      split; [|split].
      * intros k' c Hk'. destruct (Hfrom k' c Hk') as [Hold|(id' & Hin & H')].
        -- destruct (decide (k' = k)) as [->|Hne].
           ++ right. exists idStr. rewrite lookup_insert_eq in Hold.
              injection Hold as <-. cbn [RPCURL ContractAddress].
              split; [rewrite <- Henv; left|]. auto.
           ++ left. rewrite lookup_insert_ne in Hold by congruence. exact Hold.
        -- right. exists id'. split; [right; exact Hin|exact H'].
      * intros k' Hk'. apply Hkeep.
        destruct (decide (k' = k)) as [->|Hne].
        -- rewrite lookup_insert_eq. eauto.
        -- rewrite lookup_insert_ne by congruence. exact Hk'.
      * intros env' id' k' v' Hin Hce'.
        apply elem_of_cons in Hin as [->|Hin]; [|exact (Hall env' id' k' v' Hin Hce')].
        rewrite Hce in Hce'. injection Hce' as <- <- <-.
        apply Hkeep. rewrite lookup_insert_eq. eauto.
    + intros Hrun. destruct (IH _ Hrun) as (Hfrom & Hkeep & Hall).
      split; [|split; [exact Hkeep|]].
      * intros k' c Hk'. destruct (Hfrom k' c Hk') as [Hold|(id' & Hin & H')];
          [left; exact Hold|].
        right. exists id'. split; [right; exact Hin|exact H'].
      * intros env' id' k' v' Hin Hce'.
        apply elem_of_cons in Hin as [->|Hin]; [|exact (Hall env' id' k' v' Hin Hce')].
        rewrite Hce in Hce'. discriminate.
Qed.

(** A scan over entries none of which configures a chain changes
    nothing. *)
Lemma LoadConfig_loop_none envs m :
  (forall env, env ∈ envs -> chain_entry env = None) ->
  LoadConfig_loop Getenv envs m = inr m.
Proof.
  induction envs as [|env rest IH]; intros Hnone; [reflexivity|].
  rewrite LoadConfig_loop_cons, (Hnone env) by left.
  apply IH. intros env' Hin. apply Hnone. right. exact Hin.
Qed.

(** When the scan fails, it fails at the first chain entry whose
    contract address is not set. *)
Lemma LoadConfig_loop_fails envs m e :
  LoadConfig_loop Getenv envs m = inl e <->
  exists pre env post idStr k v,
    envs = pre ++ env :: post /\
    chain_entry env = Some (idStr, k, v) /\
    Getenv ("CONTRACT_ADDRESS_" +:+ idStr) = EmptyString /\
    e = ContractAddressRequired idStr /\
    (forall env' idStr' k' v', env' ∈ pre -> chain_entry env' = Some (idStr', k', v') ->
       Getenv ("CONTRACT_ADDRESS_" +:+ idStr') <> EmptyString).
Proof.
  revert m. induction envs as [|env rest IH]; intros m.
  - cbn. split; [discriminate|].
    intros (pre & env & post & idStr & k & v & Heq & _).
    destruct pre; discriminate.
  - rewrite LoadConfig_loop_cons. split.
    + destruct (chain_entry env) as [[[idStr k] v]|] eqn:Hce.
      * destruct (String.eqb_spec (Getenv ("CONTRACT_ADDRESS_" +:+ idStr)) EmptyString)
          as [Hunset|Hset].
        -- intros [= <-]. exists [], env, rest, idStr, k, v.
           split; [reflexivity|]. split; [exact Hce|]. split; [exact Hunset|].
           split; [reflexivity|].
           intros env' ? ? ? Hin. apply elem_of_nil in Hin. contradiction.
        -- intros Hrun. apply IH in Hrun
             as (pre & env0 & post & id0 & k0 & v0 & -> & Hce0 & Hun0 & -> & Hpre).
           exists (env :: pre), env0, post, id0, k0, v0.
           split; [reflexivity|]. split; [exact Hce0|]. split; [exact Hun0|].
           split; [reflexivity|].
           intros env' id' k' v' Hin Hce'.
           apply elem_of_cons in Hin as [->|Hin]; [|exact (Hpre _ _ _ _ Hin Hce')].
           rewrite Hce in Hce'. injection Hce' as <- <- <-. exact Hset.
      * intros Hrun. apply IH in Hrun
          as (pre & env0 & post & id0 & k0 & v0 & -> & Hce0 & Hun0 & -> & Hpre).
        exists (env :: pre), env0, post, id0, k0, v0.
        split; [reflexivity|]. split; [exact Hce0|]. split; [exact Hun0|].
        split; [reflexivity|].
        intros env' id' k' v' Hin Hce'.
        apply elem_of_cons in Hin as [->|Hin]; [|exact (Hpre _ _ _ _ Hin Hce')].
        rewrite Hce in Hce'. discriminate.
    + intros (pre & env0 & post & id0 & k0 & v0 & Heq & Hce0 & Hun0 & -> & Hpre).
      destruct pre as [|env1 pre].
      * cbn in Heq. injection Heq as <- <-. rewrite Hce0, Hun0. reflexivity.
      * cbn in Heq. injection Heq as <- ->.
        assert (Hrest : LoadConfig_loop Getenv (pre ++ env0 :: post)
                          (match chain_entry env with
                           | Some (idStr, k, v) =>
                               <[k := {| RPCURL := v;
                                         ContractAddress :=
                                           Getenv ("CONTRACT_ADDRESS_" +:+ idStr) |}]> m
                           | None => m
                           end)
                        = inl (ContractAddressRequired id0)).
        { apply IH. exists pre, env0, post, id0, k0, v0.
          split; [reflexivity|]. split; [exact Hce0|]. split; [exact Hun0|].
          split; [reflexivity|].
          intros env' id' k' v' Hin. apply Hpre. right. exact Hin. }
        destruct (chain_entry env) as [[[idStr k] v]|] eqn:Hce; [|exact Hrest].
        destruct (String.eqb_spec (Getenv ("CONTRACT_ADDRESS_" +:+ idStr)) EmptyString)
          as [Hunset|Hset]; [|exact Hrest].
        exfalso. apply (Hpre env idStr k v); [left|exact Hce|exact Hunset].
Qed.

End EnvironmentFacts.

Lemma size_zero_empty (m : gmap Z RPCConfig) : (size m =? 0)%nat = true <-> m = ∅.
Proof. rewrite Nat.eqb_eq. apply map_size_empty_iff. Qed.

(** X13. A configuration that loads comes from exactly one of two
    sources.  Either the environment has entries ["RPC_URL_<id>=<url>"]
    whose [<id>] parses as a signed decimal; then every configured chain
    is one of them, keyed by the parsed identifier, with the contract
    address read from ["CONTRACT_ADDRESS_<id>"] (same text) and not
    empty, and the variables ["RPC_URL"] and ["CONTRACT_ADDRESS"] play
    no part.  Or it has none; then the configuration is the single
    sentinel entry 0 built from ["RPC_URL"] and ["CONTRACT_ADDRESS"],
    both not empty.  The configuration is never empty, and the address
    is ["PORT"], or [":8080"] when that is not set. *)
Theorem LoadConfig_success_shape (Environ : list string) (Getenv : string -> string)
    (cfg : Config) :
  LoadConfig Environ Getenv = inr cfg ->
  RPCConfigs cfg <> ∅ /\
  AddressPort cfg <> EmptyString /\
  AddressPort cfg
  = (if String.eqb (Getenv "PORT") EmptyString then ":8080"%string else Getenv "PORT") /\
  ((exists env, env ∈ Environ /\ is_Some (chain_entry env)) /\
   (forall k c, RPCConfigs cfg !! k = Some c ->
      exists idStr,
        ("RPC_URL_" +:+ idStr +:+ "=" +:+ RPCURL c)%string ∈ Environ /\
        ParseInt idStr = inr k /\
        ContractAddress c = Getenv ("CONTRACT_ADDRESS_" +:+ idStr) /\
        ContractAddress c <> EmptyString)
   \/
   (forall env, env ∈ Environ -> chain_entry env = None) /\
   RPCConfigs cfg
   = {[ 0 := {| RPCURL := Getenv "RPC_URL";
                ContractAddress := Getenv "CONTRACT_ADDRESS" |} ]} /\
   Getenv "RPC_URL" <> EmptyString /\ Getenv "CONTRACT_ADDRESS" <> EmptyString).
Proof.
  unfold LoadConfig.
  destruct (LoadConfig_loop Getenv Environ ∅) as [e|m] eqn:Hloop; [discriminate|].
  pose proof (LoadConfig_loop_ok Getenv Environ ∅ m Hloop) as (Hfrom & _ & Hall).
  assert (Hport : (if String.eqb (Getenv "PORT") EmptyString then ":8080"%string
                   else Getenv "PORT") <> EmptyString).
  { destruct (String.eqb_spec (Getenv "PORT") EmptyString); [discriminate|assumption]. }
  destruct (size m =? 0)%nat eqn:Hsize.
  - apply size_zero_empty in Hsize. subst m.
    destruct (String.eqb_spec (Getenv "RPC_URL") EmptyString) as [|Hurl]; [discriminate|].
    destruct (String.eqb_spec (Getenv "CONTRACT_ADDRESS") EmptyString) as [|Haddr];
      [discriminate|].
    cbn [orb]. intros [= <-]. cbn [RPCConfigs AddressPort].
    split; [apply insert_non_empty|]. split; [exact Hport|]. split; [reflexivity|].
    right. split; [|split; [reflexivity|split; assumption]].
    intros env Hin. destruct (chain_entry env) as [[[idStr k] v]|] eqn:Hce; [|reflexivity].
    destruct (Hall env idStr k v Hin Hce) as (c & Hc).
    rewrite lookup_empty in Hc. discriminate.
  - intros [= <-]. cbn [RPCConfigs AddressPort].
    assert (Hne : m <> ∅).
    { intros ->. rewrite map_size_empty in Hsize. discriminate. }
    split; [exact Hne|]. split; [exact Hport|]. split; [reflexivity|].
    left. split.
    + destruct (decide (Forall (fun env => chain_entry env = None) Environ)) as [Hnone|Hsome].
      * exfalso. apply Hne.
        rewrite Forall_forall in Hnone.
        rewrite (LoadConfig_loop_none Getenv Environ ∅) in Hloop by exact Hnone.
        injection Hloop as <-. reflexivity.
      * apply not_Forall_Exists in Hsome; [|intros env; apply _].
        apply Exists_exists in Hsome as (env & Hin & Hce).
        exists env. split; [exact Hin|].
        cbn in Hce. destruct (chain_entry env); [eauto|exfalso; apply Hce; reflexivity].
    + intros k c Hk. destruct (Hfrom k c Hk) as [Hold|Hnew]; [|exact Hnew].
      rewrite lookup_empty in Hold. discriminate.
Qed.

Lemma LoadConfig_success_shape_witness :
  let Environ := ["HOME=/root"; "RPC_URL_1=https://one"; "RPC_URL_x=skipped"]%string in
  let Getenv := fun key : string =>
                  if String.eqb key "CONTRACT_ADDRESS_1" then "0xabc"%string
                  else EmptyString in
  let cfg := {| RPCConfigs := {[ 1 := {| RPCURL := "https://one";
                                         ContractAddress := "0xabc" |} ]};
                AddressPort := ":8080" |} in
  RPCConfigs cfg <> ∅ /\
  AddressPort cfg <> EmptyString /\
  AddressPort cfg
  = (if String.eqb (Getenv "PORT") EmptyString then ":8080"%string else Getenv "PORT") /\
  ((exists env, env ∈ Environ /\ is_Some (chain_entry env)) /\
   (forall k c, RPCConfigs cfg !! k = Some c ->
      exists idStr,
        ("RPC_URL_" +:+ idStr +:+ "=" +:+ RPCURL c)%string ∈ Environ /\
        ParseInt idStr = inr k /\
        ContractAddress c = Getenv ("CONTRACT_ADDRESS_" +:+ idStr) /\
        ContractAddress c <> EmptyString)
   \/
   (forall env, env ∈ Environ -> chain_entry env = None) /\
   RPCConfigs cfg
   = {[ 0 := {| RPCURL := Getenv "RPC_URL";
                ContractAddress := Getenv "CONTRACT_ADDRESS" |} ]} /\
   Getenv "RPC_URL" <> EmptyString /\ Getenv "CONTRACT_ADDRESS" <> EmptyString).
Proof.
  apply (LoadConfig_success_shape
           ["HOME=/root"; "RPC_URL_1=https://one"; "RPC_URL_x=skipped"]%string
           (fun key : string =>
              if String.eqb key "CONTRACT_ADDRESS_1" then "0xabc"%string
              else EmptyString)).
  vm_compute. reflexivity.
Defined.

(** X14. Loading fails in exactly two situations.  The scan meets a
    chain entry whose ["CONTRACT_ADDRESS_<id>"] is not set, every chain
    entry before it having its contract address: the error names that
    entry's identifier text, and later entries are not looked at.  Or no
    entry of the environment is a chain entry and one of ["RPC_URL"],
    ["CONTRACT_ADDRESS"] is not set.  An entry ["RPC_URL_<id>"] whose
    [<id>] does not parse is never an error: it is passed over. *)
Theorem LoadConfig_failure_shape (Environ : list string) (Getenv : string -> string)
    (e : ConfigError) :
  LoadConfig Environ Getenv = inl e <->
  (exists pre env post idStr k v,
      Environ = pre ++ env :: post /\
      chain_entry env = Some (idStr, k, v) /\
      Getenv ("CONTRACT_ADDRESS_" +:+ idStr) = EmptyString /\
      e = ContractAddressRequired idStr /\
      (forall env' idStr' k' v', env' ∈ pre -> chain_entry env' = Some (idStr', k', v') ->
         Getenv ("CONTRACT_ADDRESS_" +:+ idStr') <> EmptyString))
  \/
  ((forall env, env ∈ Environ -> chain_entry env = None) /\
   (Getenv "RPC_URL" = EmptyString \/ Getenv "CONTRACT_ADDRESS" = EmptyString) /\
   e = RPCSettingsRequired).
Proof.
  unfold LoadConfig. split.
  - destruct (LoadConfig_loop Getenv Environ ∅) as [e0|m] eqn:Hloop.
    + intros [= <-]. left. apply (LoadConfig_loop_fails Getenv Environ ∅ e0). exact Hloop.
    + pose proof (LoadConfig_loop_ok Getenv Environ ∅ m Hloop) as (_ & _ & Hall).
      destruct (size m =? 0)%nat eqn:Hsize; [|discriminate].
      apply size_zero_empty in Hsize. subst m.
      destruct (String.eqb_spec (Getenv "RPC_URL") EmptyString) as [Hurl|Hurl].
      * intros [= <-]. right. split; [|auto].
        intros env Hin. destruct (chain_entry env) as [[[idStr k] v]|] eqn:Hce; [|reflexivity].
        destruct (Hall env idStr k v Hin Hce) as (c & Hc).
        rewrite lookup_empty in Hc. discriminate.
      * destruct (String.eqb_spec (Getenv "CONTRACT_ADDRESS") EmptyString) as [Haddr|Haddr];
          [|discriminate].
        intros [= <-]. right. split; [|auto].
        intros env Hin. destruct (chain_entry env) as [[[idStr k] v]|] eqn:Hce; [|reflexivity].
        destruct (Hall env idStr k v Hin Hce) as (c & Hc).
        rewrite lookup_empty in Hc. discriminate.
  - intros [Hfail|(Hnone & Hunset & ->)].
    + assert (He : exists idStr, e = ContractAddressRequired idStr).
      { destruct Hfail as (? & ? & ? & idStr & ? & ? & _ & _ & _ & -> & _). eauto. }
      apply (LoadConfig_loop_fails Getenv Environ ∅ e) in Hfail. rewrite Hfail. reflexivity.
    + rewrite (LoadConfig_loop_none Getenv Environ ∅ Hnone).
      rewrite map_size_empty. cbn [Nat.eqb].
      destruct Hunset as [-> | ->]; [reflexivity|].
      rewrite orb_true_r. reflexivity.
Qed.

Lemma contract_key_not_legacy idStr :
  ("CONTRACT_ADDRESS_" +:+ idStr)%string <> "RPC_URL"%string /\
  ("CONTRACT_ADDRESS_" +:+ idStr)%string <> "CONTRACT_ADDRESS"%string.
Proof. split; discriminate. Qed.

Lemma LoadConfig_loop_ext (Getenv Getenv' : string -> string) envs m :
  (forall key, key <> "RPC_URL"%string -> key <> "CONTRACT_ADDRESS"%string ->
     Getenv' key = Getenv key) ->
  LoadConfig_loop Getenv' envs m = LoadConfig_loop Getenv envs m.
Proof.
  intros Hsame. revert m. induction envs as [|env rest IH]; intros m; [reflexivity|].
  rewrite !LoadConfig_loop_cons.
  destruct (chain_entry env) as [[[idStr k] v]|]; [|apply IH].
  destruct (contract_key_not_legacy idStr) as (H1 & H2).
  rewrite (Hsame _ H1 H2).
  destruct (String.eqb _ EmptyString); [reflexivity|apply IH].
Qed.

(** X15. As soon as one entry of the environment is a chain entry, the
    variables ["RPC_URL"] and ["CONTRACT_ADDRESS"] are not consulted:
    for one listing of the environment, whatever [os.Getenv] answers
    for these two variables, loading gives the same configuration, or
    fails with the same error. *)
Theorem LoadConfig_chain_mode_ignores_legacy (Environ : list string)
    (Getenv Getenv' : string -> string) :
  (exists env, env ∈ Environ /\ is_Some (chain_entry env)) ->
  (forall key, key <> "RPC_URL"%string -> key <> "CONTRACT_ADDRESS"%string ->
     Getenv' key = Getenv key) ->
  LoadConfig Environ Getenv' = LoadConfig Environ Getenv.
Proof.
  intros (env & Hin & [[[idStr k] v] Hce]) Hsame. unfold LoadConfig.
  rewrite (LoadConfig_loop_ext Getenv Getenv' Environ ∅ Hsame).
  destruct (LoadConfig_loop Getenv Environ ∅) as [e|m] eqn:Hloop; [reflexivity|].
  pose proof (LoadConfig_loop_ok Getenv Environ ∅ m Hloop) as (_ & _ & Hall).
  destruct (Hall env idStr k v Hin Hce) as (c & Hc).
  destruct (size m =? 0)%nat eqn:Hsize.
  { apply size_zero_empty in Hsize. subst m. rewrite lookup_empty in Hc. discriminate. }
  rewrite (Hsame "PORT"%string) by discriminate. reflexivity.
Qed.

Lemma LoadConfig_chain_mode_ignores_legacy_witness :
  let Environ := ["RPC_URL_5=https://five"; "RPC_URL=https://legacy"]%string in
  let Getenv := fun key : string =>
                  if String.eqb key "CONTRACT_ADDRESS_5" then "0x5"%string
                  else EmptyString in
  let Getenv' := fun key : string =>
                   if String.eqb key "CONTRACT_ADDRESS_5" then "0x5"%string
                   else if String.eqb key "RPC_URL" then "https://legacy"%string
                   else if String.eqb key "CONTRACT_ADDRESS" then "0xdead"%string
                   else EmptyString in
  LoadConfig Environ Getenv' = LoadConfig Environ Getenv.
Proof.
  apply (LoadConfig_chain_mode_ignores_legacy
           ["RPC_URL_5=https://five"; "RPC_URL=https://legacy"]%string).
  - exists "RPC_URL_5=https://five"%string. split; [left|].
    vm_compute. eauto.
  - intros key H1 H2. cbv beta.
    destruct (String.eqb key "CONTRACT_ADDRESS_5"); [reflexivity|].
    destruct (String.eqb_spec key "RPC_URL"); [contradiction|].
    destruct (String.eqb_spec key "CONTRACT_ADDRESS"); [contradiction|].
    reflexivity.
Defined.

(** X16. The single-chain configuration end to end.  When no entry of
    the environment is a chain entry, ["RPC_URL"] and
    ["CONTRACT_ADDRESS"] are set, the endpoint can be dialled and
    reports the identifier [id], loading gives a configuration from
    which construction builds, whatever the range order, a registry
    with exactly one key: [Int64] of the reported identifier, holding
    the one new source, after one query.  The key 0 of the
    configuration reaches the registry only when the report, cut to 64
    bits, is 0. *)
Theorem legacy_configuration_serves_reported_chain (Environ : list string)
    (Getenv : string -> string) (dial : string -> bool)
    (chain_id_reply : nat -> string -> option Z) (w : World) (id : Z) :
  (forall env, env ∈ Environ -> chain_entry env = None) ->
  Getenv "RPC_URL" <> EmptyString -> Getenv "CONTRACT_ADDRESS" <> EmptyString ->
  dial (Getenv "RPC_URL") = true ->
  chain_id_reply (length (probes w)) (Getenv "RPC_URL") = Some id ->
  exists cfg,
    LoadConfig Environ Getenv = inr cfg /\
    forall order, order ≡ₚ map_to_list (RPCConfigs cfg) ->
      NewServer dial chain_id_reply order cfg w
      = (Success {| services := {[ Int64 id := Some (length (heap w)) ]};
                    config := cfg |},
         {| heap := heap w ++ [service_for {| RPCURL := Getenv "RPC_URL";
                                              ContractAddress := Getenv "CONTRACT_ADDRESS" |}];
            probes := probes w ++ [length (heap w)] |}).
Proof.
  intros Hnone Hurl Haddr Hdial Hrep.
  eexists. split.
  - unfold LoadConfig. rewrite (LoadConfig_loop_none Getenv Environ ∅ Hnone).
    rewrite map_size_empty. cbn [Nat.eqb].
    destruct (String.eqb_spec (Getenv "RPC_URL") EmptyString); [contradiction|].
    destruct (String.eqb_spec (Getenv "CONTRACT_ADDRESS") EmptyString); [contradiction|].
    cbn [orb]. reflexivity.
  - cbn [RPCConfigs]. intros order Hperm.
    rewrite insert_empty, map_to_list_singleton in Hperm.
    apply Permutation_singleton_r in Hperm. subst order.
    unfold NewServer. cbn [NewServer_loop].
    set (c := {| RPCURL := Getenv "RPC_URL"; ContractAddress := Getenv "CONTRACT_ADDRESS" |}).
    rewrite (NewERC721Service_ok dial c w Hdial).
    cbn [Z.eqb].
    rewrite (GetChainID_live chain_id_reply _ _ _ _ (endpoint_of_fresh (heap w) c)).
    cbn [RPCURL c]. rewrite Hrep. reflexivity.
Qed.

Lemma legacy_configuration_serves_reported_chain_witness :
  let Environ := ["PATH=/bin"; "RPC_URL=https://node"; "CONTRACT_ADDRESS=0xc0"]%string in
  let Getenv := fun key : string =>
                  if String.eqb key "RPC_URL" then "https://node"%string
                  else if String.eqb key "CONTRACT_ADDRESS" then "0xc0"%string
                  else EmptyString in
  let w := {| heap := []; probes := [] |} in
  exists cfg,
    LoadConfig Environ Getenv = inr cfg /\
    forall order, order ≡ₚ map_to_list (RPCConfigs cfg) ->
      NewServer (fun _ => true) (fun _ _ => Some 137) order cfg w
      = (Success {| services := {[ Int64 137 := Some (length (heap w)) ]};
                    config := cfg |},
         {| heap := heap w ++ [service_for {| RPCURL := Getenv "RPC_URL";
                                              ContractAddress := Getenv "CONTRACT_ADDRESS" |}];
            probes := probes w ++ [length (heap w)] |}).
Proof.
  apply (legacy_configuration_serves_reported_chain
           ["PATH=/bin"; "RPC_URL=https://node"; "CONTRACT_ADDRESS=0xc0"]%string
           (fun key : string =>
              if String.eqb key "RPC_URL" then "https://node"%string
              else if String.eqb key "CONTRACT_ADDRESS" then "0xc0"%string
              else EmptyString)
           (fun _ => true) (fun _ _ => Some 137) {| heap := []; probes := [] |} 137).
  - intros env Hin.
    repeat (apply elem_of_cons in Hin as [->|Hin]; [vm_compute; reflexivity|]).
    apply elem_of_nil in Hin. contradiction.
  - discriminate.
  - discriminate.
  - reflexivity.
  - reflexivity.
Defined.

(** ** The text page *)

Lemma decodeBMPToBitfield_terminates c0 c1 c2 c3 c4 base64_decode dataURI :
  decodeBMPToBitfield c0 c1 c2 c3 c4 base64_decode dataURI <> OutOfFuel.
Proof.
  unfold decodeBMPToBitfield.
  destruct (negb (String.prefix bmp_prefix dataURI)); [discriminate|].
  destruct (base64_decode (trim_prefix bmp_prefix dataURI)) as [bmpData|]; [|discriminate].
  pose proof (decodeBMPData_terminates c0 c1 c2 c3 c4 bmpData) as Ht.
  destruct (decodeBMPData c0 c1 c2 c3 c4 bmpData); first [discriminate | contradiction].
Qed.

Lemma decodeBMPToBitfield_no_prefix c0 c1 c2 c3 c4 base64_decode dataURI :
  String.prefix "data:image/bmp;base64," dataURI = false ->
  decodeBMPToBitfield c0 c1 c2 c3 c4 base64_decode dataURI = Err InvalidURI.
Proof.
  intros H. unfold decodeBMPToBitfield, bmp_prefix. rewrite H. reflexivity.
Qed.

(** The page is its head, the lines of the two image fields and its
    tail, in this order; a panic in a field is the panic of the page. *)
Lemma FormatMetadataAsText_factored base64_decode metadata chainID tokenID c0 c1 c2 c3 c4 :
  FormatMetadataAsText base64_decode metadata chainID tokenID c0 c1 c2 c3 c4
  = match field_lines c0 c1 c2 c3 c4 base64_decode "Image" (Image metadata) with
    | Ok image =>
        match field_lines c0 c1 c2 c3 c4 base64_decode "External URL"
                (ExternalURL metadata) with
        | Ok external =>
            Ok (builder_string (page_head metadata chainID tokenID ++ image ++ external
                                  ++ page_tail metadata))
        | Err e => Err e
        | Panic => Panic
        | OutOfFuel => OutOfFuel
        end
    | Err e => Err e
    | Panic => Panic
    | OutOfFuel => OutOfFuel
    end.
Proof.
  unfold FormatMetadataAsText, field_lines, page_head, page_tail.
  assert (Hlen : (0 <? len (Properties metadata))
                 = match Properties metadata with [] => false | _ => true end)
    by (destruct (Properties metadata); reflexivity).
  rewrite Hlen. clear Hlen.
  destruct (String.eqb (Name metadata) EmptyString);
    destruct (String.eqb (Description metadata) EmptyString);
    cbn [negb app].
  all: destruct (String.eqb (Image metadata) EmptyString); cbn [negb].
  all: try (destruct (String.prefix "data:image/bmp;base64," (Image metadata)) eqn:Hpi;
            [|rewrite (decodeBMPToBitfield_no_prefix _ _ _ _ _ _ _ Hpi)]).
  all: try destruct (decodeBMPToBitfield c0 c1 c2 c3 c4 base64_decode (Image metadata));
    try reflexivity.
  all: destruct (String.eqb (ExternalURL metadata) EmptyString); cbn [negb].
  all: try (destruct (String.prefix "data:image/bmp;base64," (ExternalURL metadata)) eqn:Hpe;
            [|rewrite (decodeBMPToBitfield_no_prefix _ _ _ _ _ _ _ Hpe)]).
  all: try destruct (decodeBMPToBitfield c0 c1 c2 c3 c4 base64_decode (ExternalURL metadata));
    try reflexivity.
  all: destruct (Properties metadata); cbn [app]; rewrite <- ?app_assoc; cbn [app];
    rewrite ?app_nil_r; reflexivity.
Qed.

Lemma append_empty_r (s : string) : (s +:+ EmptyString)%string = s.
Proof.
  induction s as [|c s IH]; [reflexivity|].
  change (String c (s +:+ EmptyString) = String c s). f_equal. exact IH.
Qed.

Lemma append_assoc (a b c : string) :
  ((a +:+ b) +:+ c)%string = (a +:+ (b +:+ c))%string.
Proof.
  induction a as [|x a IH]; [reflexivity|].
  change (String x ((a +:+ b) +:+ c) = String x (a +:+ (b +:+ c))). f_equal. exact IH.
Qed.

Lemma builder_string_cons chunk chunks :
  builder_string (chunk :: chunks) = (chunk +:+ builder_string chunks)%string.
Proof.
  unfold builder_string. destruct chunks as [|next chunks].
  - cbn. symmetry. apply append_empty_r.
  - reflexivity.
Qed.

Lemma field_lines_error c0 c1 c2 c3 c4 base64_decode label field e :
  decodeBMPToBitfield c0 c1 c2 c3 c4 base64_decode field = Err e ->
  forall d0 d1 d2 d3 d4,
    field_lines c0 c1 c2 c3 c4 base64_decode label field
    = field_lines d0 d1 d2 d3 d4 (fun _ => None) label field /\
    exists lines, field_lines c0 c1 c2 c3 c4 base64_decode label field = Ok lines.
Proof.
  intros He d0 d1 d2 d3 d4. unfold field_lines. rewrite He.
  destruct (String.eqb field EmptyString); [eauto|].
  unfold decodeBMPToBitfield.
  destruct (negb (String.prefix bmp_prefix field)); eauto.
Qed.

(** X17. The page never fails: whatever the metadata, the palette and
    the payloads, [FormatMetadataAsText] returns a text, unless the
    decoding of one of its two image fields panics.  The text begins
    with the title, the rule, the chain identifier in decimal and the
    token identifier as given.  An image field whose decoding fails
    with an error, whichever it is, is printed as it stands: when both
    fields fail to decode, the page is the one made without ever
    decoding a payload, for every palette. *)
Theorem FormatMetadataAsText_swallows_decode_errors
    (base64_decode : string -> option (list byte)) (metadata : ERC721Metadata)
    (chainID : Z) (tokenID : string) (c0 c1 c2 c3 c4 : string) :
  let decode := decodeBMPToBitfield c0 c1 c2 c3 c4 base64_decode in
  let page := FormatMetadataAsText base64_decode metadata chainID tokenID c0 c1 c2 c3 c4 in
  (forall e, page <> Err e) /\ page <> OutOfFuel /\
  (page = Panic ->
   decode (Image metadata) = Panic \/ decode (ExternalURL metadata) = Panic) /\
  (forall text, page = Ok text ->
     exists rest,
       text = ("ERC721 Token Metadata" +:+ newline +:+
               "====================" +:+ newline +:+ newline +:+
               "Chain ID: " +:+ fmt_d chainID +:+ newline +:+
               "Token ID: " +:+ tokenID +:+ newline +:+ newline +:+ rest)%string) /\
  ((exists e, decode (Image metadata) = Err e) ->
   (exists e, decode (ExternalURL metadata) = Err e) ->
   (exists text, page = Ok text) /\
   forall d0 d1 d2 d3 d4,
     page = FormatMetadataAsText (fun _ => None) metadata chainID tokenID d0 d1 d2 d3 d4).
Proof.
  cbv zeta. rewrite FormatMetadataAsText_factored.
  pose proof (decodeBMPToBitfield_terminates c0 c1 c2 c3 c4 base64_decode (Image metadata))
    as Ti.
  pose proof (decodeBMPToBitfield_terminates c0 c1 c2 c3 c4 base64_decode
                (ExternalURL metadata)) as Te.
  split; [|split; [|split; [|split]]].
  - intros e. unfold field_lines.
    destruct (String.eqb (Image metadata) EmptyString);
      [|destruct (decodeBMPToBitfield c0 c1 c2 c3 c4 base64_decode (Image metadata))];
      try discriminate;
      (destruct (String.eqb (ExternalURL metadata) EmptyString);
       [|destruct (decodeBMPToBitfield c0 c1 c2 c3 c4 base64_decode (ExternalURL metadata))];
       discriminate).
  - unfold field_lines.
    destruct (String.eqb (Image metadata) EmptyString);
      [|destruct (decodeBMPToBitfield c0 c1 c2 c3 c4 base64_decode (Image metadata))];
      try discriminate; try contradiction;
      (destruct (String.eqb (ExternalURL metadata) EmptyString);
       [|destruct (decodeBMPToBitfield c0 c1 c2 c3 c4 base64_decode (ExternalURL metadata))];
       first [discriminate | contradiction]).
  - unfold field_lines.
    destruct (String.eqb (Image metadata) EmptyString);
      [|destruct (decodeBMPToBitfield c0 c1 c2 c3 c4 base64_decode (Image metadata))];
      auto;
      (destruct (String.eqb (ExternalURL metadata) EmptyString);
       [|destruct (decodeBMPToBitfield c0 c1 c2 c3 c4 base64_decode (ExternalURL metadata))];
       auto; discriminate).
  - intros text.
    destruct (field_lines c0 c1 c2 c3 c4 base64_decode "Image" (Image metadata))
      as [image| | |]; try discriminate.
    destruct (field_lines c0 c1 c2 c3 c4 base64_decode "External URL" (ExternalURL metadata))
      as [external| | |]; try discriminate.
    intros [= <-]. unfold page_head. rewrite <- !app_assoc. cbn [app].
    rewrite !builder_string_cons, !append_assoc. eexists. reflexivity.
  - intros [ei Hi] [ee He].
    destruct (field_lines_error c0 c1 c2 c3 c4 base64_decode "Image" _ _ Hi c0 c1 c2 c3 c4)
      as (_ & image & Himage).
    destruct (field_lines_error c0 c1 c2 c3 c4 base64_decode "External URL" _ _ He
                c0 c1 c2 c3 c4) as (_ & external & Hexternal).
    split.
    + rewrite Himage, Hexternal. eauto.
    + intros d0 d1 d2 d3 d4. rewrite FormatMetadataAsText_factored.
      rewrite <- (proj1 (field_lines_error c0 c1 c2 c3 c4 base64_decode "Image" _ _ Hi
                           d0 d1 d2 d3 d4)).
      rewrite <- (proj1 (field_lines_error c0 c1 c2 c3 c4 base64_decode "External URL" _ _ He
                           d0 d1 d2 d3 d4)).
      reflexivity.
Qed.

(** ** Where the metadata is fetched from *)

Lemma prefix_append p s : String.prefix p (p +:+ s) = true.
Proof.
  induction p as [|c p IH]; [destruct s; reflexivity|].
  change (String.prefix (String c p) (String c (p +:+ s)) = true).
  cbn [String.prefix]. destruct (Ascii.ascii_dec c c) as [_|N]; [exact IH|contradiction].
Qed.

Lemma trim_prefix_append p s : trim_prefix p (p +:+ s) = s.
Proof.
  unfold trim_prefix. induction p as [|c p IH].
  - change (EmptyString +:+ s)%string with s. cbn. rewrite Nat.sub_0_r. apply substring_all.
  - change (String c p +:+ s)%string with (String c (p +:+ s)). cbn. exact IH.
Qed.

Lemma Replace1_prefix s old new :
  String.prefix old s = true ->
  Replace1 s old new = (new +:+ trim_prefix old s)%string.
Proof. intros H. destruct s; cbn [Replace1]; rewrite H; reflexivity. Qed.

(** X18. Before anything is fetched, a token URI is classified: a
    URI with the JSON data prefix is decoded in place; every other URI
    is requested over HTTP, the two IPFS spellings ["ipfs://<path>"] and
    ["ipfs/<path>"] both as ["https://ipfs.io/ipfs/<path>"], any other
    unchanged.  The rewriting is stable: the URL that is requested is
    itself a URI that would be requested unchanged. *)
Theorem metadata_source_gateway (x : string) :
  metadata_source ("ipfs://" +:+ x) = FromHTTP ("https://ipfs.io/ipfs/" +:+ x) /\
  metadata_source ("ipfs/" +:+ x) = FromHTTP ("https://ipfs.io/ipfs/" +:+ x) /\
  metadata_source ("data:application/json;base64," +:+ x)
  = FromDataURI ("data:application/json;base64," +:+ x) /\
  (forall uri,
     String.prefix "data:application/json;base64," uri = false ->
     String.prefix "ipfs://" uri = false -> String.prefix "ipfs/" uri = false ->
     metadata_source uri = FromHTTP uri) /\
  (forall uri url, metadata_source uri = FromHTTP url ->
     metadata_source url = FromHTTP url).
Proof.
  split; [|split; [|split; [|split]]].
  - unfold metadata_source.
    change (String.prefix "data:application/json;base64," ("ipfs://" +:+ x)) with false.
    cbv iota. rewrite (prefix_append "ipfs://" x).
    rewrite Replace1_prefix by apply prefix_append.
    rewrite trim_prefix_append. reflexivity.
  - unfold metadata_source.
    change (String.prefix "data:application/json;base64," ("ipfs/" +:+ x)) with false.
    cbv iota.
    assert (H : String.prefix "ipfs://" ("ipfs/" +:+ x) = false).
    { cbn. destruct x as [|c x]; [reflexivity|].
      destruct (Ascii.ascii_dec "/" c) as [<-|]; reflexivity. }
    rewrite H, (prefix_append "ipfs/" x). reflexivity.
  - unfold metadata_source. rewrite prefix_append. reflexivity.
  - intros uri H1 H2 H3. unfold metadata_source. rewrite H1, H2, H3. reflexivity.
  - intros uri url. unfold metadata_source.
    destruct (String.prefix "data:application/json;base64," uri) eqn:H1; [discriminate|].
    destruct (String.prefix "ipfs://" uri) eqn:H2.
    + intros [= <-]. rewrite (Replace1_prefix _ _ _ H2). reflexivity.
    + destruct (String.prefix "ipfs/" uri) eqn:H3; intros [= <-].
      * reflexivity.
      * rewrite H1, H2, H3. reflexivity.
Qed.

(** ** The request handler: which paths reach the registry *)

Lemma Split_nonempty s sep : Split s sep <> [].
Proof.
  destruct s as [|c rest]; [discriminate|]. cbn [Split].
  destruct (Ascii.eqb c sep); [discriminate|].
  destruct (Split rest sep); discriminate.
Qed.

Lemma Split_no_sep s sep :
  sep ∉ list_ascii_of_string s -> Split s sep = [s].
Proof.
  induction s as [|c rest IH]; [reflexivity|].
  cbn [list_ascii_of_string Split]. intros Hnin.
  apply not_elem_of_cons in Hnin as (Hne & Hrest).
  destruct (Ascii.eqb_spec c sep) as [->|_]; [contradiction|].
  rewrite (IH Hrest). reflexivity.
Qed.

Lemma Split_append a b sep :
  sep ∉ list_ascii_of_string a ->
  Split (a +:+ String sep b) sep = a :: Split b sep.
Proof.
  induction a as [|c rest IH]; intros Hnin.
  - change (EmptyString +:+ String sep b)%string with (String sep b).
    cbn [Split]. rewrite Ascii.eqb_refl. reflexivity.
  - change (String c rest +:+ String sep b)%string with (String c (rest +:+ String sep b)).
    cbn [list_ascii_of_string] in Hnin.
    apply not_elem_of_cons in Hnin as (Hne & Hrest).
    cbn [Split]. destruct (Ascii.eqb_spec c sep) as [->|_]; [contradiction|].
    rewrite (IH Hrest). reflexivity.
Qed.

(** The first part has no separator; it is the whole string, or it
    is followed by a separator and the string of the other parts. *)
Lemma Split_cons s sep part parts :
  Split s sep = part :: parts ->
(sep ∉ list_ascii_of_string part) /\
  (parts = [] /\ s = part \/
   exists rest, s = (part +:+ String sep rest)%string /\ Split rest sep = parts).
Proof.
  revert part parts. induction s as [|c rest IH]; intros part parts.
  - cbn. intros [= <- <-]. split; [apply not_elem_of_nil|]. left. auto.
  - cbn [Split]. destruct (Ascii.eqb_spec c sep) as [->|Hne].
    + intros [= <- <-]. split; [apply not_elem_of_nil|]. right. exists rest. auto.
    + destruct (Split rest sep) as [|p ps] eqn:Hs; [destruct (Split_nonempty _ _ Hs)|].
      intros [= <- <-]. destruct (IH p ps eq_refl) as (Hnin & Hcase).
      split.
      * cbn [list_ascii_of_string]. apply not_elem_of_cons. split; [congruence|exact Hnin].
      * destruct Hcase as [(-> & ->)|(rest' & -> & Hrest)]; [left; auto|].
        right. exists rest'. split; [reflexivity|exact Hrest].
Qed.

Lemma Split_two s sep a b :
  Split s sep = [a; b] <->
  s = (a +:+ String sep b)%string /\
  (sep ∉ list_ascii_of_string a) /\ (sep ∉ list_ascii_of_string b).
Proof.
  split.
  - intros Hs. apply Split_cons in Hs as (Ha & [(Hnil & _)|(rest & -> & Hrest)]);
      [discriminate|].
    apply Split_cons in Hrest as (Hb & [(_ & ->)|(rest' & _ & Hnil)]).
    + auto.
    + destruct (Split_nonempty _ _ Hnil).
  - intros (-> & Ha & Hb). rewrite (Split_append a b sep Ha), (Split_no_sep b sep Hb).
    reflexivity.
Qed.

(** X19. The handler answers before it consults the registry or the
    network exactly when the path is not well formed: after one
    optional leading slash, a chain identifier that parses, one slash,
    and a token identifier that is not empty and holds no slash.  Such
    an answer has status 400 and leaves the registry and the world as
    they were. *)
Theorem handleToken_validates_path (chain_id_reply : nat -> string -> option Z)
    (base64_decode : string -> option (list byte))
    (GetTokenMetadata : service_ptr -> string -> Fetched)
    (order : list (Z * service_ptr)) (s : Server) (w : World)
    (Path : string) (Query : string -> string) :
  let out := handleToken chain_id_reply base64_decode GetTokenMetadata
               order s w Path Query in
  (rejected_by_validation out.1.1 <-> ~ well_formed_path Path) /\
  (rejected_by_validation out.1.1 ->
   StatusCode out.1.1 = Some 400 /\ out.1.2 = s /\ out.2 = w).
Proof.
  cbv zeta. unfold handleToken, well_formed_path.
  destruct (Split (TrimPrefix Path "/") "/") as [|a [|b [|c parts]]] eqn:Hs.
  - destruct (Split_nonempty _ _ Hs).
  - cbn. split; [|auto]. split; [|auto]. intros _ (x & y & n & Heq & Hx & Hy & _).
    assert (H2 : Split (TrimPrefix Path "/") "/" = [x; y])
      by (apply Split_two; auto).
    rewrite Hs in H2. discriminate.
  - apply Split_two in Hs as (Heq & Ha & Hb).
    destruct (ParseChainID a) as [e|chainID] eqn:Hparse.
    { cbn. split; [|auto]. split; [|auto]. intros _ (x & y & n & Heq' & Hx & Hy & _ & Hn).
      assert (H2 : Split (TrimPrefix Path "/") "/" = [x; y])
        by (apply Split_two; auto).
      assert (H1 : Split (TrimPrefix Path "/") "/" = [a; b])
        by (apply Split_two; auto).
      rewrite H1 in H2. injection H2 as -> ->. rewrite Hparse in Hn. discriminate. }
    unfold ParseTokenID. destruct (String.eqb b EmptyString) eqn:Hb0.
    { apply String.eqb_eq in Hb0. subst b. cbn. split; [|auto]. split; [|auto]. intros _ (x & y & n & Heq' & Hx & Hy & Hy0 & _).
      assert (H2 : Split (TrimPrefix Path "/") "/" = [x; y])
        by (apply Split_two; auto).
      assert (H1 : Split (TrimPrefix Path "/") "/" = [a; EmptyString])
        by (apply Split_two; auto).
      rewrite H1 in H2. injection H2 as <- <-. contradiction. }
    apply String.eqb_neq in Hb0.
    assert (Hwf : exists x y n,
               TrimPrefix Path "/" = (x +:+ "/" +:+ y)%string /\
               ("/"%char ∉ list_ascii_of_string x) /\
               ("/"%char ∉ list_ascii_of_string y) /\
               y <> EmptyString /\ ParseChainID x = inr n)
      by (exists a, b, chainID; auto).
    destruct (getServiceForChainID chain_id_reply order s w chainID) as [[r s'] w'].
    destruct r as [service|e|];
      [destruct (GetTokenMetadata service b) as [metadata| |];
       [destruct (FormatMetadataAsText _ _ _ _ _ _ _ _ _)| |]| |];
      cbn; (split; [split; [contradiction|intros Hn; apply Hn; exact Hwf]|contradiction]).
  - cbn. split; [|auto]. split; [|auto]. intros _ (x & y & n & Heq & Hx & Hy & _).
    assert (H2 : Split (TrimPrefix Path "/") "/" = [x; y])
      by (apply Split_two; auto).
    rewrite Hs in H2. discriminate.
Qed.

(** ** The request handler: the palette *)

Lemma QueryUnescape_nonempty s t :
  s <> EmptyString -> QueryUnescape s = Some t -> t <> EmptyString.
Proof.
  destruct s as [|c rest]; [contradiction|]. intros _. cbn [QueryUnescape].
  destruct (Ascii.eqb c "%").
  - destruct rest as [|h [|l rest']]; try discriminate.
    destruct (ishex h && ishex l); [|discriminate].
    destruct (QueryUnescape rest'); [|discriminate]. intros [= <-]. discriminate.
  - destruct (QueryUnescape rest); [|discriminate]. intros [= <-]. discriminate.
Qed.

Lemma QueryUnescape_plain s :
  "%"%char ∉ list_ascii_of_string s -> "+"%char ∉ list_ascii_of_string s ->
  QueryUnescape s = Some s.
Proof.
  induction s as [|c rest IH]; [reflexivity|].
  cbn [list_ascii_of_string]. intros Hp Hq.
  apply not_elem_of_cons in Hp as (Hp & Hp').
  apply not_elem_of_cons in Hq as (Hq & Hq').
  cbn [QueryUnescape].
  destruct (Ascii.eqb_spec c "%") as [->|_]; [contradiction|].
  rewrite (IH Hp' Hq').
  destruct (Ascii.eqb_spec c "+") as [->|_]; [contradiction|reflexivity].
Qed.

(** X20. Every entry of the palette that the handler passes to the
    page is a non-empty string: the default of its position when the
    parameter is missing, empty or not decodable, the decoded parameter
    otherwise.  The value that the query parser hands over is decoded a
    second time; a value with no percent sign and no plus sign is taken
    as it stands. *)
Theorem query_char_palette (Query : string -> string) (i : nat) :
  (i < 5)%nat ->
  let value := Query ("c" +:+ fmt_d (Z.of_nat i))%string in
  query_char Query i <> EmptyString /\
  nth i defaultChars EmptyString <> EmptyString /\
  (value = EmptyString \/ QueryUnescape value = None ->
   query_char Query i = nth i defaultChars EmptyString) /\
  (forall decoded, value <> EmptyString -> QueryUnescape value = Some decoded ->
     query_char Query i = decoded) /\
  (value <> EmptyString ->
   "%"%char ∉ list_ascii_of_string value -> "+"%char ∉ list_ascii_of_string value ->
   query_char Query i = value).
Proof.
  intros Hi. cbv zeta. unfold query_char.
  assert (Hdef : nth i defaultChars EmptyString <> EmptyString).
  { do 5 (destruct i as [|i]; [discriminate|]). lia. }
  destruct (String.eqb (Query ("c" +:+ fmt_d (Z.of_nat i))%string) EmptyString) eqn:He.
  - apply String.eqb_eq in He.
    split; [exact Hdef|]. split; [exact Hdef|]. split; [reflexivity|].
    split; [intros d Hne; contradiction|]. intros Hne. contradiction.
  - apply String.eqb_neq in He.
    destruct (QueryUnescape (Query ("c" +:+ fmt_d (Z.of_nat i))%string)) as [decoded|] eqn:Hq.
    + split; [exact (QueryUnescape_nonempty _ _ He Hq)|]. split; [exact Hdef|].
      split; [intros [H|H]; [contradiction|discriminate]|].
      split; [intros d _ [= <-]; reflexivity|].
      intros _ Hp Hplus. rewrite (QueryUnescape_plain _ Hp Hplus) in Hq.
      injection Hq as <-. reflexivity.
    + split; [exact Hdef|]. split; [exact Hdef|]. split; [reflexivity|].
      split; [intros d _ [=]|].
      intros _ Hp Hplus. rewrite (QueryUnescape_plain _ Hp Hplus) in Hq. discriminate.
Qed.

Lemma query_char_palette_witness :
  let Query := fun name : string =>
                 if String.eqb name "c1" then "%23"%string
                 else if String.eqb name "c2" then "+"%string
                 else EmptyString in
  let value := Query ("c" +:+ fmt_d (Z.of_nat 1))%string in
  query_char Query 1 <> EmptyString /\
  nth 1 defaultChars EmptyString <> EmptyString /\
  (value = EmptyString \/ QueryUnescape value = None ->
   query_char Query 1 = nth 1 defaultChars EmptyString) /\
  (forall decoded, value <> EmptyString -> QueryUnescape value = Some decoded ->
     query_char Query 1 = decoded) /\
  (value <> EmptyString ->
   "%"%char ∉ list_ascii_of_string value -> "+"%char ∉ list_ascii_of_string value ->
   query_char Query 1 = value).
Proof.
  apply (query_char_palette
           (fun name : string =>
              if String.eqb name "c1" then "%23"%string
              else if String.eqb name "c2" then "+"%string
              else EmptyString) 1).
  lia.
Defined.

(** ** The server over its lifetime *)

(** One resolution: the registry keeps what it had, gains at most the
    requested key, and what that key holds was registered before. *)
Lemma getServiceForChainID_step chain_id_reply order s w chainID r s' w' :
  registry_wf (services s) (heap w) ->
  (forall k p, (k, p) ∈ order -> services s !! k = Some p) ->
  getServiceForChainID chain_id_reply order s w chainID = (r, s', w') ->
  config s' = config s /\
  services s ⊆ services s' /\
  (forall k p, services s' !! k = Some p -> exists k0, services s !! k0 = Some p) /\
  (size (services s') <= S (size (services s)))%nat /\
  (exists new, probes w' = probes w ++ new).
Proof.
  intros Hwf Hsub. unfold getServiceForChainID.
  destruct (services s !! chainID) as [p|] eqn:Hl.
  { intros [= <- <- <-]. split; [reflexivity|]. split; [reflexivity|].
    split; [eauto|]. split; [lia|]. exists []. rewrite app_nil_r. reflexivity. }
  destruct w as [hp pr]. cbn [heap probes] in *.
  destruct (scan chain_id_reply order chainID {| heap := hp; probes := pr |})
    as [r0 w0] eqn:Hs.
  destruct (scan_frame chain_id_reply order chainID hp pr r0 w0)
    as (Hh & (n & _ & Hp) & Hr); [|exact Hs|].
  { intros k p Hin. exact (Hwf k p (Hsub k p Hin)). }
  destruct r0 as [[p|]|e|]; try contradiction; intros [= <- <- <-]; cbn [services config].
  - split; [reflexivity|]. split; [apply insert_subseteq; exact Hl|]. split.
    + intros k q Hk. destruct (decide (k = chainID)) as [->|Hne].
      * assert (Hq : Some q = Some p)
          by (etransitivity; [symmetry; exact Hk|apply lookup_insert_eq]).
        injection Hq as ->. destruct Hr as (k0 & Hk0). exists k0. apply Hsub. exact Hk0.
      * exists k. etransitivity; [|exact Hk]. symmetry. apply lookup_insert_ne. congruence.
    + split; [apply size_insert_le|]. eauto.
  - split; [reflexivity|]. split; [reflexivity|]. split; [eauto|]. split; [lia|]. eauto.
Qed.

(** One request. *)
Lemma handleToken_step chain_id_reply base64_decode GetTokenMetadata
    order s w Path Query resp s' w' :
  registry_wf (services s) (heap w) ->
  (forall k p, (k, p) ∈ order -> services s !! k = Some p) ->
  handleToken chain_id_reply base64_decode GetTokenMetadata order s w Path Query
  = (resp, s', w') ->
  registry_wf (services s') (heap w') /\ heap w' = heap w /\
  config s' = config s /\
  services s ⊆ services s' /\
  (forall k p, services s' !! k = Some p -> exists k0, services s !! k0 = Some p) /\
  (size (services s') <= S (size (services s)))%nat /\
  (exists new, probes w' = probes w ++ new).
Proof.
  intros Hwf Hsub. unfold handleToken.
  assert (Hsame : (resp, s', w') = (resp, s, w) ->
            registry_wf (services s') (heap w') /\ heap w' = heap w /\
            config s' = config s /\ services s ⊆ services s' /\
            (forall k p, services s' !! k = Some p -> exists k0, services s !! k0 = Some p) /\
            (size (services s') <= S (size (services s)))%nat /\
            (exists new, probes w' = probes w ++ new)).
  { intros [= -> ->]. split; [exact Hwf|]. split; [reflexivity|]. split; [reflexivity|].
    split; [reflexivity|]. split; [eauto|]. split; [lia|].
    exists []. rewrite app_nil_r. reflexivity. }
  destruct (Split (TrimPrefix Path "/") "/") as [|a [|b [|c parts]]];
    try (intros [= <- <- <-]; apply Hsame; reflexivity).
  destruct (ParseChainID a) as [e|chainID];
    [intros [= <- <- <-]; apply Hsame; reflexivity|].
  destruct (ParseTokenID b) as [tokenID|];
    [|intros [= <- <- <-]; apply Hsame; reflexivity].
  destruct (getServiceForChainID chain_id_reply order s w chainID) as [[r s1] w1] eqn:Hres.
  destruct (resolve_preserves_wf chain_id_reply order s w chainID r s1 w1 Hwf Hsub Hres)
    as (Hwf1 & Hheap).
  destruct (getServiceForChainID_step chain_id_reply order s w chainID r s1 w1 Hwf Hsub Hres)
    as (Hcfg & Hincl & Hfrom & Hsize & Hprobes).
  assert (Hdone : forall resp0, (resp0, s1, w1) = (resp, s', w') ->
            registry_wf (services s') (heap w') /\ heap w' = heap w /\
            config s' = config s /\ services s ⊆ services s' /\
            (forall k p, services s' !! k = Some p -> exists k0, services s !! k0 = Some p) /\
            (size (services s') <= S (size (services s)))%nat /\
            (exists new, probes w' = probes w ++ new)).
  { intros resp0 [= _ <- <-]. auto 10. }
  destruct r as [service|e|]; [|apply Hdone|apply Hdone].
  destruct (GetTokenMetadata service tokenID) as [metadata| |]; [|apply Hdone|apply Hdone].
  destruct (FormatMetadataAsText _ _ _ _ _ _ _ _ _); apply Hdone.
Qed.

Lemma serves_invariant chain_id_reply base64_decode st0 log st :
  serves chain_id_reply base64_decode st0 log st ->
  registry_wf (services st0.1) (heap st0.2) ->
  registry_wf (services st.1) (heap st.2) /\ heap st.2 = heap st0.2 /\
  config st.1 = config st0.1 /\
  services st0.1 ⊆ services st.1 /\
  (forall k p, services st.1 !! k = Some p -> exists k0, services st0.1 !! k0 = Some p) /\
  (size (services st.1) <= size (services st0.1) + length log)%nat /\
  (exists new, probes st.2 = probes st0.2 ++ new).
Proof.
  induction 1 as [st|s w r resp s' w' log st'' Hperm Hrun _ IH]; intros Hwf.
  - split; [exact Hwf|]. split; [reflexivity|]. split; [reflexivity|].
    split; [reflexivity|]. split; [eauto|]. split; [lia|].
    exists []. rewrite app_nil_r. reflexivity.
  - cbn [fst snd] in *.
    assert (Hsub : forall k p, (k, p) ∈ req_order r -> services s !! k = Some p).
    { intros k p Hin. apply elem_of_map_to_list. rewrite <- Hperm. exact Hin. }
    destruct (handleToken_step _ _ _ _ _ _ _ _ _ _ _ Hwf Hsub Hrun)
      as (Hwf1 & Hheap & Hcfg & Hincl & Hfrom & Hsize & (new1 & Hprobes)).
    destruct (IH Hwf1) as (Hwf2 & Hheap2 & Hcfg2 & Hincl2 & Hfrom2 & Hsize2 & (new2 & Hprobes2)).
    split; [exact Hwf2|]. split; [congruence|]. split; [congruence|].
    split; [etransitivity; eassumption|]. split.
    + intros k p Hk. destruct (Hfrom2 k p Hk) as (k1 & Hk1). exact (Hfrom k1 p Hk1).
    + split; [cbn [length]; lia|].
      exists (new1 ++ new2). rewrite Hprobes2, Hprobes, app_assoc. reflexivity.
Qed.

(** X21. From construction on and through every sequence of requests,
    each served with the registry ranged in some order: every
    registered pointer stays a live source, which is what resolving
    needs to never dereference nil; no source is allocated or dropped; the
    configuration is the one given at construction; a key once
    registered keeps its source for ever; every source in the registry
    is one that construction registered; the registry gains at most as
    many keys as requests were served; and the log of chain identifier
    queries only grows. *)
Theorem serving_keeps_registry_live (dial : string -> bool)
    (chain_id_reply : nat -> string -> option Z)
    (base64_decode : string -> option (list byte))
    (order : list (Z * RPCConfig)) (cfg : Config) (w0 : World)
    (srv : Server) (w1 : World) (log : list (Request * Response))
    (s : Server) (w : World) :
  NewServer dial chain_id_reply order cfg w0 = (Success srv, w1) ->
  serves chain_id_reply base64_decode (srv, w1) log (s, w) ->
  registry_wf (services s) (heap w) /\ heap w = heap w1 /\
  config s = cfg /\
  services srv ⊆ services s /\
  (forall k p, services s !! k = Some p -> exists k0, services srv !! k0 = Some p) /\
  (size (services s) <= size (services srv) + length log)%nat /\
  (exists new, probes w = probes w1 ++ new).
Proof.
  intros Hnew Hserves.
  pose proof (NewServer_wf _ _ _ _ _ _ _ Hnew) as Hwf.
  assert (Hcfg : config srv = cfg).
  { unfold NewServer in Hnew.
    destruct (NewServer_loop dial chain_id_reply order ∅ w0) as [[m|e|] w2];
      [|discriminate|discriminate].
    injection Hnew as <- _. reflexivity. }
  destruct (serves_invariant _ _ _ _ _ Hserves Hwf)
    as (H1 & H2 & H3 & H4 & H5 & H6 & H7).
  cbn [fst snd] in *. rewrite Hcfg in H3. auto 10.
Qed.

Lemma serving_keeps_registry_live_witness :
  let rpcA := {| RPCURL := "a"; ContractAddress := "0xa" |} in
  let cfg := {| RPCConfigs := {[ 1 := rpcA ]}; AddressPort := ":8080" |} in
  let srv := {| services := {[ 1 := Some 0%nat ]}; config := cfg |} in
  let w1 := {| heap := [service_for rpcA]; probes := [] |} in
  let r := {| req_path := "/5/1"; req_query := fun _ => EmptyString;
              req_fetch := fun _ _ => FetchFailed;
              req_order := [(1, Some 0%nat)] |} in
  let s := {| services := <[ 5 := Some 0%nat ]> {[ 1 := Some 0%nat ]}; config := cfg |} in
  let w := {| heap := [service_for rpcA]; probes := [0%nat] |} in
  registry_wf (services s) (heap w) /\ heap w = heap w1 /\
  config s = cfg /\
  services srv ⊆ services s /\
  (forall k p, services s !! k = Some p -> exists k0, services srv !! k0 = Some p) /\
  (size (services s) <= size (services srv) + length [(r, InternalServerError)])%nat /\
  (exists new, probes w = probes w1 ++ new).
Proof.
  cbv zeta.
  apply (serving_keeps_registry_live (fun _ => true) (fun _ _ => Some 5)
           (fun _ => None)
           [(1, {| RPCURL := "a"; ContractAddress := "0xa" |})]
           _ {| heap := []; probes := [] |}).
  - vm_compute. reflexivity.
  - eapply serves_cons; [| |apply serves_nil].
    + vm_compute. reflexivity.
    + vm_compute. reflexivity.
Defined.
